(** * The chat endpoint of the beauty-store assistant: query understanding
      and product matching

    A shallow embedding of the two chat route handlers of the repository
    (the stateless one and the one that persists the conversation in
    Redis) and of the helpers they share ([isProductVectorMetadata],
    [parsePrice], the derivation of the requested product count, the
    per-record filter of [performVectorQuery], the multi-type loop with
    [usedProductIds], the fallback search, the final selection of the
    product cards and the assembly of the response), of
    [buildDynamicMappings], which fills the keyword mappings from the
    catalogue, of the extraction of the JSON text from the reply of the
    language model, and of [sendMessage], by which the chat widget calls
    a handler and shows its answer.

    Modelling conventions.
    - A JavaScript string is the [string] of the UTF-8 bytes of its text.
      [trim] strips every white-space character of the language, in one,
      two or three bytes; [split], [includes] and the equality of strings
      are the same on the bytes as on the text.  [toLowerCase] folds A-Z
      and [length] and [substring] count bytes, which is what JavaScript
      does on ASCII text.
    - A JavaScript number is the rational it denotes ([Q]).  The order and
      the comparisons of the handlers are those of the rationals; rounding
      to binary64 and the non-finite values are not represented.
    - Values whose shape the handlers check at run time (the request body,
      the parsed reply of the language model, the metadata of a search
      hit, the stored history) are [json] values; [None : option json] is
      JavaScript's [undefined].
    - The handlers are written in a state-and-exception monad.  The state
      holds the closure variable [searchNote] and the trace of the calls
      made to the external services; an exception is a JavaScript [throw].
    - The external services (vector index, language model, Redis, the
      process environment) are the fields of [Env]; every theorem
      quantifies over them.  [console.log] and friends are left out.
    - A JavaScript [Set] is the list of its elements in insertion order;
      an object used as a map is a [gmap], and the two names that every
      object inherits in lower case ([constructor], [__proto__]) are
      accounted for where the build reads a key it has not written and
      where Stage 2 looks up the keywords of a product type.  The type
      check of the stateless handler reads the synonyms of a type by own
      properties; [POST] runs it for a type only after that look-up.
    - [JSON.parse] and [JSON.stringify] are not modelled: the reply of
      the model and the text stored in Redis come with their parse, and
      a body sent by the widget is read by the handler as the value the
      widget built. *)

From Stdlib Require Import String Ascii List ZArith QArith Qround Lia Bool.
From Stdlib Require Import Sorting.Sorted Sorting.Permutation.
From stdpp Require Import base option list gmap strings.
Import ListNotations.

#[local] Open Scope string_scope.
#[local] Open Scope list_scope.

(* ================================================================== *)
(** * JavaScript strings *)
(* ================================================================== *)

Definition is_upper (c : ascii) : bool :=
  (65 <=? nat_of_ascii c)%nat && (nat_of_ascii c <=? 90)%nat.

Definition lower_char (c : ascii) : ascii :=
  if is_upper c then ascii_of_nat (nat_of_ascii c + 32) else c.

(** [String.prototype.toLowerCase] *)
Fixpoint toLowerCase (s : string) : string :=
  match s with
  | EmptyString => EmptyString
  | String c r => String (lower_char c) (toLowerCase r)
  end.

(** The white space that [trim] strips: TAB, LF, VT, FF, CR and SPACE in
    one byte each, and in the UTF-8 bytes of the text the other
    characters of the language's WhiteSpace and LineTerminator. *)
Definition is_white_space (c : ascii) : bool :=
  let n := nat_of_ascii c in
  ((9 <=? n)%nat && (n <=? 13)%nat) || (n =? 32)%nat.

(** U+00A0 in two bytes. *)
Definition is_white_space2 (a b : ascii) : bool :=
  (nat_of_ascii a =? 194)%nat && (nat_of_ascii b =? 160)%nat.

(** U+1680, U+2000 to U+200A, U+2028, U+2029, U+202F, U+205F, U+3000 and
    U+FEFF in three bytes. *)
Definition is_white_space3 (a b c : ascii) : bool :=
  let a := nat_of_ascii a in
  let b := nat_of_ascii b in
  let c := nat_of_ascii c in
  ((a =? 225) && (b =? 154) && (c =? 128))%nat ||
  ((a =? 226) && (b =? 128) &&
   (((128 <=? c) && (c <=? 138)) || (c =? 168) || (c =? 169) || (c =? 175)))%nat ||
  ((a =? 226) && (b =? 129) && (c =? 159))%nat ||
  ((a =? 227) && (b =? 128) && (c =? 128))%nat ||
  ((a =? 239) && (b =? 187) && (c =? 191))%nat.

(** [s] is one white-space character. *)
Definition white_space (s : string) : bool :=
  match s with
  | String a EmptyString => is_white_space a
  | String a (String b EmptyString) => is_white_space2 a b
  | String a (String b (String c EmptyString)) => is_white_space3 a b c
  | _ => false
  end.

(** [s] starts with a white-space character. *)
Definition starts_with_white_space (s : string) : bool :=
  match s with
  | EmptyString => false
  | String a r =>
      is_white_space a ||
      match r with
      | EmptyString => false
      | String b r =>
          is_white_space2 a b ||
          match r with
          | EmptyString => false
          | String c _ => is_white_space3 a b c
          end
      end
  end.

Fixpoint trimStart (s : string) : string :=
  match s with
  | EmptyString => EmptyString
  | String a r =>
      if is_white_space a then trimStart r
      else match r with
           | EmptyString => s
           | String b r =>
               if is_white_space2 a b then trimStart r
               else match r with
                    | EmptyString => s
                    | String c r => if is_white_space3 a b c then trimStart r else s
                    end
           end
  end.

Fixpoint trimEnd (s : string) : string :=
  match s with
  | EmptyString => EmptyString
  | String c r =>
      let kept := String c (trimEnd r) in
      if white_space kept then EmptyString else kept
  end.

(** [String.prototype.trim] *)
Definition trim (s : string) : string := trimEnd (trimStart s).

(** [s.includes(sub)]: [sub] occurs in [s] as a contiguous substring. *)
Fixpoint includes (s sub : string) : bool :=
  String.prefix sub s ||
  match s with
  | EmptyString => false
  | String _ r => includes r sub
  end.

(** [s.split(sep)] for a one-character separator; the result is never the
    empty array. *)
Fixpoint split (sep : ascii) (s : string) : list string :=
  match s with
  | EmptyString => [EmptyString]
  | String c r =>
      if Ascii.eqb c sep then EmptyString :: split sep r
      else match split sep r with
           | seg :: segs => String c seg :: segs
           | [] => [String c EmptyString]
           end
  end.

(** [arr.pop()] read for its value on a fresh array: the last element. *)
Definition pop (l : list string) : option string := last l.

(** [arr.join(sep)] on an array of strings. *)
Fixpoint join (sep : string) (l : list string) : string :=
  match l with
  | [] => ""
  | [x] => x
  | x :: r => x +:+ sep +:+ join sep r
  end.

(** [s.substring(0, n)] *)
Definition substring0 (n : nat) (s : string) : string := String.substring 0 n s.

(** [s || d] on strings: the empty string is falsy. *)
Definition str_or (s d : string) : string := if String.eqb s "" then d else s.

(** [!s || s.trim().length === 0] *)
Definition is_blank (s : string) : bool := String.eqb (trim s) "".

(* ================================================================== *)
(** * JavaScript numbers read from text *)
(* ================================================================== *)

Definition is_digit (c : ascii) : bool :=
  (48 <=? nat_of_ascii c)%nat && (nat_of_ascii c <=? 57)%nat.

Definition digit_value (c : ascii) : Z := Z.of_nat (nat_of_ascii c - 48).

(** The longest prefix of digits, and what follows it. *)
Fixpoint span_digits (s : string) : string * string :=
  match s with
  | EmptyString => (EmptyString, EmptyString)
  | String c r =>
      if is_digit c then let '(d, rest) := span_digits r in (String c d, rest)
      else (EmptyString, s)
  end.

Fixpoint digits_value_from (acc : Z) (ds : string) : Z :=
  match ds with
  | EmptyString => acc
  | String c r => digits_value_from (10 * acc + digit_value c) r
  end.

Definition digits_value (ds : string) : Z := digits_value_from 0 ds.

(** [parseFloat] on the strings [parsePrice] passes to it, which hold
    digits and dots only: the value of the longest prefix that reads as a
    decimal literal ([12], [12.], [12.5], [.5]), and [None] for [NaN]
    when there is no such prefix. *)
Definition parseFloat (s : string) : option Q :=
  let '(ip, rest) := span_digits s in
  match rest with
  | String "." rest' =>
      let '(fp, _) := span_digits rest' in
      if String.eqb ip "" && String.eqb fp "" then None
      else Some (Qmake (digits_value (ip +:+ fp))
                       (Z.to_pos (10 ^ Z.of_nat (String.length fp))))
  | _ => if String.eqb ip "" then None else Some (inject_Z (digits_value ip))
  end.

(** [parseInt(s, 10)]: leading white space, an optional sign, then the
    longest run of digits; [None] for [NaN]. *)
Definition parseInt (s : string) : option Z :=
  let s := trimStart s in
  let '(neg, s) :=
    match s with
    | String "-" r => (true, r)
    | String "+" r => (false, r)
    | _ => (false, s)
    end in
  let '(ds, _) := span_digits s in
  if String.eqb ds "" then None
  else Some (if neg : bool then - digits_value ds else digits_value ds)%Z.


(** [s.replace(/[^0-9.]/g, '')] keeps the characters [keep] accepts. *)
Fixpoint keep_chars (keep : ascii -> bool) (s : string) : string :=
  match s with
  | EmptyString => EmptyString
  | String c r => if keep c then String c (keep_chars keep r) else keep_chars keep r
  end.

Definition is_dot (c : ascii) : bool := Ascii.eqb c ".".

(** [parsePrice]:
    const cleaned = priceStr.replace(/[^0-9.]/g, '');
    return parseFloat(cleaned) || 0; *)
Definition parsePrice (priceStr : string) : Q :=
  let cleaned := keep_chars (fun c => is_digit c || is_dot c) priceStr in
  match parseFloat cleaned with
  | Some q => if Qeq_bool q 0 then 0 else q
  | None => 0
  end.

(* ================================================================== *)
(** * Arrays *)
(* ================================================================== *)

Section Arrays.
Context {A : Type}.

(** [arr.slice(0, end)]; [end] is truncated towards zero and a negative
    [end] counts from the end of the array. *)
Definition slice_to (end_ : Q) (l : list A) : list A :=
  let e := if Qle_bool 0 end_ then Qfloor end_ else Qceiling end_ in
  if (e <? 0)%Z then take (Z.to_nat (Z.of_nat (length l) + e)) l
  else take (Z.to_nat e) l.

(** [arr.slice(start)]; a negative [start] counts from the end, and
    [-0] is [0]. *)
Definition slice_from (start : Z) (l : list A) : list A :=
  if (start <? 0)%Z then drop (Z.to_nat (Z.of_nat (length l) + start)) l
  else drop (Z.to_nat start) l.

(** [arr.sort(cmp)].  The language requires the sort to be stable, and
    for a comparator that orders by a key the stable arrangement is
    unique; it is computed here by insertion.  Only the sign of [cmp]
    is used. *)
Variable cmp : A -> A -> Q.

Fixpoint sort_insert (x : A) (l : list A) : list A :=
  match l with
  | [] => [x]
  | y :: r => if Qle_bool (cmp x y) 0 then x :: l else y :: sort_insert x r
  end.

Definition sort (l : list A) : list A := foldr sort_insert [] l.
End Arrays.

(* ================================================================== *)
(** * JSON values *)
(* ================================================================== *)

#[warnings="-register-all"]
Inductive json : Type :=
| JNull
| JBool (b : bool)
| JNum (n : Q)
| JStr (s : string)
| JArr (items : list json)
| JObj (fields : list (string * json)).

Inductive js_type := TUndefined | TObject | TBoolean | TNumber | TString.

Definition js_type_eqb (a b : js_type) : bool :=
  match a, b with
  | TUndefined, TUndefined | TObject, TObject | TBoolean, TBoolean
  | TNumber, TNumber | TString, TString => true
  | _, _ => false
  end.

(** [typeof v] *)
Definition typeof (v : option json) : js_type :=
  match v with
  | None => TUndefined
  | Some JNull | Some (JArr _) | Some (JObj _) => TObject
  | Some (JBool _) => TBoolean
  | Some (JNum _) => TNumber
  | Some (JStr _) => TString
  end.

(** Truthiness of a value in a condition. *)
Definition truthy (v : option json) : bool :=
  match v with
  | None | Some JNull => false
  | Some (JBool b) => b
  | Some (JNum n) => negb (Qeq_bool n 0)
  | Some (JStr s) => negb (String.eqb s "")
  | Some (JArr _) | Some (JObj _) => true
  end.

Fixpoint assoc {V : Type} (k : string) (fs : list (string * V)) : option V :=
  match fs with
  | [] => None
  | (k', v) :: r => if String.eqb k k' then Some v else assoc k r
  end.

(** [v.k] on a value that is neither [null] nor [undefined]: an own
    property of an object, [undefined] otherwise.  An object lists each
    of its keys once ([JSON.parse] keeps the last of a repeated key). *)
Definition prop (v : json) (k : string) : option json :=
  match v with
  | JObj fs => assoc k fs
  | _ => None
  end.

(** A property the code has checked to be a string. *)
Definition string_of (v : option json) : string :=
  match v with
  | Some (JStr s) => s
  | _ => ""
  end.

(* ================================================================== *)
(** * Search hits and their metadata *)
(* ================================================================== *)

(** [QueryResult<ProductVectorMetadata>]: [id] is the record id as the
    loop keys it ([String(r.id)]); [metadata] is unchecked. *)
Record QueryResult := mkQueryResult {
  id : string;
  score : Q;
  metadata : option json
}.

(** [isProductVectorMetadata] *)
Definition isProductVectorMetadata (metadata : option json) : bool :=
  if negb (truthy metadata) || negb (js_type_eqb (typeof metadata) TObject)
  then false
  else
    match metadata with
    | None => false
    | Some m =>
        js_type_eqb (typeof (prop m "id")) TString &&
        js_type_eqb (typeof (prop m "handle")) TString &&
        js_type_eqb (typeof (prop m "title")) TString &&
        js_type_eqb (typeof (prop m "price")) TString &&
        (match prop m "imageUrl" with
         | Some JNull => true
         | v => js_type_eqb (typeof v) TString
         end) &&
        js_type_eqb (typeof (prop m "productUrl")) TString
    end.

(** [metadata.k] for the hit's metadata. *)
Definition meta (r : QueryResult) (k : string) : option json :=
  match metadata r with
  | Some m => prop m k
  | None => None
  end.

Definition price_of (r : QueryResult) : Q := parsePrice (string_of (meta r "price")).

(** The comparator of both price sorts:
    (a, b) => parsePrice(a.metadata.price) - parsePrice(b.metadata.price) *)
Definition by_price (a b : QueryResult) : Q := price_of a - price_of b.

(** [ProductCardResponse]; [tags] is present in the history variant only. *)
Record ProductCardResponse := mkCard {
  title : string;
  description : string;
  price : string;
  image : option string;
  landing_page : string;
  variantId : option json;
  tags : option json
}.

(* ================================================================== *)
(** * The intent object *)
(* ================================================================== *)

(** [geminiResult].  The fields the handler validates are typed; the
    elements of [product_types] and the whole of [attributes] are not
    validated and stay [json]. *)
Record GeminiResult := mkGeminiResult {
  ai_understanding : string;
  search_keywords : string;
  advice : string;
  requested_product_count : Q;
  product_types : list json;
  usage_instructions : option string;
  price_filter : option Q;
  sort_by_price : bool;
  vendor : string;
  attributes : option json
}.

Definition default_geminiResult : GeminiResult :=
  {| ai_understanding := "Unable to interpret query intent.";
     search_keywords := "";
     advice := "Sorry, I had trouble understanding your request.";
     requested_product_count := 1;
     product_types := [];
     usage_instructions := None;
     price_filter := None;
     sort_by_price := false;
     vendor := "";
     attributes := None |}.

Definition set_requested_product_count (n : Q) (g : GeminiResult) : GeminiResult :=
  {| ai_understanding := ai_understanding g;
     search_keywords := search_keywords g;
     advice := advice g;
     requested_product_count := n;
     product_types := product_types g;
     usage_instructions := usage_instructions g;
     price_filter := price_filter g;
     sort_by_price := sort_by_price g;
     vendor := vendor g;
     attributes := attributes g |}.

Definition set_product_types (ts : list json) (g : GeminiResult) : GeminiResult :=
  {| ai_understanding := ai_understanding g;
     search_keywords := search_keywords g;
     advice := advice g;
     requested_product_count := requested_product_count g;
     product_types := ts;
     usage_instructions := usage_instructions g;
     price_filter := price_filter g;
     sort_by_price := sort_by_price g;
     vendor := vendor g;
     attributes := attributes g |}.

(** [keywordMappings], the module-level cache; the objects are read as
    finite maps of their own properties. *)
Record KeywordMappings := mkKeywordMappings {
  typeToKeywords : gmap string string;
  synonyms : gmap string (list string);
  defaultComboTypes : list string
}.

(* ================================================================== *)
(** * External services and the handler monad *)
(* ================================================================== *)

(** A turn as it is sent to the language model. *)
Record GeminiTurn := mkGeminiTurn { role : string; content : string }.

(** The calls a handler makes to the outside. *)
Inductive event :=
| GenerateContent (query : string) (history : list GeminiTurn)
| VectorQuery (data : string) (topK : Q)
| RedisGet (key : string)
| RedisSet (key : string) (value : list json) (ex : Z).

(** What [vectorIndex.query] does on one call. *)
Inductive query_outcome :=
| QueryThrows
| QueryReturns (results : list QueryResult).

(** What [geminiModel.generateContent] followed by the extraction of the
    JSON text and [JSON.parse] does: the call (or reading the text)
    throws, or there is a text whose parse is [parsed] ([None] when
    [JSON.parse] throws). *)
Inductive generate_outcome :=
| GenerateThrows
| GenerateReturns (parsed : option json).

(** What [redis.get] does: it throws, it returns something that is not a
    non-empty string, or it returns a non-empty string whose [JSON.parse]
    is [parsed] ([None] when that throws). *)
Inductive redis_get_outcome :=
| GetThrows
| GetOther
| GetText (parsed : option json).

Record RedisClient := mkRedisClient {
  redis_get : redis_get_outcome;
  redis_set_throws : bool
}.

(** The world around one request.  [vectorIndex] and [geminiModel] are
    [None] when the client was not initialised; the index answers by the
    number of queries made before, the text and [topK], so that two calls
    with the same text may differ.  [gt_zero v] is the engine's [v > 0]
    for a value that is not a number. *)
Record Env := mkEnv {
  vectorIndex : option (nat -> string -> Q -> query_outcome);
  geminiModel : option (string -> list GeminiTurn -> generate_outcome);
  keywordMappings : KeywordMappings;
  redis : option RedisClient;
  MAX_CHAT_HISTORY : option string;
  gt_zero : option json -> bool
}.

Record state := mkState {
  searchNote : string;
  trace : list event
}.

Inductive completion (A : Type) :=
| Ok (a : A)
| Throw (message : string).
Arguments Ok {A} a.
Arguments Throw {A} message.

Definition M (A : Type) : Type := state -> completion A * state.

Definition ret {A} (a : A) : M A := fun st => (Ok a, st).

Definition throw {A} (message : string) : M A := fun st => (Throw message, st).

Definition bind {A B} (m : M A) (k : A -> M B) : M B :=
  fun st =>
    match m st with
    | (Ok a, st') => k a st'
    | (Throw e, st') => (Throw e, st')
    end.

(** try { body } catch (error) { handler(error.message) } *)
Definition try_catch {A} (body : M A) (handler : string -> M A) : M A :=
  fun st =>
    match body st with
    | (Ok a, st') => (Ok a, st')
    | (Throw e, st') => handler e st'
    end.

Definition lift {A} (r : completion A) : M A := fun st => (r, st).

Definition emit (e : event) : M unit :=
  fun st => (Ok tt, {| searchNote := searchNote st; trace := trace st ++ [e] |}).

Definition set_searchNote (note : string) : M unit :=
  fun st => (Ok tt, {| searchNote := note; trace := trace st |}).

Definition get_searchNote : M string := fun st => (Ok (searchNote st), st).

Definition get_trace : M (list event) := fun st => (Ok (trace st), st).

Declare Scope handler_scope.
Delimit Scope handler_scope with handler.
Notation "x <- m ;; k" := (bind m (fun x => k))
  (at level 100, m at next level, right associativity) : handler_scope.
Notation "m ;;; k" := (bind m (fun _ => k))
  (at level 100, right associativity) : handler_scope.

(** The pure exception monad, for callbacks that touch no state. *)
Definition rbind {A B} (r : completion A) (k : A -> completion B) : completion B :=
  match r with
  | Ok a => k a
  | Throw e => Throw e
  end.

Declare Scope completion_scope.
Delimit Scope completion_scope with completion.
Notation "x <- m ;; k" := (rbind m (fun x => k))
  (at level 100, m at next level, right associativity) : completion_scope.

(** [arr.filter(p)] for a callback that may throw. *)
Fixpoint filterM {A} (p : A -> completion bool) (l : list A) : completion (list A) :=
  match l with
  | [] => Ok []
  | x :: r =>
      (b <- p x ;;
       r' <- filterM p r ;;
       Ok (if b : bool then x :: r' else r'))%completion
  end.

(** [arr.map(f)] for a callback that may throw. *)
Fixpoint mapM {A B} (f : A -> completion B) (l : list A) : completion (list B) :=
  match l with
  | [] => Ok []
  | x :: r =>
      (y <- f x ;;
       r' <- mapM f r ;;
       Ok (y :: r'))%completion
  end.

Definition is_vector_query (e : event) : bool :=
  match e with
  | VectorQuery _ _ => true
  | _ => false
  end.

(** How many queries the index has received so far. *)
Definition queries_made (st : state) : nat :=
  length (List.filter is_vector_query (trace st)).

Definition get_queries_made : M nat := fun st => (Ok (queries_made st), st).

(** [(v ?? '')] about to receive a string method: a value that is
    neither nullish nor a string has no such method and the call throws. *)
Definition nullish_or_string (v : option json) : completion string :=
  match v with
  | None | Some JNull => Ok ""
  | Some (JStr s) => Ok s
  | Some _ => Throw "TypeError: not a function"
  end.

(** The normalised product type of a record:
    (metadata.productType ?? '').split('>').pop()?.trim().toLowerCase() || '' *)
Definition normalized_type (productType : string) : string :=
  match pop (split ">" productType) with
  | Some seg => str_or (toLowerCase (trim seg)) ""
  | None => ""
  end.

Module Filter.
(** The optional third argument of [performVectorQuery]; a field that
    is [None] is absent. *)
Record t := mk {
  productType : option string;
  tags : option string;
  vendor : option string
}.
End Filter.

(** [filter?.k] as a condition, with the value when it is truthy. *)
Definition given (v : option string) : option string :=
  match v with
  | Some s => if String.eqb s "" then None else Some s
  | None => None
  end.

(** The line feed of the template strings. *)
Definition LF : string := String (ascii_of_nat 10) EmptyString.

(** [Math.max(a, b)] *)
Definition Math_max (a b : Q) : Q := if Qle_bool a b then b else a.

(** [Math.min(a, b)] *)
Definition Math_min (a b : Q) : Q := if Qle_bool a b then a else b.

(** [n || d] on numbers: zero is falsy. *)
Definition num_or (n d : Q) : Q := if Qeq_bool n 0 then d else n.

(** [searchStageUsed] *)
Inductive SearchStage :=
| StageNone                   (* 'None' *)
| MultiTypeQuery              (* 'Multi-Type Query' *)
| AIKeywords                  (* 'AI Keywords' *)
| DirectQuery                 (* 'Direct Query' *)
| FallbackRelatedProducts.    (* 'Fallback Related Products' *)

Definition is_fallback (s : SearchStage) : bool :=
  match s with
  | FallbackRelatedProducts => true
  | _ => false
  end.

(** The locals of the handler once the matches have been processed. *)
Record MatchResult := mkMatchResult {
  topMatches : list QueryResult;
  searchStageUsed : SearchStage;
  validMatches : list QueryResult;
  finalProductCards : list ProductCardResponse
}.

(* ================================================================== *)
(** * Stage 2, as both handlers run it *)
(* ================================================================== *)

(** The property names a plain object inherits from [Object.prototype]. *)
Definition Object_prototype_names : list string :=
  ["constructor"; "__defineGetter__"; "__defineSetter__"; "hasOwnProperty";
   "__lookupGetter__"; "__lookupSetter__"; "isPrototypeOf"; "propertyIsEnumerable";
   "toString"; "valueOf"; "__proto__"; "toLocaleString"].

(** The two handlers differ in Stage 2 by the threshold, by the checks of
    the filter callback and by the [tags] property of a card; the rest of
    the text is the same and is embedded once. *)
Section Matcher.
Variable env : Env.
Variable geminiResult : GeminiResult.
Variable trimmedQuery : string.
Variable SIMILARITY_THRESHOLD : Q.
(** The filter callback after its metadata guard. *)
Variable record_checks : Filter.t -> QueryResult -> completion bool.
(** The [tags] property of a card. *)
Variable card_tags : QueryResult -> option json.

Definition requestedCount : Q :=
  Math_max 1 (num_or (requested_product_count geminiResult) 1).

Definition topK : Q := Math_max (requestedCount * 2) 10.

(** m.score >= SIMILARITY_THRESHOLD *)
Definition above_threshold (m : QueryResult) : bool :=
  Qle_bool SIMILARITY_THRESHOLD (score m).

(** m.metadata && isProductVectorMetadata(m.metadata) *)
Definition has_valid_metadata (m : QueryResult) : bool :=
  truthy (metadata m) && isProductVectorMetadata (metadata m).

(** result.metadata != null *)
Definition metadata_not_null (m : QueryResult) : bool :=
  match metadata m with
  | None | Some JNull => false
  | Some _ => true
  end.

Definition filter_callback (filter : Filter.t) (result : QueryResult) : completion bool :=
  if negb (has_valid_metadata result) then Ok false
  else record_checks filter result.

Definition query_failed_note : string :=
  LF +:+ "(Note: There was an issue searching for products.)".

Definition performVectorQuery (searchText : string) (k : Q) (filter : Filter.t)
  : M (option (list QueryResult)) :=
  match vectorIndex env with
  | None => ret None
  | Some index =>
      if is_blank searchText then ret None
      else
        try_catch
          (n <- get_queries_made ;;
           emit (VectorQuery searchText k) ;;;
           match index n searchText k with
           | QueryThrows => throw "vectorIndex.query"
           | QueryReturns [] => ret None
           | QueryReturns results =>
               filteredResults <- lift (filterM (filter_callback filter) results) ;;
               let filteredResults :=
                 if sort_by_price geminiResult
                 then sort by_price (List.filter metadata_not_null filteredResults)
                 else filteredResults in
               ret (match filteredResults with
                    | [] => None
                    | _ => Some filteredResults
                    end)
           end)%handler
          (fun _ => set_searchNote query_failed_note ;;; ret None)%handler
  end.

(** [!results || results.length === 0] *)
Definition no_results (results : option (list QueryResult)) : bool :=
  match results with
  | None | Some [] => true
  | Some _ => false
  end.

Definition vendor_filter : Filter.t :=
  Filter.mk None None (Some (vendor geminiResult)).

(** keywordMappings.typeToKeywords[productType.toLowerCase()] ||
      geminiResult.search_keywords || trimmedQuery
    The look-up finds an own property of the object or, under a name of
    [Object.prototype], the function or the object that every plain
    object inherits there; [None] is such an inherited value, which is
    truthy and not a string. *)
Definition searchKeywords_of (productType : string) : option string :=
  match typeToKeywords (keywordMappings env) !! toLowerCase productType with
  | Some mapped =>
      Some (str_or (str_or mapped (search_keywords geminiResult)) trimmedQuery)
  | None =>
      if bool_decide (toLowerCase productType ∈ Object_prototype_names) then None
      else Some (str_or (str_or "" (search_keywords geminiResult)) trimmedQuery)
  end.

(** [performVectorQuery(searchKeywords, k, filter)].  An inherited value
    passes the guard [!searchText], and [searchText.trim()] then throws,
    before the [try] of the helper; without an index client the helper
    has returned [null] before that. *)
Definition performVectorQuery_keywords (searchKeywords : option string) (k : Q)
    (filter : Filter.t) : M (option (list QueryResult)) :=
  match searchKeywords with
  | Some searchText => performVectorQuery searchText k filter
  | None =>
      match vectorIndex env with
      | None => ret None
      | Some _ => throw "TypeError: searchText.trim is not a function"
      end
  end.

(** One turn of the loop over [geminiResult.product_types]; the pair is
    [topMatches] and [usedProductIds]. *)
Definition multi_type_step (acc : list QueryResult * gset string) (productType : json)
  : M (list QueryResult * gset string) :=
  let '(topMatches, usedProductIds) := acc in
  match productType with
  | JStr productType =>
      let searchKeywords := searchKeywords_of productType in
      (results <- performVectorQuery_keywords searchKeywords topK
                    (Filter.mk (Some productType) (Some productType)
                               (Some (vendor geminiResult))) ;;
       results <- (if no_results results
                   then performVectorQuery_keywords searchKeywords topK
                          (Filter.mk None (Some productType) (Some (vendor geminiResult)))
                   else ret results) ;;
       results <- (if no_results results
                   then performVectorQuery productType topK vendor_filter
                   else ret results) ;;
       match results with
       | Some ((_ :: _) as results) =>
           let newResults :=
             List.filter (fun r => negb (bool_decide (id r ∈ usedProductIds))) results in
           ret (topMatches ++ take (if sort_by_price geminiResult then 4 else 1)%nat newResults,
                usedProductIds ∪ list_to_set (map id newResults))
       | _ => ret (topMatches, usedProductIds)
       end)%handler
  | _ => throw "TypeError: productType.toLowerCase is not a function"
  end.

Fixpoint multi_type_loop (acc : list QueryResult * gset string) (types : list json)
  : M (list QueryResult * gset string) :=
  match types with
  | [] => ret acc
  | productType :: rest =>
      (acc' <- multi_type_step acc productType ;;
       multi_type_loop acc' rest)%handler
  end.

(** topMatches.some(m => m.score >= SIMILARITY_THRESHOLD) *)
Definition some_above_threshold (topMatches : list QueryResult) : bool :=
  existsb above_threshold topMatches.

(** The branch for a request without product types. *)
Definition single_intent : M (list QueryResult * SearchStage) :=
  (found <-
     (if negb (is_blank (search_keywords geminiResult))
      then
        results <- performVectorQuery (search_keywords geminiResult) topK vendor_filter ;;
        ret (match results with
             | Some results => (results, AIKeywords)
             | None => ([], StageNone)
             end)
      else ret ([], StageNone)) ;;
   let '(topMatches, searchStageUsed) := found in
   if negb (Qle_bool requestedCount (inject_Z (Z.of_nat (length topMatches))))
      || negb (some_above_threshold topMatches)
   then
     directResults <- performVectorQuery trimmedQuery topK vendor_filter ;;
     ret (match directResults with
          | Some directResults => (directResults, DirectQuery)
          | None => (topMatches, searchStageUsed)
          end)
   else ret (topMatches, searchStageUsed))%handler.

Definition related_products_note : string :=
  LF +:+ "(Sorry, we couldn't find exact matches for your request, "
     +:+ "but here are some related products you might like.)".

Definition no_products_note : string :=
  LF +:+ "(I couldn't find specific products matching your request.)".

(** geminiResult.product_types.join(' ') || geminiResult.search_keywords || 'beauty products'
    (when this is reached every element of [product_types] is a
    string: the loop throws on any other) *)
Definition fallbackKeywords : string :=
  str_or (str_or (join " " (map (fun v => string_of (Some v)) (product_types geminiResult)))
                 (search_keywords geminiResult))
         "beauty products".

Definition fallback_search (found : list QueryResult * SearchStage)
  : M (list QueryResult * SearchStage) :=
  let '(topMatches, searchStageUsed) := found in
  if (length topMatches =? 0)%nat || negb (some_above_threshold topMatches)
  then
    (fallbackResults <- performVectorQuery fallbackKeywords topK vendor_filter ;;
     match fallbackResults with
     | Some fallbackResults =>
         set_searchNote related_products_note ;;;
         ret (fallbackResults, FallbackRelatedProducts)
     | None => ret (topMatches, searchStageUsed)
     end)%handler
  else ret (topMatches, searchStageUsed).

(** The object literal both [map] callbacks build. *)
Definition product_card (description : string) (m : QueryResult) : ProductCardResponse :=
  {| title := string_of (meta m "title");
     description := description;
     price := string_of (meta m "price");
     image := match meta m "imageUrl" with
              | Some (JStr url) => Some url
              | _ => None
              end;
     landing_page := string_of (meta m "productUrl");
     variantId := if truthy (meta m "variantId") then meta m "variantId" else meta m "id";
     tags := card_tags m |}.

(** "Process matches". *)
Definition process_matches (found : list QueryResult * SearchStage) : M MatchResult :=
  let '(topMatches, searchStageUsed) := found in
  if (0 <? length topMatches)%nat
  then
    let validMatches := slice_to requestedCount (List.filter has_valid_metadata topMatches) in
    let validMatches :=
      if sort_by_price geminiResult
      then sort by_price (List.filter metadata_not_null validMatches)
      else validMatches in
    (finalProductCards <-
       (if (0 <? length validMatches)%nat && negb (is_fallback searchStageUsed)
        then
          let cards := map (product_card "Found product related to your query.")
                           (List.filter above_threshold validMatches) in
          (if (0 <? length cards)%nat then set_searchNote "" else ret tt) ;;;
          ret cards
        else ret []) ;;
     let finalProductCards :=
       if (length finalProductCards =? 0)%nat
       then map (product_card "Related product suggestion.") validMatches
       else finalProductCards in
     ret (mkMatchResult topMatches searchStageUsed validMatches finalProductCards))%handler
  else
    (set_searchNote no_products_note ;;;
     ret (mkMatchResult topMatches searchStageUsed [] []))%handler.

(** Stage 2 from the first query to the final cards. *)
Definition vector_search : M MatchResult :=
  (found <-
     (if (0 <? length (product_types geminiResult))%nat
      then
        acc <- multi_type_loop ([], ∅) (product_types geminiResult) ;;
        ret (fst acc, MultiTypeQuery)
      else single_intent) ;;
   found <- fallback_search found ;;
   process_matches found)%handler.
End Matcher.

(* ================================================================== *)
(** * Stage 1: the intent *)
(* ================================================================== *)

Definition is_array (v : option json) : bool :=
  match v with
  | Some (JArr _) => true
  | _ => false
  end.

(** The structure test on the parsed reply. *)
Definition valid_structure (parsed : json) : bool :=
  js_type_eqb (typeof (prop parsed "ai_understanding")) TString &&
  js_type_eqb (typeof (prop parsed "search_keywords")) TString &&
  js_type_eqb (typeof (prop parsed "advice")) TString &&
  js_type_eqb (typeof (prop parsed "requested_product_count")) TNumber &&
  is_array (prop parsed "product_types") &&
  (js_type_eqb (typeof (prop parsed "usage_instructions")) TUndefined
   || js_type_eqb (typeof (prop parsed "usage_instructions")) TString) &&
  (match prop parsed "price_filter" with
   | Some JNull => true
   | v => js_type_eqb (typeof v) TNumber
   end) &&
  js_type_eqb (typeof (prop parsed "sort_by_price")) TBoolean &&
  js_type_eqb (typeof (prop parsed "vendor")) TString.

(** [geminiResult = parsed], read through the fields of the record. *)
Definition as_geminiResult (parsed : json) : GeminiResult :=
  {| ai_understanding := string_of (prop parsed "ai_understanding");
     search_keywords := string_of (prop parsed "search_keywords");
     advice := string_of (prop parsed "advice");
     requested_product_count :=
       match prop parsed "requested_product_count" with
       | Some (JNum n) => n
       | _ => 0
       end;
     product_types :=
       match prop parsed "product_types" with
       | Some (JArr items) => items
       | _ => []
       end;
     usage_instructions :=
       match prop parsed "usage_instructions" with
       | Some (JStr s) => Some s
       | _ => None
       end;
     price_filter :=
       match prop parsed "price_filter" with
       | Some (JNum n) => Some n
       | _ => None
       end;
     sort_by_price :=
       match prop parsed "sort_by_price" with
       | Some (JBool b) => b
       | _ => false
       end;
     vendor := string_of (prop parsed "vendor");
     attributes := prop parsed "attributes" |}.

(** "Adjust requested_product_count". *)
Definition adjust_requested_product_count
    (mappings : KeywordMappings) (trimmedQuery : string) (geminiResult : GeminiResult)
  : GeminiResult :=
  if (0 <? length (product_types geminiResult))%nat
  then set_requested_product_count
         (inject_Z (Z.of_nat (length (product_types geminiResult)))) geminiResult
  else if includes (toLowerCase trimmedQuery) "set" || includes (toLowerCase trimmedQuery) "combo"
  then
    let types :=
      if (0 <? length (defaultComboTypes mappings))%nat
      then map JStr (defaultComboTypes mappings)
      else [JStr "cleanser"; JStr "moisturizer"; JStr "treatment"] in
    set_requested_product_count (inject_Z (Z.of_nat (length types)))
      (set_product_types types geminiResult)
  else if includes (toLowerCase trimmedQuery) "top 4 cheapest"
  then set_requested_product_count 4 geminiResult
  else if includes (toLowerCase trimmedQuery) "list"
  then set_requested_product_count
         (Math_min (num_or (requested_product_count geminiResult) 10) 10) geminiResult
  else geminiResult.

(** Stage 1.  Every failure is caught and leaves the default intent. *)
Definition understand (env : Env) (trimmedQuery : string) (geminiHistory : list GeminiTurn)
  : M GeminiResult :=
  match geminiModel env with
  | Some model =>
      try_catch
        (emit (GenerateContent trimmedQuery (slice_from (-4) geminiHistory)) ;;;
         match model trimmedQuery (slice_from (-4) geminiHistory) with
         | GenerateThrows => throw "generateContent"
         | GenerateReturns parsed =>
             try_catch
               (match parsed with
                | None => throw "SyntaxError: JSON.parse"
                | Some JNull => throw "TypeError: Cannot read properties of null"
                | Some parsed =>
                    if valid_structure parsed
                    then ret (adjust_requested_product_count (keywordMappings env) trimmedQuery
                                (as_geminiResult parsed))
                    else ret default_geminiResult
                end)
               (fun _ => ret default_geminiResult)
         end)%handler
        (fun _ => ret default_geminiResult)
  | None => ret default_geminiResult
  end.

(* ================================================================== *)
(** * The request and the response *)
(* ================================================================== *)

(** const { query, history = [] } = body *)
Definition destructure (body : json) : completion (option json * option json) :=
  match body with
  | JNull => Throw "TypeError: Cannot destructure property 'query' of 'body' as it is null."
  | _ => Ok (prop body "query",
             match prop body "history" with
             | None => Some (JArr [])
             | h => h
             end)
  end.

(** !query || typeof query !== 'string' || query.trim().length === 0 *)
Definition invalid_query (query : option json) : bool :=
  negb (truthy query) || negb (js_type_eqb (typeof query) TString) || is_blank (string_of query).

(** The receiver of [history.filter] and [history.push]: an array, or the
    call throws. *)
Definition array_items (history : option json) : completion (list json) :=
  match history with
  | Some (JArr items) => Ok items
  | _ => Throw "TypeError: history.filter is not a function"
  end.

(** msg => msg.text && msg.text.trim().length > 0 *)
Definition has_text (msg : json) : completion bool :=
  match msg with
  | JNull => Throw "TypeError: Cannot read properties of null (reading 'text')"
  | _ =>
      if truthy (prop msg "text")
      then match prop msg "text" with
           | Some (JStr text) => Ok (negb (is_blank text))
           | _ => Throw "TypeError: msg.text.trim is not a function"
           end
      else Ok false
  end.

Definition to_gemini_turn (msg : json) : GeminiTurn :=
  {| role := match prop msg "role" with
             | Some (JStr r) =>
                 if String.eqb r "bot" || String.eqb r "model" then "assistant" else "user"
             | _ => "user"
             end;
     content := string_of (prop msg "text") |}.

(** history.filter(...).map(...) *)
Definition geminiHistory_of (history : option json) : completion (list GeminiTurn) :=
  (items <- array_items history ;;
   kept <- filterM has_text items ;;
   Ok (map to_gemini_turn kept))%completion.

(** [ChatApiResponse]; [history] is present in the history variant only
    and [product_comparison] is never set. *)
Record ChatApiResponse := mkChatApiResponse {
  res_ai_understanding : string;
  res_product_card : option ProductCardResponse;
  res_advice : string;
  res_complementary_products : option (list ProductCardResponse);
  res_history : option (list json)
}.

Inductive response_body :=
| ErrorBody (error : string)
| ChatBody (response : ChatApiResponse).

(** [NextResponse.json(body, { status })] *)
Record NextResponse := mkNextResponse {
  body : response_body;
  status : nat
}.

Definition fixed_usage_instructions : string :=
  "For skincare products: " +:+ LF +:+
  "1. Cleanse your face with a gentle cleanser and pat dry." +:+ LF +:+
  "2. Apply a small amount of the product to affected areas, "
    +:+ "once or twice daily as directed." +:+ LF +:+
  "3. Follow with a non-comedogenic moisturizer." +:+ LF +:+
  "4. Use sunscreen during the day." +:+ LF +:+
  "For makeup like lipstick: Apply evenly to lips, reapply as needed." +:+ LF +:+
  "Always patch test new products and consult a specialist if irritation occurs.".

(** const defaultUsageInstructions = geminiResult.usage_instructions || '...' *)
Definition defaultUsageInstructions (geminiResult : GeminiResult) : string :=
  match usage_instructions geminiResult with
  | Some s => str_or s fixed_usage_instructions
  | None => fixed_usage_instructions
  end.

(** "Construct Final Response". *)
Definition finalResponse (geminiResult : GeminiResult)
    (finalProductCards : list ProductCardResponse)
    (searchNote : string) (history : option (list json)) : ChatApiResponse :=
  {| res_ai_understanding := ai_understanding geminiResult;
     res_product_card :=
       match finalProductCards with
       | [card] => Some card
       | _ => None
       end;
     res_advice :=
       advice geminiResult +:+ LF +:+ LF +:+ defaultUsageInstructions geminiResult +:+ searchNote;
     res_complementary_products :=
       if (1 <? length finalProductCards)%nat then Some finalProductCards else None;
     res_history := history |}.

(** The response of the outermost [catch]. *)
Definition errorResponse (errorMessage : string) (history : option (list json)) : NextResponse :=
  {| body := ChatBody
       {| res_ai_understanding := "An error occurred.";
          res_product_card := None;
          res_advice := "Sorry, I encountered a problem processing your request. (Ref: "
                        +:+ substring0 100 errorMessage +:+ ")";
          res_complementary_products := None;
          res_history := history |};
     status := 500 |}.

Definition invalid_query_response : NextResponse :=
  {| body := ErrorBody "Invalid query provided"; status := 400 |}.

(** A handler starts with [searchNote = ''] and has called nothing. *)
Definition initial_state : state := {| searchNote := ""; trace := [] |}.

(** The cards of a response body, whichever property carries them. *)
Definition response_cards (r : ChatApiResponse) : list ProductCardResponse :=
  match res_product_card r, res_complementary_products r with
  | Some card, _ => [card]
  | None, Some cards => cards
  | None, None => []
  end.

(* ================================================================== *)
(** * The stateless handler *)
(* ================================================================== *)

Module Stateless.

Definition SIMILARITY_THRESHOLD : Q := 1.4.

(** The filter callback of [performVectorQuery] after its guard:
    [typeMatch], [tagMatch], [vendorMatch] and [priceMatch]. *)
Definition typeMatch (env : Env) (filter : Filter.t) (result : QueryResult)
  : completion bool :=
  match given (Filter.productType filter) with
  | Some productType =>
      let productTypeLower := toLowerCase productType in
      (productType' <- nullish_or_string (meta result "productType") ;;
       let metadataProductType := normalized_type productType' in
       tags' <- nullish_or_string (meta result "tags") ;;
       let metadataTags := toLowerCase tags' in
       let metadataTitle := toLowerCase (string_of (meta result "title")) in
       let synonymsForType :=
         default [] (synonyms (keywordMappings env) !! productTypeLower) in
       Ok (includes metadataProductType productTypeLower ||
           includes metadataTags productTypeLower ||
           includes metadataTitle productTypeLower ||
           existsb (fun syn =>
                      includes metadataProductType syn ||
                      includes metadataTags syn ||
                      includes metadataTitle syn)
                   synonymsForType))%completion
  | None => Ok true
  end.

Definition tagMatch (filter : Filter.t) (result : QueryResult) : completion bool :=
  match given (Filter.tags filter) with
  | Some tags =>
      let filterTagsLower := toLowerCase tags in
      (tags' <- nullish_or_string (meta result "tags") ;;
       let metadataTags := toLowerCase tags' in
       let metadataTitle := toLowerCase (string_of (meta result "title")) in
       let tagWords := split " " filterTagsLower in
       Ok (existsb (fun word => includes metadataTags word || includes metadataTitle word)
                   tagWords))%completion
  | None => Ok true
  end.

Definition vendorMatch (filter : Filter.t) (result : QueryResult) : completion bool :=
  match given (Filter.vendor filter) with
  | Some vendor =>
      let vendorLower := toLowerCase vendor in
      (vendor' <- nullish_or_string (meta result "vendor") ;;
       let metadataVendor := toLowerCase vendor' in
       Ok (String.eqb metadataVendor vendorLower))%completion
  | None => Ok true
  end.

Definition priceMatch (geminiResult : GeminiResult) (result : QueryResult) : bool :=
  match price_filter geminiResult with
  | Some max => Qle_bool (price_of result) max
  | None => true
  end.

Definition record_checks (env : Env) (geminiResult : GeminiResult)
    (filter : Filter.t) (result : QueryResult) : completion bool :=
  (typeMatch <- typeMatch env filter result ;;
   tagMatch <- tagMatch filter result ;;
   vendorMatch <- vendorMatch filter result ;;
   let priceMatch := priceMatch geminiResult result in
   Ok (typeMatch && tagMatch && vendorMatch && priceMatch))%completion.

Definition performVectorQuery (env : Env) (geminiResult : GeminiResult) :=
  performVectorQuery env geminiResult (record_checks env geminiResult).

Definition vector_search (env : Env) (geminiResult : GeminiResult) (trimmedQuery : string) :=
  vector_search env geminiResult trimmedQuery SIMILARITY_THRESHOLD
    (record_checks env geminiResult) (fun _ => None).

(** [POST]; [request_json] is what [await req.json()] does. *)
Definition POST (env : Env) (request_json : completion json) : M NextResponse :=
  try_catch
    (body <- lift request_json ;;
     fields <- lift (destructure body) ;;
     let '(query, history) := fields in
     if invalid_query query then ret invalid_query_response
     else
       let trimmedQuery := trim (string_of query) in
       geminiHistory <- lift (geminiHistory_of history) ;;
       geminiResult <- understand env trimmedQuery geminiHistory ;;
       matched <- vector_search env geminiResult trimmedQuery ;;
       searchNote <- get_searchNote ;;
       ret {| body := ChatBody (finalResponse geminiResult (finalProductCards matched)
                                              searchNote None);
              status := 200 |})%handler
    (fun errorMessage => ret (errorResponse errorMessage None)).

(** One request served from a fresh handler state. *)
Definition serve (env : Env) (request_json : completion json) : NextResponse * state :=
  match POST env request_json initial_state with
  | (Ok response, st) => (response, st)
  | (Throw errorMessage, st) => (errorResponse errorMessage None, st)
  end.

End Stateless.

(* ================================================================== *)
(** * The handler that keeps the conversation in Redis *)
(* ================================================================== *)

Module WithHistory.

Definition SIMILARITY_THRESHOLD : Q := 0.70.

Definition typeMatch (filter : Filter.t) (result : QueryResult) : completion bool :=
  match given (Filter.productType filter) with
  | Some productType =>
      let productTypeLower := toLowerCase productType in
      (productType' <- nullish_or_string (meta result "productType") ;;
       let metadataProductType := normalized_type productType' in
       Ok (includes metadataProductType productTypeLower))%completion
  | None => Ok true
  end.

(** const tagMatch = true; *)
Definition tagMatch : bool := true.

(** geminiResult.attributes && geminiResult.attributes.length > 0 *)
Definition attributes_given (env : Env) (attributes : option json) : bool :=
  truthy attributes &&
  match attributes with
  | Some (JArr items) => (0 <? length items)%nat
  | Some (JStr s) => (0 <? String.length s)%nat
  | Some (JObj fields) =>
      match assoc "length" fields with
      | None => false
      | Some (JNum n) => negb (Qle_bool n 0)
      | Some v => gt_zero env (Some v)
      end
  | _ => false
  end.

(** geminiResult.attributes.map(attr => attr.toLowerCase()) *)
Definition attributesLower (attributes : option json) : completion (list string) :=
  match attributes with
  | Some (JArr items) =>
      mapM (fun attr =>
              match attr with
              | JStr attr => Ok (toLowerCase attr)
              | _ => Throw "TypeError: attr.toLowerCase is not a function"
              end) items
  | _ => Throw "TypeError: geminiResult.attributes.map is not a function"
  end.

Definition attributeMatch (env : Env) (geminiResult : GeminiResult)
    (metadataTagsLower : string) : completion bool :=
  if attributes_given env (attributes geminiResult)
  then
    (attributesLower <- attributesLower (attributes geminiResult) ;;
     Ok (forallb (fun attr => includes metadataTagsLower attr) attributesLower))%completion
  else Ok true.

Definition vendorMatch (filter : Filter.t) (result : QueryResult) : completion bool :=
  match given (Filter.vendor filter) with
  | Some vendor =>
      let vendorLower := toLowerCase vendor in
      (vendor' <- nullish_or_string (meta result "vendor") ;;
       let metadataVendor := toLowerCase vendor' in
       Ok (String.eqb metadataVendor vendorLower))%completion
  | None => Ok true
  end.

(** geminiResult.attributes?.includes('under $20') *)
Definition attributes_include (attributes : option json) (x : string) : completion bool :=
  match attributes with
  | None | Some JNull => Ok false
  | Some (JArr items) =>
      Ok (existsb (fun v => match v with
                            | JStr s => String.eqb s x
                            | _ => false
                            end) items)
  | Some (JStr s) => Ok (includes s x)
  | Some _ => Throw "TypeError: geminiResult.attributes?.includes is not a function"
  end.

Definition priceMatch (geminiResult : GeminiResult) (result : QueryResult)
  : completion bool :=
  match price_filter geminiResult with
  | Some max => Ok (Qle_bool (price_of result) max)
  | None =>
      (under20 <- attributes_include (attributes geminiResult) "under $20" ;;
       Ok (if under20 : bool then Qle_bool (price_of result) 20 else true))%completion
  end.

(** The filter callback after its guard.  The callback also stores the
    record's tags in [geminiResult.product_tags], a property that is
    read only when the prompt is built, before any query; the store is
    left out. *)
Definition record_checks (env : Env) (geminiResult : GeminiResult)
    (filter : Filter.t) (result : QueryResult) : completion bool :=
  (typeMatch <- typeMatch filter result ;;
   tags' <- nullish_or_string (meta result "tags") ;;
   let metadataTagsLower := toLowerCase tags' in
   attributeMatch <- attributeMatch env geminiResult metadataTagsLower ;;
   vendorMatch <- vendorMatch filter result ;;
   priceMatch <- priceMatch geminiResult result ;;
   Ok (typeMatch && tagMatch && vendorMatch && priceMatch && attributeMatch))%completion.

(** tags: productData.tags || '' *)
Definition card_tags (m : QueryResult) : option json :=
  Some (if truthy (meta m "tags")
        then match meta m "tags" with
             | Some v => v
             | None => JStr ""
             end
        else JStr "").

Definition performVectorQuery (env : Env) (geminiResult : GeminiResult) :=
  performVectorQuery env geminiResult (record_checks env geminiResult).

Definition vector_search (env : Env) (geminiResult : GeminiResult) (trimmedQuery : string) :=
  vector_search env geminiResult trimmedQuery SIMILARITY_THRESHOLD
    (record_checks env geminiResult) card_tags.

(** `chat:${userId}` with the constant user id *)
Definition history_key : string := "chat:user123".

(** The retrieval of the stored history; [history] is the client's. *)
Definition stored_or_client_history (env : Env) (history : option json)
  : M (option json) :=
  match redis env with
  | Some client =>
      try_catch
        (emit (RedisGet history_key) ;;;
         match redis_get client with
         | GetThrows => throw "redis.get"
         | GetOther => ret history
         | GetText None => ret history
         | GetText (Some parsedHistory) =>
             if is_array (Some parsedHistory) then ret (Some parsedHistory) else ret history
         end)%handler
        (fun _ => ret history)
  | None => ret history
  end.

Definition user_turn (trimmedQuery : string) : json :=
  JObj [("role", JStr "user"); ("text", JStr trimmedQuery)].

Definition bot_turn (advice : string) : json :=
  JObj [("role", JStr "bot"); ("text", JStr advice)].

(** parseInt(process.env.MAX_CHAT_HISTORY || '10', 10) *)
Definition maxHistory (env : Env) : option Z :=
  parseInt (match MAX_CHAT_HISTORY env with
            | Some s => str_or s "10"
            | None => "10"
            end).

(** if (history.length > maxHistory) { history = history.slice(-maxHistory); } *)
Definition limit_history (env : Env) (history : list json) : list json :=
  match maxHistory env with
  | Some maxHistory =>
      if (maxHistory <? Z.of_nat (length history))%Z
      then slice_from (- maxHistory) history
      else history
  | None => history
  end.

(** "Store updated history in Redis"; the value is handed to
    [JSON.stringify]. *)
Definition store_history (env : Env) (history : list json) : M unit :=
  match redis env with
  | Some client =>
      try_catch
        (emit (RedisSet history_key history (60 * 60 * 24)) ;;;
         if redis_set_throws client then throw "redis.set" else ret tt)%handler
        (fun _ => ret tt)
  | None => ret tt
  end.

(** [POST].  The response holds the array [history] itself, so the two
    [push]es made after the response object is built are part of what
    is sent; the truncation rebinds the variable to a fresh array and
    touches the stored copy only. *)
Definition POST (env : Env) (request_json : completion json) : M NextResponse :=
  try_catch
    (body <- lift request_json ;;
     fields <- lift (destructure body) ;;
     let '(query, clientHistory) := fields in
     if invalid_query query then ret invalid_query_response
     else
       let trimmedQuery := trim (string_of query) in
       history <- stored_or_client_history env clientHistory ;;
       geminiHistory <- lift (geminiHistory_of history) ;;
       geminiResult <- understand env trimmedQuery geminiHistory ;;
       matched <- vector_search env geminiResult trimmedQuery ;;
       searchNote <- get_searchNote ;;
       items <- lift (array_items history) ;;
       let response := finalResponse geminiResult (finalProductCards matched) searchNote in
       let pushed := items ++ [user_turn trimmedQuery; bot_turn (res_advice (response None))] in
       store_history env (limit_history env pushed) ;;;
       ret {| body := ChatBody (response (Some pushed)); status := 200 |})%handler
    (fun errorMessage => ret (errorResponse errorMessage (Some []))).

Definition serve (env : Env) (request_json : completion json) : NextResponse * state :=
  match POST env request_json initial_state with
  | (Ok response, st) => (response, st)
  | (Throw errorMessage, st) => (errorResponse errorMessage (Some []), st)
  end.

End WithHistory.

(* ================================================================== *)
(** * The build of the keyword mappings *)
(* ================================================================== *)

(** [set.add(x)] on a [Set] of strings: a set keeps its elements in the
    order of their first insertion. *)
Definition Set_add (x : string) (s : list string) : list string :=
  if bool_decide (x ∈ s) then s else s ++ [x].

(** [new Set(arr)], read back in insertion order by a spread or by
    [Array.from]. *)
Definition new_Set (arr : list string) : list string :=
  fold_left (fun s x => Set_add x s) arr [].

(** [v ? v.split(sep) ... : ...]: the receiver of the string method when
    [v] is truthy; a truthy value that is not a string has no such
    method and the call throws. *)
Definition truthy_string (v : option json) : completion (option string) :=
  if truthy v
  then match v with
       | Some (JStr s) => Ok (Some s)
       | _ => Throw "TypeError: split is not a function"
       end
  else Ok None.

(** tags ? tags.split(',').map(t => t.trim().toLowerCase()) : [] *)
Definition tagList (tags : option string) : list string :=
  match tags with
  | Some tags => map (fun t => toLowerCase (trim t)) (split "," tags)
  | None => []
  end.

(** title ? title.toLowerCase().split(' ') : [] *)
Definition titleWords (title : string) : list string :=
  if String.eqb title "" then [] else split " " (toLowerCase title).

(** [...(synonyms[normalizedType] || [])]: an own property is an array;
    a name inherited from [Object.prototype] yields a function, or the
    prototype itself, and spreading it throws. *)
Definition spread_synonyms (synonyms : gmap string (list string)) (normalizedType : string)
  : completion (list string) :=
  match synonyms !! normalizedType with
  | Some previous => Ok previous
  | None =>
      if bool_decide (normalizedType ∈ Object_prototype_names)
      then Throw "TypeError: synonyms[normalizedType] is not iterable"
      else Ok []
  end.

(** The locals of [buildDynamicMappings] that outlive a turn of its
    loop.  [allTags] is filled and never read; of its statement only the
    exception [tags.split] may throw is kept. *)
Record MappingsBuild := mkMappingsBuild {
  build_typeToKeywords : gmap string string;
  build_synonyms : gmap string (list string);
  build_productTypes : list string
}.

(** One turn of the loop over the results. *)
Definition mappings_step (build : MappingsBuild) (result : QueryResult)
  : completion MappingsBuild :=
  if negb (has_valid_metadata result) then Ok build
  else
    (productType <- truthy_string (meta result "productType") ;;
     let normalizedType :=
       match productType with
       | Some productType => normalized_type productType
       | None => ""
       end in
     build' <-
       (if negb (String.eqb normalizedType "")
        then
          tags <- truthy_string (meta result "tags") ;;
          let title := string_of (meta result "title") in
          let keywords :=
            join " " ([normalizedType] ++ tagList tags ++ slice_to 3 (titleWords title)) in
          previous <- spread_synonyms (build_synonyms build) normalizedType ;;
          Ok {| build_typeToKeywords :=
                  <[normalizedType := keywords]> (build_typeToKeywords build);
                build_synonyms :=
                  <[normalizedType :=
                      new_Set (previous ++ tagList tags ++
                               List.filter (fun word => (3 <? String.length word)%nat)
                                           (titleWords title))]>
                    (build_synonyms build);
                build_productTypes := Set_add normalizedType (build_productTypes build) |}
        else Ok build) ;;
     _ <- truthy_string (meta result "tags") ;;
     Ok build')%completion.

(** [for (const x of arr)] with a body that may throw. *)
Fixpoint foldM {A B} (f : A -> B -> completion A) (a : A) (l : list B) : completion A :=
  match l with
  | [] => Ok a
  | x :: r => (a' <- f a x ;; foldM f a' r)%completion
  end.

(** The loop and the object assigned to [keywordMappings] after it. *)
Definition build_mappings (results : list QueryResult) : completion KeywordMappings :=
  (build <- foldM mappings_step (mkMappingsBuild ∅ ∅ []) results ;;
   Ok {| typeToKeywords := build_typeToKeywords build;
         synonyms := build_synonyms build;
         defaultComboTypes := slice_to 3 (build_productTypes build) |})%completion.

(** [buildDynamicMappings]; the value returned is that of the module
    variable [keywordMappings] when the function ends, [keywordMappings
    env] being its value before. *)
Definition buildDynamicMappings (env : Env) : M KeywordMappings :=
  match vectorIndex env with
  | None => ret (keywordMappings env)
  | Some index =>
      try_catch
        (n <- get_queries_made ;;
         emit (VectorQuery "all products" 1000%Q) ;;;
         match index n "all products" 1000%Q with
         | QueryThrows => throw "vectorIndex.query"
         | QueryReturns [] => ret (keywordMappings env)
         | QueryReturns results => lift (build_mappings results)
         end)%handler
        (fun _ => ret (keywordMappings env))
  end.

(* ================================================================== *)
(** * The JSON text in the reply of the model *)
(* ================================================================== *)

(** What follows the prefix [p] of [s], when [s] starts with [p]. *)
Fixpoint strip_prefix (p s : string) : option string :=
  match p, s with
  | EmptyString, _ => Some s
  | String a p', String b s' => if Ascii.eqb a b then strip_prefix p' s' else None
  | String _ _, EmptyString => None
  end.

(** The same under the flag [i], for a prefix in lower case. *)
Fixpoint strip_prefix_i (p s : string) : option string :=
  match p, s with
  | EmptyString, _ => Some s
  | String a p', String b s' =>
      if Ascii.eqb a (lower_char b) then strip_prefix_i p' s' else None
  | String _ _, EmptyString => None
  end.

(** What stands before the first occurrence of [sub] in [s], and what
    follows it. *)
Fixpoint cut_at (sub s : string) {struct s} : option (string * string) :=
  match strip_prefix sub s with
  | Some after => Some (EmptyString, after)
  | None =>
      match s with
      | EmptyString => None
      | String c r =>
          match cut_at sub r with
          | Some (before, after) => Some (String c before, after)
          | None => None
          end
      end
  end.

(** The three backticks of a fence. *)
Definition fence : string := "```".

(** The opening of a fenced block at the start of [s], and what follows
    it: the fence, an optional "json" in any case, a line feed. *)
Definition after_opening (s : string) : option string :=
  match strip_prefix fence s with
  | Some r =>
      match
        match strip_prefix_i "json" r with
        | Some r' => strip_prefix LF r'
        | None => None
        end
      with
      | Some rest => Some rest
      | None => strip_prefix LF r
      end
  | None => None
  end.

(** A match of /```(?:json)?\n([\s\S]*?)```/i at the start of [s]: its
    group, which runs up to the next fence. *)
Definition fenced_here (s : string) : option string :=
  match after_opening s with
  | Some rest =>
      match cut_at fence rest with
      | Some (content, _) => Some content
      | None => None
      end
  | None => None
  end.

(** The group of the leftmost match in [s]. *)
Fixpoint fenced_block (s : string) : option string :=
  match fenced_here s with
  | Some content => Some content
  | None =>
      match s with
      | EmptyString => None
      | String _ r => fenced_block r
      end
  end.

(** The longest prefix of [s] that ends with the character [c]. *)
Fixpoint upto_last (c : ascii) (s : string) : option string :=
  match s with
  | EmptyString => None
  | String d r =>
      match upto_last c r with
      | Some p => Some (String d p)
      | None => if Ascii.eqb d c then Some (String d EmptyString) else None
      end
  end.

(** The match of /{[\s\S]*}/ in [s]: from the first opening brace that a
    closing brace follows to the last closing brace. *)
Fixpoint object_span (s : string) : option string :=
  match s with
  | EmptyString => None
  | String c r =>
      if Ascii.eqb c "{"
      then match upto_last "}" r with
           | Some inner => Some (String c inner)
           | None => object_span r
           end
      else object_span r
  end.

(** [jsonString] once the two matches have been tried on the trimmed
    reply [textResponse]. *)
Definition jsonString_of (textResponse : string) : string :=
  let from_braces :=
    match object_span textResponse with
    | Some span => span
    | None => textResponse
    end in
  match fenced_block textResponse with
  | Some content => if String.eqb content "" then from_braces else trim content
  | None => from_braces
  end.

(** The text handed to [JSON.parse] for the reply [text] of the model. *)
Definition extract_json_string (text : string) : string := jsonString_of (trim text).

(* ================================================================== *)
(** * The chat widget that calls the handler *)
(* ================================================================== *)

(** [NextResponse.json(body)]: the own properties of the JSON object the
    client receives; a property whose value is [undefined] is left out. *)
Definition json_of_card (card : ProductCardResponse) : json :=
  JObj ([("title", JStr (title card));
         ("description", JStr (description card));
         ("price", JStr (price card));
         ("image", match image card with
                   | Some url => JStr url
                   | None => JNull
                   end);
         ("landing_page", JStr (landing_page card))]
        ++ match variantId card with
           | Some v => [("variantId", v)]
           | None => []
           end
        ++ match tags card with
           | Some t => [("tags", t)]
           | None => []
           end).

Definition json_of_response (r : ChatApiResponse) : list (string * json) :=
  [("ai_understanding", JStr (res_ai_understanding r))]
  ++ match res_product_card r with
     | Some card => [("product_card", json_of_card card)]
     | None => []
     end
  ++ [("advice", JStr (res_advice r))]
  ++ match res_complementary_products r with
     | Some cards => [("complementary_products", JArr (map json_of_card cards))]
     | None => []
     end
  ++ match res_history r with
     | Some history => [("history", JArr history)]
     | None => []
     end.

Definition json_of_body (b : response_body) : list (string * json) :=
  match b with
  | ErrorBody error => [("error", JStr error)]
  | ChatBody r => json_of_response r
  end.

(** A [Message] of the widget's state, by its own properties. *)
Definition Message : Type := list (string * json).

(** [{ ...fields, k: v }] *)
Fixpoint set_prop (k : string) (v : json) (fields : list (string * json))
  : list (string * json) :=
  match fields with
  | [] => [(k, v)]
  | (k', v') :: r => if String.eqb k k' then (k', v) :: r else (k', v') :: set_prop k v r
  end.

(** The messages the widget makes; [id] stands for a fresh [uuidv4()]. *)
Definition welcome_message (id welcomeMessageText : string) : Message :=
  [("id", JStr id); ("role", JStr "bot"); ("advice", JStr welcomeMessageText)].

Definition user_message (id trimmedText : string) : Message :=
  [("id", JStr id); ("role", JStr "user"); ("text", JStr trimmedText)].

Definition loading_message (id : string) : Message :=
  [("id", JStr id); ("role", JStr "bot"); ("isLoading", JBool true)].

(** { ...(data as Message), id: uuidv4(), role: 'bot' } *)
Definition bot_message (id : string) (data : list (string * json)) : Message :=
  set_prop "role" (JStr "bot") (set_prop "id" (JStr id) data).

Definition error_message (id errorMessage : string) : Message :=
  [("id", JStr id); ("role", JStr "bot"); ("isError", JBool true);
   ("text", JStr ("Sorry, something went wrong. Please try again. " +:+
                  "(" +:+ substring0 100 errorMessage +:+ ")"))].

(** messages.filter(m => !m.isLoading && !m.isError).slice(-6).map(({ ...rest }) => rest) *)
Definition historyToSend (messages : list Message) : list Message :=
  slice_from (-6)
    (List.filter (fun m => negb (truthy (assoc "isLoading" m)) &&
                           negb (truthy (assoc "isError" m))) messages).

(** The body [sendMessage] posts, as the handler reads it back with
    [req.json()]; [None] when [sendMessage] returns at once. *)
Definition request_body (messages : list Message) (isLoading : bool) (messageText : string)
  : option json :=
  let trimmedText := trim messageText in
  if String.eqb trimmedText "" || isLoading then None
  else Some (JObj [("query", JStr trimmedText);
                   ("history", JArr (map JObj (historyToSend messages)))]).

(** (data as { error: string }).error || 'API request failed' *)
Definition error_of (b : response_body) : string :=
  match b with
  | ErrorBody error => str_or error "API request failed"
  | ChatBody _ => "API request failed"
  end.

(** The message [sendMessage] puts in the place of the loading message
    once the handler has answered: the response itself when its status
    is in 200..299, the error message of the [catch] otherwise. *)
Definition reply_message (id : string) (response : NextResponse) : Message :=
  if (200 <=? status response)%nat && (status response <=? 299)%nat
  then bot_message id (json_of_body (body response))
  else error_message id (error_of (body response)).

(* ================================================================== *)
(** * The vocabulary of the statements *)
(* ================================================================== *)

(** Order by a numeric key. *)
Definition key_le {A : Type} (key : A -> Q) (a b : A) : Prop := (key a <= key b)%Q.

(** [returns m P]: from every state, a normal completion of [m] yields a
    value that satisfies [P]. *)
Definition returns {A} (m : M A) (P : A -> Prop) : Prop :=
  forall st a st', m st = (Ok a, st') -> P a.

(** [total m]: [m] completes normally from every state. *)
Definition total {A} (m : M A) : Prop :=
  forall st, exists a st', m st = (Ok a, st').

(** Predicates on Stage 2, for one request. *)
Section MatcherVocabulary.
Variable env : Env.
Variable geminiResult : GeminiResult.
Variable SIMILARITY_THRESHOLD : Q.
Variable record_checks : Filter.t -> QueryResult -> completion bool.
Variable card_tags : QueryResult -> option json.

(** A hit the filter callback has let through, under some filter. *)
Definition accepted (r : QueryResult) : Prop :=
  exists filter, filter_callback record_checks filter r = Ok true.

(** A list made of hits of one answer of the index, possibly
    rearranged and thinned out. *)
Definition drawn_from_index (l : list QueryResult) : Prop :=
  exists index n text k raw l0,
    vectorIndex env = Some index /\ index n text k = QueryReturns raw /\
    sublist l0 raw /\ l ≡ₚ l0.

(** The index lists a record at most once in an answer. *)
Definition answers_list_each_record_once : Prop :=
  forall index n text k raw,
    vectorIndex env = Some index -> index n text k = QueryReturns raw ->
    NoDup (map id raw).

(** The facts that every list returned by a query carries. *)
Definition query_answer (results : option (list QueryResult)) : Prop :=
  forall l, results = Some l -> l <> [] /\ Forall accepted l /\ drawn_from_index l.

(** What one turn of the multi-type loop does to [topMatches] and
    [usedProductIds]: the hits it appends were not claimed before, are
    claimed afterwards, and come from one answer of the index. *)
Definition step_effect (acc acc' : list QueryResult * gset string) : Prop :=
  exists selected,
    fst acc' = fst acc ++ selected /\
    snd acc ⊆ snd acc' /\
    (forall r, r ∈ selected -> (id r ∉ snd acc) /\ (id r ∈ snd acc')) /\
    Forall accepted selected /\
    (selected = [] \/ exists l, drawn_from_index l /\ sublist selected l).

(** What holds of [topMatches] and [usedProductIds] around every turn. *)
Definition loop_invariant (acc : list QueryResult * gset string) : Prop :=
  Forall accepted (fst acc) /\
  (forall r, r ∈ fst acc -> id r ∈ snd acc) /\
  (answers_list_each_record_once -> NoDup (map id (fst acc))).

(** What holds of [topMatches] from the first query to the response. *)
Definition matches_invariant (found : list QueryResult * SearchStage) : Prop :=
  Forall accepted (fst found) /\
  (answers_list_each_record_once -> NoDup (map id (fst found))).

(** The candidates with valid metadata, cut to the requested count and,
    when the intent asks for it, put in price order: [validMatches]. *)
Definition truncated_candidates (topMatches : list QueryResult) : list QueryResult :=
  let truncated :=
    slice_to (requestedCount geminiResult) (List.filter has_valid_metadata topMatches) in
  if sort_by_price geminiResult
  then sort by_price (List.filter metadata_not_null truncated)
  else truncated.

Definition found_card := product_card card_tags "Found product related to your query.".
Definition related_card := product_card card_tags "Related product suggestion.".

(** The threshold policy in the words of the specification: outside the
    fallback stage keep the candidates that reach the threshold, and when
    none does return them all; in the fallback stage return them all. *)
Definition threshold_policy (stage : SearchStage) (candidates : list QueryResult)
  : list ProductCardResponse :=
  if is_fallback stage then map related_card candidates
  else
    match List.filter (above_threshold SIMILARITY_THRESHOLD) candidates with
    | [] => map related_card candidates
    | passing => map found_card passing
    end.

(** Stage 2 as a whole: [topMatches] holds accepted hits only, and the
    cards are the policy's, computed on the truncated candidates. *)
Definition search_outcome (matched : MatchResult) : Prop :=
  matches_invariant (topMatches matched, searchStageUsed matched) /\
  validMatches matched = match topMatches matched with
                         | [] => []
                         | _ => truncated_candidates (topMatches matched)
                         end /\
  finalProductCards matched = threshold_policy (searchStageUsed matched) (validMatches matched).

End MatcherVocabulary.

(** The price [parsePrice] reads on a card. *)
Definition parsed_price (card : ProductCardResponse) : Q := parsePrice (price card).

(** A price string in which [parseFloat] finds no number once the other
    characters are stripped. *)
Definition unparsed_price (priceStr : string) : Prop :=
  parseFloat (keep_chars (fun c => is_digit c || is_dot c) priceStr) = None.

(** A query that is absent, not a string, or empty after trimming. *)
Definition query_missing_or_blank (body : json) : Prop :=
  prop body "query" = None \/
  (exists v, prop body "query" = Some v /\ typeof (Some v) <> TString) \/
  (exists s, prop body "query" = Some (JStr s) /\ trim s = "").

Definition apology_prefix : string :=
  "Sorry, I encountered a problem processing your request. (Ref: ".

(** A response that carries a non-empty advice: the final response with
    status 200, or the apology of the outermost [catch] with status 500
    and at most 100 characters of the error message. *)
Definition has_advice (response : NextResponse) : Prop :=
  exists r,
    body response = ChatBody r /\
    res_advice r <> "" /\
    (status response = 200%nat \/
     (status response = 500%nat /\
      exists errorMessage,
        res_advice r = apology_prefix +:+ substring0 100 errorMessage +:+ ")")).

(** A request whose body carries a query that is a string and is not
    blank. *)
Definition valid_request (request_json : completion json) : Prop :=
  exists body query,
    request_json = Ok body /\ prop body "query" = Some (JStr query) /\
    is_blank query = false.

(** The filters in the words of the specification. *)
Definition contains (s sub : string) : Prop := exists a b, s = a +:+ sub +:+ b.

(** The record's normalised type, or its tag string, or its title
    contains the filter string or one of the synonyms. *)
Definition type_filter_as_specified
    (filterString : string) (synonymsForType : list string)
    (normalizedType tagString title : string) : Prop :=
  exists word,
    (word = filterString \/ In word synonymsForType) /\
    (contains normalizedType word \/ contains tagString word \/ contains title word).

(** At least one token appears in the record's tags or title. *)
Definition tag_filter_as_specified (tokens : list string) (tagString title : string) : Prop :=
  exists token, In token tokens /\ (contains tagString token \/ contains title token).

(* ================================================================== *)
(** * The vocabulary of the further statements *)
(* ================================================================== *)

(** [emits m P]: from every state [m] only appends to the trace of the
    calls made, and what it appends satisfies [P], whether [m] returns or
    throws. *)
Definition emits {A} (m : M A) (P : list event -> Prop) : Prop :=
  forall st, exists evs, trace (snd (m st)) = trace st ++ evs /\ P evs.

(** A query of the configured index for [k] results, on a text that is
    not blank. *)
Definition index_query (env : Env) (k : Q) (e : event) : Prop :=
  exists index text,
    vectorIndex env = Some index /\ e = VectorQuery text k /\ is_blank text = false.

(** At most [n] events, each a query of the index for [k] results. *)
Definition index_queries (env : Env) (k : Q) (n : nat) (evs : list event) : Prop :=
  Forall (index_query env k) evs /\ (length evs <= n)%nat.

(** The number of queries Stage 2 may make for an intent. *)
Definition query_budget (geminiResult : GeminiResult) : nat :=
  match product_types geminiResult with
  | [] => 3
  | types => 3 * length types + 1
  end.

(** The filter with the vendor every call of Stage 2 passes. *)
Definition with_vendor (vendor : string) (filter : Filter.t) : Filter.t :=
  Filter.mk (Filter.productType filter) (Filter.tags filter) (Some vendor).


(** A turn as the model is shown it: the role is 'user' or 'assistant'
    and the content is not blank. *)
Definition spoken_turn (t : GeminiTurn) : Prop :=
  (role t = "user" \/ role t = "assistant") /\ is_blank (content t) = false.

(** The history a request of the history handler works with: the array
    stored in Redis when there is one, the client's otherwise. *)
Definition history_in_use (env : Env) (clientHistory : option json) : option json :=
  match redis env with
  | Some client =>
      match redis_get client with
      | GetText (Some (JArr stored)) => Some (JArr stored)
      | _ => clientHistory
      end
  | None => clientHistory
  end.

(** The call to the model, when there is a model. *)
Definition model_calls (env : Env) (trimmedQuery : string) (turns : list GeminiTurn)
  : list event :=
  match geminiModel env with
  | Some _ => [GenerateContent trimmedQuery (slice_from (-4) turns)]
  | None => []
  end.

(** The read of the stored history, when there is a Redis client. *)
Definition redis_reads (env : Env) : list event :=
  match redis env with
  | Some _ => [RedisGet WithHistory.history_key]
  | None => []
  end.

(** The write of the history, when there is a Redis client. *)
Definition redis_writes (env : Env) (history : list json) : list event :=
  match redis env with
  | Some _ => [RedisSet WithHistory.history_key history (60 * 60 * 24)]
  | None => []
  end.

(** [hoare Pre m Post]: from a state that satisfies [Pre], a normal
    completion of [m] yields a value and a state that satisfy [Post]. *)
Definition hoare {A} (Pre : state -> Prop) (m : M A) (Post : A -> state -> Prop) : Prop :=
  forall st a st', Pre st -> m st = (Ok a, st') -> Post a st'.

(** [m] keeps the property [I] of the search note. *)
Definition keeps_note {A} (I : string -> Prop) (m : M A) : Prop :=
  hoare (fun st => I (searchNote st)) m (fun _ st' => I (searchNote st')).

(** The note before the fallback search: none, or the note of a failed
    query. *)
Definition early_note (note : string) : Prop := note = "" \/ note = query_failed_note.

(** The note Stage 2 leaves for what it found. *)
Definition note_of_search (threshold : Q) (matched : MatchResult) (note : string) : Prop :=
  match topMatches matched with
  | [] => note = no_products_note
  | _ =>
      if is_fallback (searchStageUsed matched) then note = related_products_note
      else
        match List.filter (above_threshold threshold) (validMatches matched) with
        | [] => early_note note
        | _ => note = ""
        end
  end.

(** Every card carries the description [d]. *)
Definition described (d : string) (cards : list ProductCardResponse) : Prop :=
  Forall (fun card => description card = d) cards.

(** How the note at the end of the advice goes with the cards: no card
    and the note that nothing was found; related suggestions with the
    note on related products, with no note or with the note of a failed
    query; or products found, with no note. *)
Definition note_for_cards (cards : list ProductCardResponse) (note : string) : Prop :=
  (cards = [] /\ note = no_products_note) \/
  (cards <> [] /\ described "Related product suggestion." cards /\
   (note = related_products_note \/ note = "" \/ note = query_failed_note)) \/
  (cards <> [] /\ described "Found product related to your query." cards /\ note = "").

(** The advice of a final response. *)
Definition advice_with_note (geminiResult : GeminiResult) (note : string) : string :=
  advice geminiResult +:+ LF +:+ LF +:+ defaultUsageInstructions geminiResult +:+ note.

(** The response carries [cards]: under [product_card] when there is
    exactly one card, under [complementary_products] when there are more,
    and under neither property when there is none. *)
Definition carries (r : ChatApiResponse) (cards : list ProductCardResponse) : Prop :=
  match cards with
  | [] => res_product_card r = None /\ res_complementary_products r = None
  | [card] => res_product_card r = Some card /\ res_complementary_products r = None
  | _ => res_product_card r = None /\ res_complementary_products r = Some cards
  end.

(** [matched] is the result of Stage 2 for the request: of [vector_search]
    run with the trimmed query of the request on [geminiResult], the
    intent Stage 1 derives from that query and from the history
    [history_used] selects, in the state in which Stage 1 ends when it
    starts in [before]. *)
Definition stage2_of (env : Env) (request_json : completion json)
    (history_used : option json -> option json) (before : option json -> state)
    (vector_search : GeminiResult -> string -> M MatchResult)
    (geminiResult : GeminiResult) (matched : MatchResult) : Prop :=
  exists requestBody query history turns,
    request_json = Ok requestBody /\
    destructure requestBody = Ok (Some (JStr query), history) /\
    geminiHistory_of (history_used history) = Ok turns /\
    fst (understand env (trim query) turns (before history)) = Ok geminiResult /\
    fst (vector_search geminiResult (trim query)
           (snd (understand env (trim query) turns (before history))))
    = Ok matched.

(** [geminiResult] is the intent Stage 1 derives for the request, from
    the query and from the history [history_used] selects. *)
Definition intent_of (env : Env) (request_json : completion json)
    (history_used : option json -> option json) (geminiResult : GeminiResult) : Prop :=
  exists requestBody query history turns,
    request_json = Ok requestBody /\
    destructure requestBody = Ok (Some (JStr query), history) /\
    geminiHistory_of (history_used history) = Ok turns /\
    fst (understand env (trim query) turns initial_state) = Ok geminiResult.

(** The normalised type under which the build files a record; empty when
    it files the record under none. *)
Definition record_type (r : QueryResult) : string :=
  if has_valid_metadata r
  then match meta r "productType" with
       | Some (JStr productType) => normalized_type productType
       | _ => ""
       end
  else "".

(** The tags of a record, each trimmed and lower-cased. *)
Definition record_tags (r : QueryResult) : list string :=
  match meta r "tags" with
  | Some (JStr tags) => if String.eqb tags "" then [] else tagList (Some tags)
  | _ => []
  end.

(** The words of a record's lower-cased title. *)
Definition record_title_words (r : QueryResult) : list string :=
  titleWords (string_of (meta r "title")).

Definition long_words (words : list string) : list string :=
  List.filter (fun word => (3 <? String.length word)%nat) words.

(** The keywords the build derives from one record: its type, its tags
    and the first three words of its title, joined by spaces. *)
Definition record_keywords (r : QueryResult) : string :=
  join " " ([record_type r] ++ record_tags r ++ slice_to 3 (record_title_words r)).

(** The synonyms one record contributes to its type: its tags and the
    words of its title longer than three characters. *)
Definition record_synonyms (r : QueryResult) : list string :=
  record_tags r ++ long_words (record_title_words r).

(** The distinct types of a list of records, in the order of their first
    appearance. *)
Definition catalogue_types (results : list QueryResult) : list string :=
  new_Set (List.filter (fun k => negb (String.eqb k "")) (map record_type results)).

(** What the locals of the build hold once the records [done] have been
    read. *)
Definition built_from (done : list QueryResult) (build : MappingsBuild) : Prop :=
  build_productTypes build = catalogue_types done /\
  (forall k, is_Some (build_typeToKeywords build !! k) <-> k ∈ build_productTypes build) /\
  (forall k, is_Some (build_synonyms build !! k) <-> k ∈ build_productTypes build) /\
  (forall k, k ∈ build_productTypes build -> k <> "" /\ k ∉ Object_prototype_names) /\
  (forall k keywords,
     build_typeToKeywords build !! k = Some keywords ->
     exists before r after,
       done = before ++ r :: after /\ record_type r = k /\
       keywords = record_keywords r /\
       Forall (fun r' => record_type r' <> k) after) /\
  (forall k syns,
     build_synonyms build !! k = Some syns ->
     NoDup syns /\
     forall s, s ∈ syns <-> exists r, r ∈ done /\ record_type r = k /\ s ∈ record_synonyms r).

(** A record on which the loop of the build throws. *)
Definition aborts_the_build (r : QueryResult) : Prop :=
  has_valid_metadata r = true /\
  ((truthy (meta r "productType") = true /\ typeof (meta r "productType") <> TString) \/
   (truthy (meta r "tags") = true /\ typeof (meta r "tags") <> TString) \/
   record_type r = "constructor" \/ record_type r = "__proto__").

(** The character [c] occurs in [s]. *)
Fixpoint mentions (c : ascii) (s : string) : bool :=
  match s with
  | EmptyString => false
  | String d r => Ascii.eqb d c || mentions c r
  end.

(** A message as the widget makes them. *)
Inductive widget_message : Message -> Prop :=
| widget_welcome id text : widget_message (welcome_message id text)
| widget_user id text : widget_message (user_message id text)
| widget_loading id : widget_message (loading_message id)
| widget_bot id r : widget_message (bot_message id (json_of_response r))
| widget_error id text : widget_message (error_message id text).

(** What the widget shows for a response: the response itself, carried
    by a bot message, when the status is 200; one fixed error message
    when the status is 500. *)
Definition shown_for (id : string) (response : NextResponse) (shown : Message) : Prop :=
  (status response = 200%nat /\
   exists r, body response = ChatBody r /\ shown = bot_message id (json_of_response r)) \/
  (status response = 500%nat /\
   shown = error_message id "API request failed" /\
   assoc "text" shown
   = Some (JStr "Sorry, something went wrong. Please try again. (API request failed)")).

(* ================================================================== *)
(** * Records, intents and environments of the worked examples *)
(* ================================================================== *)

Definition sample_metadata (pid title price productType tags : string) : json :=
  JObj [("id", JStr pid); ("handle", JStr pid); ("title", JStr title);
        ("price", JStr price); ("imageUrl", JNull); ("productUrl", JStr ("/products/" +:+ pid));
        ("productType", JStr productType); ("tags", JStr tags)].

Definition ruby_lipstick : QueryResult :=
  mkQueryResult "1" 2.0
    (Some (sample_metadata "1" "Ruby Lipstick" "$18.00" "Makeup > Lipstick" "vegan, red")).

Definition rose_lipstick : QueryResult :=
  mkQueryResult "2" 1.5
    (Some (sample_metadata "2" "Rose Lipstick" "$9.50" "Makeup > Lipstick" "Vegan")).

Definition coral_lipstick : QueryResult :=
  mkQueryResult "3" 0.5
    (Some (sample_metadata "3" "Coral Lipstick" "N/A" "Makeup > Lipstick" "matte")).

Definition plum_lipstick : QueryResult :=
  mkQueryResult "4" 1.0
    (Some (sample_metadata "4" "Plum Lipstick" "$25.00" "Makeup > Lipstick" "vegan")).

Definition sample_catalogue : list QueryResult :=
  [ruby_lipstick; rose_lipstick; coral_lipstick; plum_lipstick].

Definition with_score (s : Q) (r : QueryResult) : QueryResult :=
  {| id := id r; score := s; metadata := metadata r |}.

(** The same four records, each with a score above both thresholds. *)
Definition well_scored_catalogue : list QueryResult :=
  map (with_score 2) sample_catalogue.

Definition no_mappings : KeywordMappings :=
  {| typeToKeywords := ∅; synonyms := ∅; defaultComboTypes := [] |}.



(** An index that answers every query with [hits], no language model and
    no Redis. *)
Definition index_only (hits : list QueryResult) : Env :=
  {| vectorIndex := Some (fun _ _ _ => QueryReturns hits);
     geminiModel := None;
     keywordMappings := no_mappings;
     redis := None;
     MAX_CHAT_HISTORY := None;
     gt_zero := fun _ => false |}.

(** An index whose first answer is [hits] and whose later answers are
    empty. *)
Definition index_once (hits : list QueryResult) : Env :=
  {| vectorIndex := Some (fun n _ _ => match n with
                                       | O => QueryReturns hits
                                       | S _ => QueryReturns []
                                       end);
     geminiModel := None;
     keywordMappings := no_mappings;
     redis := None;
     MAX_CHAT_HISTORY := None;
     gt_zero := fun _ => false |}.

(** An intent that asks for four lipsticks by price, without product
    types. *)
Definition four_by_price : GeminiResult :=
  {| ai_understanding := "The user wants inexpensive lipsticks.";
     search_keywords := "lipstick";
     advice := "Here are some lipsticks.";
     requested_product_count := 4;
     product_types := [];
     usage_instructions := None;
     price_filter := None;
     sort_by_price := true;
     vendor := "";
     attributes := None |}.

Definition rose_balm : QueryResult :=
  mkQueryResult "5" 2.0
    (Some (sample_metadata "5" "Rose Lipstick Balm" "$12.00" "Makeup > Lip" "tinted")).

Definition honey_balm : QueryResult :=
  mkQueryResult "6" 1.9
    (Some (sample_metadata "6" "Honey Lip Balm" "$7.00" "Skincare > Lip Care" "honey")).

(** An intent for one lipstick and one balm. *)
Definition lipstick_and_balm : GeminiResult :=
  {| ai_understanding := "The user wants a lipstick and a balm.";
     search_keywords := "lip";
     advice := "Here is a pair.";
     requested_product_count := 2;
     product_types := [JStr "lipstick"; JStr "balm"];
     usage_instructions := None;
     price_filter := None;
     sort_by_price := false;
     vendor := "";
     attributes := None |}.

(** The intent read from "vegan lipsticks under $20". *)
Definition vegan_under_20 : GeminiResult :=
  {| ai_understanding := "The user wants vegan lipsticks under $20.";
     search_keywords := "vegan lipstick";
     advice := "Here are vegan lipsticks under $20.";
     requested_product_count := 3;
     product_types := [];
     usage_instructions := None;
     price_filter := Some 20%Q;
     sort_by_price := false;
     vendor := "";
     attributes := Some (JArr [JStr "vegan"]) |}.

(** A lipstick whose category is just "Makeup": the type is in its tags
    and its title, not in its product type. *)
Definition velvet_lipstick : QueryResult :=
  mkQueryResult "7" 2.0
    (Some (sample_metadata "7" "Velvet Lipstick" "$10.00" "Makeup" "lipstick, matte")).

(** Every service is configured and every call to it throws. *)
Definition failing_services : Env :=
  {| vectorIndex := Some (fun _ _ _ => QueryThrows);
     geminiModel := Some (fun _ _ => GenerateThrows);
     keywordMappings := no_mappings;
     redis := Some {| redis_get := GetThrows; redis_set_throws := true |};
     MAX_CHAT_HISTORY := None;
     gt_zero := fun _ => false |}.

(** The reply of the language model the prompt asks for on
    "top 4 cheapest lipsticks". *)
Definition cheapest_lipsticks_reply : json :=
  JObj [("ai_understanding", JStr "The user wants the four cheapest lipsticks.");
        ("search_keywords", JStr "lipstick");
        ("advice", JStr "Here are our most affordable lipsticks.");
        ("requested_product_count", JNum 4);
        ("product_types", JArr [JStr "lipstick"]);
        ("price_filter", JNull);
        ("sort_by_price", JBool true);
        ("vendor", JStr "")].

Definition cheapest_lipsticks_env : Env :=
  {| vectorIndex := Some (fun _ _ _ => QueryReturns well_scored_catalogue);
     geminiModel := Some (fun _ _ => GenerateReturns (Some cheapest_lipsticks_reply));
     keywordMappings := no_mappings;
     redis := None;
     MAX_CHAT_HISTORY := None;
     gt_zero := fun _ => false |}.

Definition cheapest_lipsticks_request : completion json :=
  Ok (JObj [("query", JStr "top 4 cheapest lipsticks")]).

(** The intent the handlers derive from that reply. *)
Definition cheapest_lipsticks_intent : GeminiResult :=
  adjust_requested_product_count no_mappings "top 4 cheapest lipsticks"
    (as_geminiResult cheapest_lipsticks_reply).

Definition earlier_turns : list json :=
  [WithHistory.user_turn "hello"; WithHistory.bot_turn "Hi! How can I help?"].

(** Redis and the index work, and the maximum is configured as [max]. *)
Definition with_maximum (max : string) : Env :=
  {| vectorIndex := Some (fun _ _ _ => QueryReturns well_scored_catalogue);
     geminiModel := None;
     keywordMappings := no_mappings;
     redis := Some {| redis_get := GetOther; redis_set_throws := false |};
     MAX_CHAT_HISTORY := Some max;
     gt_zero := fun _ => false |}.

Definition request_with_history : completion json :=
  Ok (JObj [("query", JStr "a lipstick"); ("history", JArr earlier_turns)]).




(** An intent whose only price constraint is the attribute "under $20". *)
Definition tagged_under_20 : GeminiResult :=
  {| ai_understanding := "The user wants lipsticks under $20.";
     search_keywords := "lipstick";
     advice := "Here are lipsticks under $20.";
     requested_product_count := 5;
     product_types := [];
     usage_instructions := None;
     price_filter := None;
     sort_by_price := false;
     vendor := "";
     attributes := Some (JArr [JStr "under $20"]) |}.

(** Two lipsticks tagged as under $20, of which one costs more. *)
Definition bargain_catalogue : list QueryResult :=
  [mkQueryResult "1" 2.0
     (Some (sample_metadata "1" "Ruby Lipstick" "$18.00" "Makeup > Lipstick"
              "Under $20, vegan"));
   mkQueryResult "4" 2.0
     (Some (sample_metadata "4" "Plum Lipstick" "$25.00" "Makeup > Lipstick" "under $20"))].

(** A model that is configured and whose call fails. *)
Definition failing_model (hits : list QueryResult) : Env :=
  {| vectorIndex := Some (fun _ _ _ => QueryReturns hits);
     geminiModel := Some (fun _ _ => GenerateThrows);
     keywordMappings := no_mappings;
     redis := None;
     MAX_CHAT_HISTORY := None;
     gt_zero := fun _ => false |}.

(** Six turns, of which one has no text. *)
Definition six_turns : list json :=
  [WithHistory.user_turn "hello";
   WithHistory.bot_turn "Hi! How can I help?";
   WithHistory.user_turn "a lipstick";
   JObj [("role", JStr "bot"); ("advice", JStr "Here is a lipstick.")];
   WithHistory.user_turn "a cheaper one";
   JObj [("role", JStr "model"); ("text", JStr "Here is a cheaper one.")]].

Definition request_with_six_turns : completion json :=
  Ok (JObj [("query", JStr " and a balm "); ("history", JArr six_turns)]).

(** Redis holds a conversation of two turns. *)
Definition with_stored_history (stored : list json) : Env :=
  {| vectorIndex := Some (fun _ _ _ => QueryReturns well_scored_catalogue);
     geminiModel := Some (fun _ _ => GenerateThrows);
     keywordMappings := no_mappings;
     redis := Some {| redis_get := GetText (Some (JArr stored)); redis_set_throws := false |};
     MAX_CHAT_HISTORY := None;
     gt_zero := fun _ => false |}.

(** Lipsticks, balms and a lipstick filed under "Makeup". *)
Definition mixed_catalogue : list QueryResult :=
  sample_catalogue ++ [rose_balm; honey_balm; velvet_lipstick].

(** A lipstick whose tag string ends with a comma. *)
Definition comma_lipstick : QueryResult :=
  mkQueryResult "9" 2.0
    (Some (sample_metadata "9" "Satin Lipstick" "$11.00" "Makeup > Lipstick" "satin,")).

(** A record whose product type is the name of an inherited property. *)
Definition constructor_record : QueryResult :=
  mkQueryResult "10" 2.0
    (Some (sample_metadata "10" "Building Set" "$30.00" "Toys > Constructor" "blocks")).

(** An index that answers the query of the build with [hits]. *)
Definition catalogue_index (hits : list QueryResult) (current : KeywordMappings) : Env :=
  {| vectorIndex := Some (fun _ _ _ => QueryReturns hits);
     geminiModel := None;
     keywordMappings := current;
     redis := None;
     MAX_CHAT_HISTORY := None;
     gt_zero := fun _ => false |}.

(** The mappings built from the mixed catalogue. *)
Definition mixed_mappings : KeywordMappings :=
  match build_mappings mixed_catalogue with
  | Ok mappings => mappings
  | Throw _ => no_mappings
  end.

(** The mappings built from the mixed catalogue and the lipstick whose
    tag string ends with a comma. *)
Definition comma_mappings : KeywordMappings :=
  match build_mappings (mixed_catalogue ++ [comma_lipstick]) with
  | Ok mappings => mappings
  | Throw _ => no_mappings
  end.

(** A conversation in the widget: the welcome, a question, its answer,
    a failed exchange and a question that is being answered. *)
Definition widget_conversation : list Message :=
  [welcome_message "m0" "Welcome!";
   user_message "m1" "a lipstick";
   bot_message "m2"
     (json_of_response (finalResponse four_by_price [] no_products_note None));
   user_message "m3" "a cheaper one";
   error_message "m4" "API request failed";
   user_message "m5" "a balm";
   loading_message "m6"].

(** A reply of the language model that names the product type
    "Constructor", and services that give it, with and without an index
    client. *)
Definition constructor_reply : json :=
  JObj [("ai_understanding", JStr "The user wants a constructor set.");
        ("search_keywords", JStr "constructor set");
        ("advice", JStr "Here is what we have.");
        ("requested_product_count", JNum 1);
        ("product_types", JArr [JStr "Constructor"]);
        ("price_filter", JNull);
        ("sort_by_price", JBool false);
        ("vendor", JStr "")].

Definition constructor_services (index : option (nat -> string -> Q -> query_outcome))
  : Env :=
  {| vectorIndex := index;
     geminiModel := Some (fun _ _ => GenerateReturns (Some constructor_reply));
     keywordMappings := no_mappings;
     redis := None;
     MAX_CHAT_HISTORY := None;
     gt_zero := fun _ => false |}.

Definition constructor_request : completion json :=
  Ok (JObj [("query", JStr "a constructor set")]).

(* ================================================================== *)
(** * Facts about strings and prices *)
(* ================================================================== *)

Lemma prefix_true_iff (p s : string) :
  String.prefix p s = true <-> exists t, s = p +:+ t.
Proof.
  revert s; induction p as [|c p IH]; intros s.
  - split; [intros _; exists s; reflexivity | intros _; destruct s; reflexivity].
  - destruct s as [|d s]; simpl.
    + split; [discriminate | intros [t Ht]; discriminate].
    + destruct (Ascii.ascii_dec c d) as [->|Hne].
      * rewrite IH. split; intros [t Ht]; exists t; simpl in *; [subst; reflexivity|].
        injection Ht as Ht. exact Ht.
      * split; [discriminate | intros [t Ht]; simpl in Ht].
        injection Ht as Hd _. symmetry in Hd. contradiction.
Qed.

(** [includes] decides the occurrence of a contiguous substring. *)
Lemma includes_true_iff (s sub : string) :
  includes s sub = true <-> exists a b, s = a +:+ sub +:+ b.
Proof.
  induction s as [|c s IH]; cbn [includes].
  - rewrite orb_false_r, prefix_true_iff. split.
    + intros [t Ht]. exists "", t. exact Ht.
    + intros [a [b Hab]]. destruct a; [eauto | discriminate].
  - rewrite orb_true_iff, prefix_true_iff, IH. split.
    + intros [[t Ht] | [a [b Hab]]].
      * exists "", t. exact Ht.
      * exists (String c a), b. subst s. reflexivity.
    + intros [a [b Hab]]. destruct a as [|d a].
      * left. eauto.
      * right. exists a, b. change (String c s = String d (a +:+ sub +:+ b)) in Hab.
        injection Hab as _ Hab. exact Hab.
Qed.

Lemma digit_value_nonneg (c : ascii) : (0 <= digit_value c)%Z.
Proof. unfold digit_value. lia. Qed.

Lemma digits_value_from_nonneg (ds : string) (acc : Z) :
  (0 <= acc)%Z -> (0 <= digits_value_from acc ds)%Z.
Proof.
  revert acc; induction ds as [|c ds IH]; intros acc Hacc; simpl; [exact Hacc|].
  apply IH. pose proof (digit_value_nonneg c). lia.
Qed.

Lemma digits_value_nonneg (ds : string) : (0 <= digits_value ds)%Z.
Proof. apply digits_value_from_nonneg. lia. Qed.

Lemma parseFloat_nonneg (s : string) (q : Q) : parseFloat s = Some q -> (0 <= q)%Q.
Proof.
  unfold parseFloat. destruct (span_digits s) as [ip rest].
  assert (Hint : forall ds, (0 <= inject_Z (digits_value ds))%Q).
  { intros ds. unfold Qle; simpl. pose proof (digits_value_nonneg ds). lia. }
  assert (Hother : (if String.eqb ip "" then None else Some (inject_Z (digits_value ip)))
                   = Some q -> (0 <= q)%Q).
  { destruct (String.eqb ip ""); [discriminate|]. intros [= <-]. apply Hint. }
  destruct rest as [|c rest']; [exact Hother|].
  destruct (Ascii.ascii_dec c ".") as [->|Hne].
  - destruct (span_digits rest') as [fp tl].
    destruct (String.eqb ip "" && String.eqb fp ""); [discriminate|].
    intros [= <-]. unfold Qle; simpl.
    pose proof (digits_value_nonneg (ip +:+ fp)). lia.
  - destruct c as [[] [] [] [] [] [] [] []]; try exact Hother. congruence.
Qed.

(** A parsed price is never negative: the sign is among the characters
    [parsePrice] removes. *)
Lemma parsePrice_nonneg (priceStr : string) : (0 <= parsePrice priceStr)%Q.
Proof.
  unfold parsePrice.
  destruct (parseFloat _) as [q|] eqn:Hq; [|apply Qle_refl].
  destruct (Qeq_bool q 0); [apply Qle_refl|].
  exact (parseFloat_nonneg _ _ Hq).
Qed.

(** A price string in which [parseFloat] finds no number is priced 0. *)
Lemma parsePrice_unparsed (priceStr : string) :
  parseFloat (keep_chars (fun c => is_digit c || is_dot c) priceStr) = None ->
  parsePrice priceStr = 0%Q.
Proof. unfold parsePrice. intros ->. reflexivity. Qed.

(* ================================================================== *)
(** * Facts about arrays *)
(* ================================================================== *)

Lemma filter_sublist {A} (p : A -> bool) (l : list A) : sublist (List.filter p l) l.
Proof.
  induction l as [|x l IH]; simpl; [constructor|].
  destruct (p x); [apply sublist_skip | apply sublist_cons]; exact IH.
Qed.

Lemma Forall_sublist {A} (P : A -> Prop) (l1 l2 : list A) :
  sublist l1 l2 -> Forall P l2 -> Forall P l1.
Proof.
  induction 1 as [|x l1 l2 _ IH|x l1 l2 _ IH]; intros H; [constructor| |].
  - apply Forall_cons in H as [Hx H]. constructor; auto.
  - apply Forall_cons in H as [_ H]. auto.
Qed.

Lemma filter_all {A} (p : A -> bool) (l : list A) :
  Forall (fun x => p x = true) l -> List.filter p l = l.
Proof.
  induction 1 as [|x l Hx _ IH]; simpl; [reflexivity|]. rewrite Hx, IH. reflexivity.
Qed.

Lemma slice_to_take {A} (n : Q) (l : list A) :
  (1 <= n)%Q -> slice_to n l = take (Z.to_nat (Qfloor n)) l.
Proof.
  intros Hn. unfold slice_to.
  assert (H0 : Qle_bool 0 n = true).
  { apply Qle_bool_iff. apply Qle_trans with 1%Q; [discriminate | exact Hn]. }
  rewrite H0.
  assert (1 <= Qfloor n)%Z.
  { change 1%Z with (Qfloor 1). apply Qfloor_resp_le. exact Hn. }
  destruct (Z.ltb_spec (Qfloor n) 0); [lia | reflexivity].
Qed.

Lemma slice_to_sublist {A} (n : Q) (l : list A) : sublist (slice_to n l) l.
Proof.
  unfold slice_to. destruct (_ <? 0)%Z; apply sublist_take.
Qed.

Lemma slice_to_nonempty {A} (n : Q) (l : list A) :
  (1 <= n)%Q -> l <> [] -> slice_to n l <> [].
Proof.
  intros Hn Hl. rewrite slice_to_take by exact Hn.
  assert (1 <= Qfloor n)%Z.
  { change 1%Z with (Qfloor 1). apply Qfloor_resp_le. exact Hn. }
  destruct l as [|x l]; [congruence|].
  destruct (Z.to_nat (Qfloor n)) eqn:E; [lia | discriminate].
Qed.

Section SortFacts.
Context {A : Type} (cmp : A -> A -> Q).

Lemma sort_insert_perm (x : A) (l : list A) : sort_insert cmp x l ≡ₚ x :: l.
Proof.
  induction l as [|y l IH]; simpl; [reflexivity|].
  destruct (Qle_bool (cmp x y) 0); [reflexivity|].
  rewrite IH. apply Permutation_swap.
Qed.

(** Sorting rearranges: nothing is lost, added or duplicated. *)
Lemma sort_perm (l : list A) : sort cmp l ≡ₚ l.
Proof.
  induction l as [|x l IH]; simpl; [reflexivity|].
  rewrite sort_insert_perm, IH. reflexivity.
Qed.

(** A comparator that subtracts keys. *)
Variable key : A -> Q.
Hypothesis cmp_key : forall a b, cmp a b = (key a - key b)%Q.

Lemma cmp_le (a b : A) : Qle_bool (cmp a b) 0 = true <-> (key a <= key b)%Q.
Proof.
  rewrite cmp_key, Qle_bool_iff.
  destruct (key a) as [n1 d1], (key b) as [n2 d2].
  unfold Qle, Qminus, Qplus, Qopp; simpl. lia.
Qed.

Lemma sort_insert_sorted (x : A) (l : list A) :
  StronglySorted (key_le key) l -> StronglySorted (key_le key) (sort_insert cmp x l).
Proof.
  induction 1 as [|y l Hl IH Hy]; simpl.
  - constructor; constructor.
  - destruct (Qle_bool (cmp x y) 0) eqn:E.
    + apply cmp_le in E. constructor; [constructor; assumption|].
      constructor; [exact E|].
      eapply Forall_impl; [exact Hy|]. intros z Hz. unfold key_le in *.
      eapply Qle_trans; eassumption.
    + constructor; [exact IH|].
      rewrite sort_insert_perm. constructor; [|exact Hy].
      unfold key_le. apply Qlt_le_weak. apply Qnot_le_lt. intros Hle.
      apply cmp_le in Hle. congruence.
Qed.

(** Sorting by a key leaves the keys in non-decreasing order. *)
Lemma sort_sorted (l : list A) : StronglySorted (key_le key) (sort cmp l).
Proof.
  induction l as [|x l IH]; simpl; [constructor|].
  apply sort_insert_sorted. exact IH.
Qed.

Lemma sorted_sublist (l1 l2 : list A) :
  sublist l1 l2 -> StronglySorted (key_le key) l2 -> StronglySorted (key_le key) l1.
Proof.
  induction 1 as [|x l1 l2 Hsub IH|x l1 l2 Hsub IH]; intros Hs.
  - constructor.
  - apply StronglySorted_inv in Hs as [Hs Hx]. constructor; [auto|].
    eapply Forall_sublist; eassumption.
  - apply StronglySorted_inv in Hs as [Hs _]. auto.
Qed.
End SortFacts.

(* ================================================================== *)
(** * Reasoning about handlers *)
(* ================================================================== *)

Lemma returns_ret {A} (a : A) (P : A -> Prop) : P a -> returns (ret a) P.
Proof. intros H st a' st' [= <- _]. exact H. Qed.

Lemma returns_throw {A} (e : string) (P : A -> Prop) : returns (throw e) P.
Proof. intros st a st' [=]. Qed.

Lemma returns_bind {A B} (m : M A) (k : A -> M B) (P : A -> Prop) (Q : B -> Prop) :
  returns m P -> (forall a, P a -> returns (k a) Q) -> returns (bind m k) Q.
Proof.
  intros Hm Hk st b st'. unfold bind.
  destruct (m st) as [[a|e] st1] eqn:E; [|discriminate].
  intros Hb. exact (Hk a (Hm _ _ _ E) _ _ _ Hb).
Qed.

Lemma returns_try_catch {A} (body : M A) (handler : string -> M A) (P : A -> Prop) :
  returns body P -> (forall e, returns (handler e) P) -> returns (try_catch body handler) P.
Proof.
  intros Hb Hh st a st'. unfold try_catch.
  destruct (body st) as [[a'|e] st1] eqn:E.
  - intros [= <- _]. exact (Hb _ _ _ E).
  - intros H. exact (Hh e _ _ _ H).
Qed.

Lemma returns_lift {A} (r : completion A) (P : A -> Prop) :
  (forall a, r = Ok a -> P a) -> returns (lift r) P.
Proof. intros H st a st' [= -> _]. apply H. reflexivity. Qed.

Lemma returns_any {A} (m : M A) : returns m (fun _ => True).
Proof. intros st a st' _. exact I. Qed.

Lemma returns_weaken {A} (m : M A) (P Q : A -> Prop) :
  returns m P -> (forall a, P a -> Q a) -> returns m Q.
Proof. intros H HPQ st a st' E. exact (HPQ _ (H _ _ _ E)). Qed.

Lemma total_ret {A} (a : A) : total (ret a).
Proof. intros st. exists a, st. reflexivity. Qed.

Lemma total_bind {A B} (m : M A) (k : A -> M B) :
  total m -> (forall a, total (k a)) -> total (bind m k).
Proof.
  intros Hm Hk st. unfold bind. destruct (Hm st) as [a [st1 ->]]. apply Hk.
Qed.

Lemma total_try_catch {A} (body : M A) (handler : string -> M A) :
  (forall e, total (handler e)) -> total (try_catch body handler).
Proof.
  intros Hh st. unfold try_catch. destruct (body st) as [[a|e] st1]; [eauto|]. apply Hh.
Qed.

Lemma total_emit (e : event) : total (emit e).
Proof. intros st. eexists _, _. reflexivity. Qed.

Lemma total_set_searchNote (note : string) : total (set_searchNote note).
Proof. intros st. eexists _, _. reflexivity. Qed.

Lemma total_get_searchNote : total get_searchNote.
Proof. intros st. eexists _, _. reflexivity. Qed.

Create HintDb handler discriminated.
#[local] Hint Resolve returns_ret returns_throw returns_any : handler.
#[local] Hint Resolve total_ret total_emit total_set_searchNote total_get_searchNote : handler.

(** What [filterM] keeps is a sublist of what it was given, and the
    callback returned [true] on each element kept. *)
Lemma filterM_Ok {A} (p : A -> completion bool) (l l' : list A) :
  filterM p l = Ok l' -> sublist l' l /\ Forall (fun x => p x = Ok true) l'.
Proof.
  revert l'; induction l as [|x l IH]; simpl; intros l'.
  - intros [= <-]. split; constructor.
  - destruct (p x) as [b|e] eqn:Ep; simpl; [|discriminate].
    destruct (filterM p l) as [r|e] eqn:Er; simpl; [|discriminate].
    destruct (IH r eq_refl) as [Hsub Hall]. intros [= <-].
    destruct b; split.
    + apply sublist_skip. exact Hsub.
    + constructor; assumption.
    + apply sublist_cons. exact Hsub.
    + exact Hall.
Qed.

(** [filterM] drops exactly the elements on which the callback returned
    [false]. *)
Lemma filterM_all_false {A} (p : A -> completion bool) (l : list A) :
  Forall (fun x => p x = Ok false) l -> filterM p l = Ok [].
Proof.
  induction 1 as [|x l Hx _ IH]; simpl; [reflexivity|]. rewrite Hx, IH. reflexivity.
Qed.

(* ================================================================== *)
(** * Facts about Stage 2 *)
(* ================================================================== *)

Section MatcherFacts.
Variable env : Env.
Variable geminiResult : GeminiResult.
Variable trimmedQuery : string.
Variable SIMILARITY_THRESHOLD : Q.
Variable record_checks : Filter.t -> QueryResult -> completion bool.
Variable card_tags : QueryResult -> option json.

Lemma accepted_valid (r : QueryResult) :
  accepted record_checks r -> has_valid_metadata r = true.
Proof.
  intros [f Hf]. unfold filter_callback in Hf.
  destruct (has_valid_metadata r); [reflexivity | discriminate].
Qed.

Lemma valid_not_null (r : QueryResult) :
  has_valid_metadata r = true -> metadata_not_null r = true.
Proof.
  unfold has_valid_metadata, metadata_not_null.
  destruct (metadata r) as [[]|]; simpl; congruence.
Qed.

(** [performVectorQuery] catches whatever is thrown inside it. *)
Lemma performVectorQuery_total searchText k filter :
  total (performVectorQuery env geminiResult record_checks searchText k filter).
Proof.
  unfold performVectorQuery.
  destruct (vectorIndex env); [|apply total_ret].
  destruct (is_blank searchText); [apply total_ret|].
  apply total_try_catch. intros e. apply total_bind; auto with handler.
Qed.

(** What [performVectorQuery] returns, when it returns a list. *)
Lemma performVectorQuery_returns searchText k filter :
  returns (performVectorQuery env geminiResult record_checks searchText k filter)
    (fun results => forall l, results = Some l ->
       l <> [] /\
       Forall (fun r => filter_callback record_checks filter r = Ok true) l /\
       drawn_from_index env l).
Proof.
  unfold performVectorQuery.
  destruct (vectorIndex env) as [index|] eqn:Hindex;
    [|apply returns_ret; discriminate].
  destruct (is_blank searchText); [apply returns_ret; discriminate|].
  apply returns_try_catch.
  2:{ intros e. eapply returns_bind; [apply returns_any|].
      intros _ _. apply returns_ret. discriminate. }
  eapply returns_bind; [apply returns_any|]. intros n _.
  eapply returns_bind; [apply returns_any|]. intros _ _.
  destruct (index n searchText k) as [|raw] eqn:Hraw; [apply returns_throw|].
  destruct raw as [|r0 raw]; [apply returns_ret; discriminate|].
  eapply returns_bind; [apply returns_lift; intros a Ha; exact Ha|].
  intros kept Hkept. apply filterM_Ok in Hkept as [Hsub Hall].
  apply returns_ret. intros l.
  destruct (sort_by_price geminiResult).
  - pose proof (sort_perm by_price (List.filter metadata_not_null kept)) as Hperm.
    destruct (sort by_price (List.filter metadata_not_null kept)) as [|x xs] eqn:Hs;
      [discriminate|].
    intros [= <-]. split; [discriminate|]. split.
    + rewrite Hperm. eapply Forall_sublist; [apply filter_sublist | exact Hall].
    + exists index, n, searchText, k, (r0 :: raw), (List.filter metadata_not_null kept).
      repeat split; try assumption.
      etransitivity; [apply filter_sublist | exact Hsub].
  - destruct kept as [|x xs]; [discriminate|].
    intros [= <-]. split; [discriminate|]. split; [exact Hall|].
    exists index, n, searchText, k, (r0 :: raw), (x :: xs). repeat split; auto.
Qed.

(** [performVectorQuery] never returns the empty list. *)
Lemma performVectorQuery_nonempty searchText k filter :
  returns (performVectorQuery env geminiResult record_checks searchText k filter)
          (fun results => results <> Some []).
Proof.
  eapply returns_weaken; [apply performVectorQuery_returns|].
  intros results H Heq. destruct (H [] Heq) as [Hne _]. congruence.
Qed.

Lemma sublist_map {A B} (f : A -> B) (l1 l2 : list A) :
  sublist l1 l2 -> sublist (map f l1) (map f l2).
Proof.
  induction 1; simpl; [constructor | apply sublist_skip | apply sublist_cons]; assumption.
Qed.

Lemma drawn_from_index_NoDup (l : list QueryResult) :
  answers_list_each_record_once env -> drawn_from_index env l -> NoDup (map id l).
Proof.
  intros Honce (index & n & text & k & raw & l0 & Hi & Hraw & Hsub & Hperm).
  rewrite Hperm. eapply sublist_NoDup; [exact (Honce _ _ _ _ _ Hi Hraw)|].
  apply sublist_map. exact Hsub.
Qed.

Lemma query_returns_answer searchText k filter :
  returns (performVectorQuery env geminiResult record_checks searchText k filter)
          (query_answer env record_checks).
Proof.
  eapply returns_weaken; [apply performVectorQuery_returns|].
  intros results H l Hl. destruct (H l Hl) as (Hne & Hall & Hdrawn).
  repeat split; try assumption.
  eapply Forall_impl; [exact Hall|]. intros r Hr. exists filter. exact Hr.
Qed.

Lemma keywords_query_returns_answer searchKeywords k filter :
  returns (performVectorQuery_keywords env geminiResult record_checks searchKeywords k filter)
          (query_answer env record_checks).
Proof.
  destruct searchKeywords as [searchText|]; [apply query_returns_answer|].
  unfold performVectorQuery_keywords.
  destruct (vectorIndex env); [apply returns_throw|].
  apply returns_ret. intros l Hl. discriminate Hl.
Qed.

Lemma multi_type_step_returns acc productType :
  returns (multi_type_step env geminiResult trimmedQuery record_checks acc productType)
          (step_effect env record_checks acc).
Proof.
  destruct acc as [topMatches usedProductIds]. unfold multi_type_step.
  destruct productType as [| | |productType| |]; try apply returns_throw.
  eapply returns_bind; [apply keywords_query_returns_answer|]. intros results1 H1.
  eapply returns_bind with (P := (query_answer env record_checks)).
  { destruct (no_results results1);
      [apply keywords_query_returns_answer | apply returns_ret, H1]. }
  intros results2 H2.
  eapply returns_bind with (P := (query_answer env record_checks)).
  { destruct (no_results results2); [apply query_returns_answer | apply returns_ret, H2]. }
  intros results H.
  assert (Hnone : step_effect env record_checks (topMatches, usedProductIds)
                    (topMatches, usedProductIds)).
  { exists []. simpl. rewrite app_nil_r.
    split; [reflexivity|]. split; [reflexivity|].
    split; [intros r Hr; inversion Hr|]. split; [constructor | left; reflexivity]. }
  destruct results as [[|r0 results]|]; try (apply returns_ret; exact Hnone).
  destruct (H _ eq_refl) as (_ & Hall & Hdrawn).
  apply returns_ret.
  set (newResults := List.filter _ (r0 :: results)).
  set (n := if sort_by_price geminiResult then 4%nat else 1%nat).
  assert (Hsub : sublist (take n newResults) (r0 :: results)).
  { etransitivity; [apply sublist_take | apply filter_sublist]. }
  exists (take n newResults). simpl.
  split; [reflexivity|]. split; [apply union_subseteq_l|].
  split; [intros r Hr; split|split].
  - assert (Hin : r ∈ newResults) by (eapply elem_of_sublist; [eassumption | apply sublist_take]).
    apply list_elem_of_In, filter_In in Hin as [_ Hin].
    apply negb_true_iff, bool_decide_eq_false in Hin. exact Hin.
  - assert (Hin : r ∈ newResults) by (eapply elem_of_sublist; [eassumption | apply sublist_take]).
    apply elem_of_union_r, elem_of_list_to_set, list_elem_of_In, in_map.
    apply list_elem_of_In. exact Hin.
  - eapply Forall_sublist; eassumption.
  - right. exists (r0 :: results). split; assumption.
Qed.

Lemma elem_of_map_id (x : string) (l : list QueryResult) :
  x ∈ map id l -> exists r, r ∈ l /\ id r = x.
Proof.
  intros H. apply list_elem_of_In, in_map_iff in H as (r & Hr & Hin).
  exists r. split; [apply list_elem_of_In; exact Hin | exact Hr].
Qed.

Lemma step_effect_invariant acc acc' :
  loop_invariant env record_checks acc -> step_effect env record_checks acc acc' ->
  loop_invariant env record_checks acc'.
Proof.
  intros (Hacc & Hclaimed & Hnodup) (selected & Htop & Hused & Hsel & Hall & Hfrom).
  unfold loop_invariant. rewrite Htop. repeat split.
  - apply Forall_app. split; assumption.
  - intros r Hr. apply elem_of_app in Hr as [Hr|Hr].
    + apply Hused, Hclaimed, Hr.
    + apply (Hsel r Hr).
  - intros Honce. rewrite map_app. apply NoDup_app. repeat split.
    + apply Hnodup, Honce.
    + intros x Hx Hx'.
      apply elem_of_map_id in Hx as (r & Hr & <-).
      apply elem_of_map_id in Hx' as (r' & Hr' & Heq).
      destruct (Hsel r' Hr') as [Hfresh _]. apply Hfresh. rewrite Heq.
      apply Hclaimed, Hr.
    + destruct Hfrom as [->|(l & Hdrawn & Hsub)]; [constructor|].
      eapply sublist_NoDup; [apply drawn_from_index_NoDup; eassumption|].
      apply sublist_map. exact Hsub.
Qed.

Lemma multi_type_loop_returns types : forall acc,
  loop_invariant env record_checks acc ->
  returns (multi_type_loop env geminiResult trimmedQuery record_checks acc types)
          (loop_invariant env record_checks).
Proof.
  induction types as [|productType rest IH]; intros acc Hacc; simpl.
  - apply returns_ret, Hacc.
  - eapply returns_bind; [apply multi_type_step_returns|].
    intros acc' Hstep. apply IH. eapply step_effect_invariant; eassumption.
Qed.

Lemma loop_invariant_start : loop_invariant env record_checks ([], ∅).
Proof.
  repeat split; simpl; [constructor | intros r Hr; inversion Hr | intros _; constructor].
Qed.

Lemma query_answer_invariant l stage :
  query_answer env record_checks (Some l) -> matches_invariant env record_checks (l, stage).
Proof.
  intros H. destruct (H l eq_refl) as (_ & Hall & Hdrawn). split; [exact Hall|].
  intros Honce. apply drawn_from_index_NoDup; assumption.
Qed.

Lemma matches_invariant_nil stage : matches_invariant env record_checks ([], stage).
Proof. split; [constructor | intros _; constructor]. Qed.

Lemma single_intent_returns :
  returns (single_intent env geminiResult trimmedQuery SIMILARITY_THRESHOLD record_checks)
          (matches_invariant env record_checks).
Proof.
  unfold single_intent.
  eapply returns_bind with (P := (matches_invariant env record_checks)).
  { destruct (negb (is_blank (search_keywords geminiResult)));
      [|apply returns_ret, matches_invariant_nil].
    eapply returns_bind; [apply query_returns_answer|]. intros results H.
    apply returns_ret. destruct results as [l|];
      [apply query_answer_invariant, H | apply matches_invariant_nil]. }
  intros [topMatches searchStageUsed] Hfound.
  destruct (_ || _); [|apply returns_ret, Hfound].
  eapply returns_bind; [apply query_returns_answer|]. intros results H.
  apply returns_ret. destruct results as [l|];
    [apply query_answer_invariant, H | exact Hfound].
Qed.

Lemma fallback_search_returns found :
  matches_invariant env record_checks found ->
  returns (fallback_search env geminiResult SIMILARITY_THRESHOLD record_checks found)
          (matches_invariant env record_checks).
Proof.
  intros Hfound. destruct found as [topMatches searchStageUsed]. unfold fallback_search.
  destruct (_ || _); [|apply returns_ret, Hfound].
  eapply returns_bind; [apply query_returns_answer|]. intros results H.
  destruct results as [l|]; [|apply returns_ret, Hfound].
  eapply returns_bind; [apply returns_any|]. intros _ _.
  apply returns_ret, query_answer_invariant, H.
Qed.
Lemma Math_max_ge_l (a b : Q) : (a <= Math_max a b)%Q.
Proof.
  unfold Math_max. destruct (Qle_bool a b) eqn:E; [apply Qle_bool_iff, E | apply Qle_refl].
Qed.

Lemma requestedCount_ge_1 : (1 <= requestedCount geminiResult)%Q.
Proof. apply Math_max_ge_l. Qed.

(** "Process matches" computes the truncated candidates and applies the
    threshold policy to them; it cannot fail. *)
Lemma process_matches_eq topMatches stage st :
  topMatches <> [] ->
  exists st',
    process_matches geminiResult SIMILARITY_THRESHOLD card_tags (topMatches, stage) st
    = (Ok (mkMatchResult topMatches stage (truncated_candidates geminiResult topMatches)
             (threshold_policy SIMILARITY_THRESHOLD card_tags stage
                (truncated_candidates geminiResult topMatches))), st').
Proof.
  intros Hne. unfold process_matches, truncated_candidates, threshold_policy.
  destruct topMatches as [|m0 rest]; [congruence|].
  change (0 <? length (m0 :: rest))%nat with true. cbv iota zeta.
  generalize (if sort_by_price geminiResult
              then sort by_price
                     (List.filter metadata_not_null
                        (slice_to (requestedCount geminiResult)
                           (List.filter has_valid_metadata (m0 :: rest))))
              else slice_to (requestedCount geminiResult)
                     (List.filter has_valid_metadata (m0 :: rest))).
  intros validMatches. fold (found_card card_tags) (related_card card_tags).
  destruct validMatches as [|v vs].
  { simpl. destruct (is_fallback stage); eexists; reflexivity. }
  change (0 <? length (v :: vs))%nat with true.
  destruct (is_fallback stage); simpl.
  { eexists. reflexivity. }
  destruct (above_threshold SIMILARITY_THRESHOLD v); simpl.
  { eexists. reflexivity. }
  destruct (List.filter (above_threshold SIMILARITY_THRESHOLD) vs) as [|p ps];
    simpl; eexists; reflexivity.
Qed.

Lemma process_matches_empty stage st :
  exists st',
    process_matches geminiResult SIMILARITY_THRESHOLD card_tags ([], stage) st
    = (Ok (mkMatchResult [] stage [] []), st').
Proof. unfold process_matches. simpl. eexists. reflexivity. Qed.

(** What [truncated_candidates] keeps of accepted hits. *)
Lemma truncated_candidates_drawn topMatches :
  exists l0, sublist l0 topMatches /\ truncated_candidates geminiResult topMatches ≡ₚ l0.
Proof.
  unfold truncated_candidates.
  set (truncated := slice_to _ _).
  assert (Hsub : sublist truncated topMatches).
  { etransitivity; [apply slice_to_sublist | apply filter_sublist]. }
  destruct (sort_by_price geminiResult).
  - exists (List.filter metadata_not_null truncated). split.
    + etransitivity; [apply filter_sublist | exact Hsub].
    + apply (sort_perm by_price).
  - exists truncated. split; [exact Hsub | reflexivity].
Qed.

Lemma truncated_candidates_nonempty topMatches :
  Forall (accepted record_checks) topMatches -> topMatches <> [] ->
  truncated_candidates geminiResult topMatches <> [].
Proof.
  intros Hall Hne. unfold truncated_candidates.
  assert (Hvalid : Forall (fun r => has_valid_metadata r = true) topMatches).
  { eapply Forall_impl; [exact Hall|]. apply accepted_valid. }
  rewrite (filter_all _ _ Hvalid).
  assert (Hcut : slice_to (requestedCount geminiResult) topMatches <> [])
    by (apply slice_to_nonempty; [apply requestedCount_ge_1 | exact Hne]).
  destruct (sort_by_price geminiResult); [|exact Hcut].
  rewrite filter_all.
  - intros Hnil. apply Hcut. apply Permutation_nil_r.
    rewrite <- Hnil. symmetry. apply (sort_perm by_price).
  - eapply Forall_sublist; [apply slice_to_sublist|].
    eapply Forall_impl; [exact Hvalid|]. apply valid_not_null.
Qed.

Lemma truncated_candidates_sorted topMatches :
  sort_by_price geminiResult = true ->
  StronglySorted (key_le price_of) (truncated_candidates geminiResult topMatches).
Proof.
  intros Hsort. unfold truncated_candidates. rewrite Hsort.
  apply (sort_sorted by_price price_of). reflexivity.
Qed.

(** The cards of the policy are the cards of some of the candidates, in
    the candidates' order. *)
Lemma threshold_policy_cards stage candidates :
  exists description selected,
    sublist selected candidates /\
    threshold_policy SIMILARITY_THRESHOLD card_tags stage candidates
    = map (product_card card_tags description) selected.
Proof.
  unfold threshold_policy.
  destruct (is_fallback stage).
  { exists "Related product suggestion.", candidates. split; reflexivity. }
  destruct (List.filter _ candidates) as [|p ps] eqn:Hpass.
  { exists "Related product suggestion.", candidates. split; reflexivity. }
  exists "Found product related to your query.", (p :: ps). split; [|reflexivity].
  rewrite <- Hpass. apply filter_sublist.
Qed.

Lemma threshold_policy_nonempty stage candidates :
  candidates <> [] -> threshold_policy SIMILARITY_THRESHOLD card_tags stage candidates <> [].
Proof.
  intros Hne. unfold threshold_policy.
  destruct candidates as [|c cs]; [congruence|].
  destruct (is_fallback stage); [discriminate|].
  destruct (List.filter _ (c :: cs)); discriminate.
Qed.

Lemma process_matches_returns found :
  matches_invariant env record_checks found ->
  returns (process_matches geminiResult SIMILARITY_THRESHOLD card_tags found)
          (search_outcome env geminiResult SIMILARITY_THRESHOLD record_checks card_tags).
Proof.
  intros Hfound. destruct found as [topMatches stage]. intros st matched st' Hrun.
  destruct topMatches as [|m0 rest] eqn:Htop.
  - destruct (process_matches_empty stage st) as [st1 Heq].
    rewrite Heq in Hrun. injection Hrun as <- _.
    split; [exact Hfound|]. split; [reflexivity|]. simpl.
    unfold threshold_policy. destruct (is_fallback stage); reflexivity.
  - destruct (process_matches_eq (m0 :: rest) stage st) as [st1 Heq]; [discriminate|].
    rewrite Heq in Hrun. injection Hrun as <- _.
    split; [exact Hfound|]. split; reflexivity.
Qed.

Lemma vector_search_returns :
  returns (vector_search env geminiResult trimmedQuery SIMILARITY_THRESHOLD
             record_checks card_tags)
          (search_outcome env geminiResult SIMILARITY_THRESHOLD record_checks card_tags).
Proof.
  unfold vector_search.
  eapply returns_bind with (P := (matches_invariant env record_checks)).
  { destruct (0 <? length (product_types geminiResult))%nat;
      [|apply single_intent_returns].
    eapply returns_bind;
      [apply multi_type_loop_returns, loop_invariant_start|].
    intros acc (Hall & _ & Hnodup). apply returns_ret. split; assumption. }
  intros found Hfound.
  eapply returns_bind; [apply fallback_search_returns, Hfound|].
  intros found' Hfound'. apply process_matches_returns, Hfound'.
Qed.
End MatcherFacts.

(* ================================================================== *)
(** * The search helper: null or a non-empty list *)
(* ================================================================== *)

(** C10.  [performVectorQuery], in either handler (the handlers differ by
    [record_checks] only), completes normally on every search text, [topK]
    and filter, and what it returns is [null] or a non-empty list, never
    the empty list.  It returns [null] alike when the index client is not
    initialised, when the search text is blank, when the index throws,
    when the index returns no hit, when the filter callback rejects every
    hit, and when the callback throws on a hit: a stage whose filtered set
    is empty looks to its caller like a stage that found nothing. *)
Theorem performVectorQuery_null_or_nonempty :
  forall (env : Env) (geminiResult : GeminiResult)
         (record_checks : Filter.t -> QueryResult -> completion bool)
         (searchText : string) (k : Q) (filter : Filter.t) (st : state),
  exists results st',
    performVectorQuery env geminiResult record_checks searchText k filter st
      = (Ok results, st') /\
    results <> Some [] /\
    (vectorIndex env = None -> results = None) /\
    (is_blank searchText = true -> results = None) /\
    (forall index,
       vectorIndex env = Some index -> is_blank searchText = false ->
       match index (queries_made st) searchText k with
       | QueryThrows => results = None
       | QueryReturns raw =>
           (raw = [] -> results = None) /\
           (Forall (fun r => filter_callback record_checks filter r = Ok false) raw ->
            results = None) /\
           ((exists e, filterM (filter_callback record_checks filter) raw = Throw e) ->
            results = None)
       end).
Proof.
  intros env geminiResult record_checks searchText k filter st.
  destruct (performVectorQuery_total env geminiResult record_checks searchText k filter st)
    as (results & st' & Hrun).
  exists results, st'. split; [exact Hrun|]. split.
  { exact (performVectorQuery_nonempty env geminiResult record_checks _ _ _ _ _ _ Hrun). }
  unfold performVectorQuery in Hrun.
  split; [|split].
  - intros Hnone. rewrite Hnone in Hrun. injection Hrun as <- _. reflexivity.
  - intros Hblank. destruct (vectorIndex env); rewrite ?Hblank in Hrun;
      injection Hrun as <- _; reflexivity.
  - intros index Hindex Hblank. rewrite Hindex, Hblank in Hrun.
    unfold try_catch, bind, get_queries_made, emit in Hrun. simpl in Hrun.
    destruct (index (queries_made st) searchText k) as [|raw] eqn:Hraw; simpl in Hrun.
    + injection Hrun as <- _. reflexivity.
    + split; [|split].
      * intros ->. injection Hrun as <- _. reflexivity.
      * intros Hall. destruct raw as [|r0 raw]; [injection Hrun as <- _; reflexivity|].
        unfold lift in Hrun. rewrite (filterM_all_false _ _ Hall) in Hrun.
        simpl in Hrun. destruct (sort_by_price geminiResult);
          simpl in Hrun; injection Hrun as <- _; reflexivity.
      * intros [e He]. destruct raw as [|r0 raw]; [discriminate|].
        unfold lift in Hrun. rewrite He in Hrun. simpl in Hrun.
        injection Hrun as <- _. reflexivity.
Qed.

(* ================================================================== *)
(** * The threshold policy of the final selection *)
(* ================================================================== *)

Lemma vector_search_outcome env geminiResult trimmedQuery threshold record_checks card_tags
    st matched st' :
  vector_search env geminiResult trimmedQuery threshold record_checks card_tags st
    = (Ok matched, st') ->
  search_outcome env geminiResult threshold record_checks card_tags matched.
Proof. intros Hrun. exact (vector_search_returns _ _ _ _ _ _ _ _ _ Hrun). Qed.

Lemma search_outcome_candidates env geminiResult threshold record_checks card_tags matched :
  search_outcome env geminiResult threshold record_checks card_tags matched ->
  topMatches matched <> [] ->
  validMatches matched = truncated_candidates geminiResult (topMatches matched) /\
  validMatches matched <> [].
Proof.
  intros ((Hall & _) & Hvalid & _) Hne. simpl in Hall.
  assert (Heq : validMatches matched = truncated_candidates geminiResult (topMatches matched)).
  { rewrite Hvalid. destruct (topMatches matched); [congruence | reflexivity]. }
  split; [exact Heq|]. rewrite Heq.
  eapply truncated_candidates_nonempty; eassumption.
Qed.

(** C1.  In either handler, when Stage 2 ends with a non-empty
    [topMatches]: the candidates are [topMatches] cut to the requested
    count (price-sorted when asked); outside the fallback stage the cards
    are those of the candidates whose score reaches the threshold, and
    the cards of all the candidates when none reaches it; in the fallback
    stage the cards are those of all the candidates whatever their score;
    so the card list is empty only if there is no candidate after
    truncation (and there always is one). *)
Theorem final_cards_follow_threshold_policy :
  forall (env : Env) (geminiResult : GeminiResult) (trimmedQuery : string)
         (threshold : Q) (record_checks : Filter.t -> QueryResult -> completion bool)
         (card_tags : QueryResult -> option json)
         (st : state) (matched : MatchResult) (st' : state),
    vector_search env geminiResult trimmedQuery threshold record_checks card_tags st
      = (Ok matched, st') ->
    topMatches matched <> [] ->
    let candidates := validMatches matched in
    let passing := List.filter (above_threshold threshold) candidates in
    candidates = truncated_candidates geminiResult (topMatches matched) /\
    (searchStageUsed matched <> FallbackRelatedProducts ->
       (passing <> [] -> finalProductCards matched = map (found_card card_tags) passing) /\
       (passing = [] -> finalProductCards matched = map (related_card card_tags) candidates)) /\
    (searchStageUsed matched = FallbackRelatedProducts ->
       finalProductCards matched = map (related_card card_tags) candidates) /\
    (finalProductCards matched = [] -> candidates = []) /\
    finalProductCards matched <> [].
Proof.
  intros env geminiResult trimmedQuery threshold record_checks card_tags st matched st'
         Hrun Hne candidates passing.
  pose proof (vector_search_outcome _ _ _ _ _ _ _ _ _ Hrun) as Hout.
  destruct (search_outcome_candidates _ _ _ _ _ _ Hout Hne) as [Hcand Hsome].
  destruct Hout as (_ & _ & Hcards). fold candidates in Hcards, Hsome.
  assert (Hfinal : finalProductCards matched <> []).
  { rewrite Hcards. apply threshold_policy_nonempty, Hsome. }
  split; [exact Hcand|]. unfold threshold_policy in Hcards. fold passing in Hcards.
  split; [|split; [|split]].
  - intros Hstage.
    assert (Hfb : is_fallback (searchStageUsed matched) = false)
      by (destruct (searchStageUsed matched); [reflexivity.. | congruence]).
    rewrite Hfb in Hcards. split.
    + intros Hpass. rewrite Hcards. destruct passing; [congruence | reflexivity].
    + intros Hpass. rewrite Hcards, Hpass. reflexivity.
  - intros Hstage. rewrite Hstage in Hcards. exact Hcards.
  - intros Hnil. contradiction.
  - exact Hfinal.
Qed.

(** With two hits under the threshold and an empty fallback answer, the
    stateless handler stays in the direct-query stage and returns the
    truncated candidate as a related product. *)
Lemma final_cards_follow_threshold_policy_witness :
  exists matched st',
    Stateless.vector_search (index_once [coral_lipstick; plum_lipstick])
      default_geminiResult "lipstick" initial_state = (Ok matched, st') /\
    topMatches matched <> [] /\
    searchStageUsed matched = DirectQuery /\
    List.filter (above_threshold Stateless.SIMILARITY_THRESHOLD) (validMatches matched) = [] /\
    finalProductCards matched = map (related_card (fun _ => None)) (validMatches matched) /\
    finalProductCards matched <> [].
Proof.
  eexists _, _. split; [vm_compute; reflexivity|].
  assert (Hne : [coral_lipstick; plum_lipstick] <> []) by discriminate.
  split; [exact Hne|]. split; [reflexivity|]. split; [reflexivity|].
  pose proof (final_cards_follow_threshold_policy
                (index_once [coral_lipstick; plum_lipstick]) default_geminiResult "lipstick"
                Stateless.SIMILARITY_THRESHOLD
                (Stateless.record_checks (index_once [coral_lipstick; plum_lipstick])
                   default_geminiResult)
                (fun _ => None) initial_state _ _ eq_refl Hne) as H.
  cbv zeta in H. destruct H as (_ & Hstage & _ & _ & Hsome).
  split; [|exact Hsome].
  apply Hstage; [discriminate | reflexivity].
Defined.

(* ================================================================== *)
(** * Price order of the cards *)
(* ================================================================== *)

Lemma StronglySorted_map {A B} (R : B -> B -> Prop) (f : A -> B) (l : list A) :
  StronglySorted (fun a b => R (f a) (f b)) l -> StronglySorted R (map f l).
Proof.
  induction 1 as [|x l _ IH Hx]; simpl; constructor; [exact IH|].
  apply Forall_forall. intros y Hy.
  apply list_elem_of_In, in_map_iff in Hy as (z & <- & Hz).
  rewrite Forall_forall in Hx. apply Hx, list_elem_of_In, Hz.
Qed.

Lemma StronglySorted_lookup {A} (R : A -> A -> Prop) (l : list A) :
  StronglySorted R l ->
  forall i j a b, l !! i = Some a -> l !! j = Some b -> (i < j)%nat -> R a b.
Proof.
  induction 1 as [|x l _ IH Hx]; intros i j a b Hi Hj Hlt.
  - rewrite lookup_nil in Hi. discriminate.
  - destruct j as [|j]; [lia|]. simpl in Hj.
    destruct i as [|i]; simpl in Hi.
    + injection Hi as <-. rewrite Forall_forall in Hx.
      apply Hx. eapply list_elem_of_lookup_2. exact Hj.
    + eapply IH; [exact Hi | exact Hj | lia].
Qed.

(** C5.  In either handler, when [sort_by_price] is set the parsed prices
    of the cards are in non-decreasing order.  No parsed price is
    negative and a price string that does not parse is priced 0, so
    whatever stands before a card with such a price is priced 0 too: the
    unparsed prices come first. *)
Theorem price_sort_orders_the_cards :
  forall (env : Env) (geminiResult : GeminiResult) (trimmedQuery : string)
         (threshold : Q) (record_checks : Filter.t -> QueryResult -> completion bool)
         (card_tags : QueryResult -> option json)
         (st : state) (matched : MatchResult) (st' : state),
    sort_by_price geminiResult = true ->
    vector_search env geminiResult trimmedQuery threshold record_checks card_tags st
      = (Ok matched, st') ->
    StronglySorted (fun a b => (parsed_price a <= parsed_price b)%Q)
                   (finalProductCards matched) /\
    (forall priceStr, unparsed_price priceStr -> parsePrice priceStr = 0%Q) /\
    (forall i j earlier later,
       finalProductCards matched !! i = Some earlier ->
       finalProductCards matched !! j = Some later ->
       (i < j)%nat ->
       unparsed_price (price later) ->
       (parsed_price earlier == 0)%Q).
Proof.
  intros env geminiResult trimmedQuery threshold record_checks card_tags st matched st'
         Hsort Hrun.
  destruct (vector_search_outcome _ _ _ _ _ _ _ _ _ Hrun) as (_ & Hvalid & Hcards).
  assert (Hsorted : StronglySorted (fun a b => (parsed_price a <= parsed_price b)%Q)
                                   (finalProductCards matched)).
  { rewrite Hcards.
    destruct (threshold_policy_cards threshold card_tags (searchStageUsed matched)
                (validMatches matched)) as (description & selected & Hsub & ->).
    apply StronglySorted_map.
    change (StronglySorted (key_le price_of) selected).
    eapply (sorted_sublist price_of); [exact Hsub|]. rewrite Hvalid.
    destruct (topMatches matched); [constructor|].
    apply truncated_candidates_sorted, Hsort. }
  split; [exact Hsorted|]. split; [exact parsePrice_unparsed|].
  intros i j earlier later Hi Hj Hlt Hbad.
  pose proof (StronglySorted_lookup _ _ Hsorted i j earlier later Hi Hj Hlt) as Hle.
  unfold parsed_price in *. rewrite (parsePrice_unparsed _ Hbad) in Hle.
  apply Qle_antisym; [exact Hle | apply parsePrice_nonneg].
Qed.

(** The four lipsticks asked for by price: the one whose price reads
    "N/A" comes first, then the prices ascend. *)
Lemma price_sort_orders_the_cards_witness :
  exists matched st',
    sort_by_price four_by_price = true /\
    Stateless.vector_search (index_only well_scored_catalogue) four_by_price "lipsticks"
      initial_state = (Ok matched, st') /\
    map price (finalProductCards matched) = ["N/A"; "$9.50"; "$18.00"; "$25.00"] /\
    StronglySorted (fun a b => (parsed_price a <= parsed_price b)%Q)
                   (finalProductCards matched).
Proof.
  eexists _, _. split; [reflexivity|].
  split; [vm_compute; reflexivity|]. split; [reflexivity|].
  exact (proj1 (price_sort_orders_the_cards (index_only well_scored_catalogue)
                  four_by_price "lipsticks" Stateless.SIMILARITY_THRESHOLD
                  (Stateless.record_checks (index_only well_scored_catalogue) four_by_price)
                  (fun _ => None) initial_state _ _ eq_refl eq_refl)).
Defined.

(* ================================================================== *)
(** * No record twice in a multi-type result *)
(* ================================================================== *)

Lemma NoDup_map_sublist {A B} (f : A -> B) (l1 l2 : list A) :
  sublist l1 l2 -> NoDup (map f l2) -> NoDup (map f l1).
Proof. intros Hsub Hnd. eapply sublist_NoDup; [exact Hnd | apply sublist_map, Hsub]. Qed.

Lemma NoDup_map_perm {A B} (f : A -> B) (l1 l2 : list A) :
  l1 ≡ₚ l2 -> NoDup (map f l2) -> NoDup (map f l1).
Proof. intros Hperm Hnd. rewrite Hperm. exact Hnd. Qed.

(** C4.  In either handler: (1) a turn of the loop over the product types
    appends only hits whose id is not yet in [usedProductIds], and puts
    their ids there; (2) the ids of everything appended so far are in
    [usedProductIds], so a later turn skips them; (3) for a request with
    product types, when no answer of the index lists a record twice, no
    two hits of [topMatches], no two of the truncated candidates and no
    two of the hits behind the cards share an id. *)
Theorem multi_type_results_have_distinct_ids :
  forall (env : Env) (geminiResult : GeminiResult) (trimmedQuery : string)
         (threshold : Q) (record_checks : Filter.t -> QueryResult -> completion bool)
         (card_tags : QueryResult -> option json),
    (forall acc productType st acc' st',
       multi_type_step env geminiResult trimmedQuery record_checks acc productType st
         = (Ok acc', st') ->
       exists selected,
         fst acc' = fst acc ++ selected /\
         snd acc ⊆ snd acc' /\
         forall r, r ∈ selected -> (id r ∉ snd acc) /\ (id r ∈ snd acc')) /\
    (forall types st acc st',
       multi_type_loop env geminiResult trimmedQuery record_checks ([], ∅) types st
         = (Ok acc, st') ->
       forall r, r ∈ fst acc -> id r ∈ snd acc) /\
    (forall st matched st',
       product_types geminiResult <> [] ->
       answers_list_each_record_once env ->
       vector_search env geminiResult trimmedQuery threshold record_checks card_tags st
         = (Ok matched, st') ->
       NoDup (map id (topMatches matched)) /\
       NoDup (map id (validMatches matched)) /\
       exists description selected,
         sublist selected (validMatches matched) /\
         finalProductCards matched = map (product_card card_tags description) selected /\
         NoDup (map id selected)).
Proof.
  intros env geminiResult trimmedQuery threshold record_checks card_tags.
  split; [|split].
  - intros acc productType st acc' st' Hrun.
    destruct (multi_type_step_returns env geminiResult trimmedQuery record_checks
                acc productType _ _ _ Hrun)
      as (selected & Htop & Hused & Hsel & _).
    exists selected. auto.
  - intros types st acc st' Hrun.
    destruct (multi_type_loop_returns env geminiResult trimmedQuery record_checks
                types ([], ∅) (loop_invariant_start env record_checks) _ _ _ Hrun)
      as (_ & Hclaimed & _).
    exact Hclaimed.
  - intros st matched st' _ Honce Hrun.
    destruct (vector_search_outcome _ _ _ _ _ _ _ _ _ Hrun)
      as ((_ & Hnodup) & Hvalid & Hcards).
    simpl in Hnodup. specialize (Hnodup Honce).
    assert (Hvalid' : NoDup (map id (validMatches matched))).
    { rewrite Hvalid. destruct (topMatches matched) as [|m0 rest] eqn:Htop; [constructor|].
      destruct (truncated_candidates_drawn geminiResult (m0 :: rest)) as (l0 & Hsub & Hperm).
      eapply NoDup_map_perm; [exact Hperm|].
      eapply NoDup_map_sublist; eassumption. }
    split; [exact Hnodup|]. split; [exact Hvalid'|].
    destruct (threshold_policy_cards threshold card_tags (searchStageUsed matched)
                (validMatches matched)) as (description & selected & Hsub & Heq).
    exists description, selected. split; [exact Hsub|]. split; [congruence|].
    eapply NoDup_map_sublist; eassumption.
Qed.

(** The index returns the same three records for both types.  The record
    with id 5 fits both types and heads both filtered answers: the first
    turn takes it, the second skips it and takes the record with id 6. *)
Lemma multi_type_results_have_distinct_ids_witness :
  exists matched st',
    product_types lipstick_and_balm <> [] /\
    answers_list_each_record_once (index_only [rose_balm; ruby_lipstick; honey_balm]) /\
    Stateless.vector_search (index_only [rose_balm; ruby_lipstick; honey_balm])
      lipstick_and_balm "a lipstick and a balm" initial_state = (Ok matched, st') /\
    map id (topMatches matched) = ["5"; "6"] /\
    NoDup (map id (topMatches matched)).
Proof.
  assert (Honce : answers_list_each_record_once
                    (index_only [rose_balm; ruby_lipstick; honey_balm])).
  { intros index n text k raw [= <-] [= <-].
    apply (bool_decide_unpack _). vm_compute. reflexivity. }
  assert (Htypes : product_types lipstick_and_balm <> []) by discriminate.
  eexists _, _. split; [exact Htypes|]. split; [exact Honce|].
  split; [vm_compute; reflexivity|]. split; [reflexivity|].
  exact (proj1 (proj2 (proj2 (multi_type_results_have_distinct_ids
                  (index_only [rose_balm; ruby_lipstick; honey_balm])
                  lipstick_and_balm "a lipstick and a balm" Stateless.SIMILARITY_THRESHOLD
                  (Stateless.record_checks (index_only [rose_balm; ruby_lipstick; honey_balm])
                     lipstick_and_balm)
                  (fun _ => None))) initial_state _ _ Htypes Honce eq_refl)).
Defined.

(* ================================================================== *)
(** * Attribute and price constraints in the history handler *)
(* ================================================================== *)

(** Every card is the card of an accepted hit. *)
Lemma cards_of_accepted_hits env geminiResult threshold record_checks card_tags matched :
  search_outcome env geminiResult threshold record_checks card_tags matched ->
  forall card, card ∈ finalProductCards matched ->
  exists description m,
    accepted record_checks m /\ card = product_card card_tags description m.
Proof.
  intros ((Hall & _) & Hvalid & Hcards) card Hcard. simpl in Hall.
  destruct (threshold_policy_cards threshold card_tags (searchStageUsed matched)
              (validMatches matched)) as (description & selected & Hsub & Heq).
  rewrite Hcards, Heq in Hcard.
  apply list_elem_of_In, in_map_iff in Hcard as (m & <- & Hm).
  exists description, m. split; [|reflexivity].
  assert (Hvalid_all : Forall (accepted record_checks) (validMatches matched)).
  { rewrite Hvalid. destruct (topMatches matched) as [|m0 rest]; [constructor|].
    destruct (truncated_candidates_drawn geminiResult (m0 :: rest)) as (l0 & Hsub0 & Hperm).
    rewrite Hperm. eapply Forall_sublist; eassumption. }
  rewrite Forall_forall in Hvalid_all. apply Hvalid_all.
  eapply elem_of_sublist; [apply list_elem_of_In, Hm | exact Hsub].
Qed.

Lemma mapM_Ok {A B} (f : A -> completion B) (l : list A) (l' : list B) :
  mapM f l = Ok l' -> forall a, a ∈ l -> exists b, f a = Ok b /\ b ∈ l'.
Proof.
  revert l'; induction l as [|x l IH]; simpl; intros l' H a Ha; [inversion Ha|].
  destruct (f x) as [y|e] eqn:Ey; simpl in H; [|discriminate].
  destruct (mapM f l) as [r|e] eqn:Er; simpl in H; [|discriminate].
  injection H as <-. apply elem_of_cons in Ha as [->|Ha].
  - exists y. split; [exact Ey | left].
  - destruct (IH r eq_refl a Ha) as (b & Hb & Hin). exists b. split; [exact Hb | right; exact Hin].
Qed.

(** What the filter callback of the history handler guarantees of a hit
    it lets through. *)
Lemma record_checks_price_and_attributes env geminiResult filter r :
  WithHistory.record_checks env geminiResult filter r = Ok true ->
  (forall max, price_filter geminiResult = Some max -> (price_of r <= max)%Q) /\
  (forall items, attributes geminiResult = Some (JArr items) ->
     forall a, a ∈ items ->
     exists attr t,
       a = JStr attr /\ nullish_or_string (meta r "tags") = Ok t /\
       includes (toLowerCase t) (toLowerCase attr) = true).
Proof.
  unfold WithHistory.record_checks.
  destruct (WithHistory.typeMatch filter r) as [b1|]; simpl; [|discriminate].
  destruct (nullish_or_string (meta r "tags")) as [t|] eqn:Htags; simpl; [|discriminate].
  destruct (WithHistory.attributeMatch env geminiResult (toLowerCase t)) as [b2|] eqn:Hattr;
    simpl; [|discriminate].
  destruct (WithHistory.vendorMatch filter r) as [b3|]; simpl; [|discriminate].
  destruct (WithHistory.priceMatch geminiResult r) as [b4|] eqn:Hprice; simpl; [|discriminate].
  intros [= Hall]. repeat rewrite andb_true_iff in Hall.
  destruct Hall as ((((_ & _) & _) & ->) & ->). split.
  - intros max Hmax. unfold WithHistory.priceMatch in Hprice. rewrite Hmax in Hprice.
    injection Hprice as Hle. apply Qle_bool_iff, Hle.
  - intros items Hitems a Ha. unfold WithHistory.attributeMatch in Hattr.
    rewrite Hitems in Hattr.
    destruct items as [|i0 items]; [inversion Ha|].
    change (WithHistory.attributes_given env (Some (JArr (i0 :: items)))) with true in Hattr.
    cbv iota in Hattr. unfold WithHistory.attributesLower in Hattr.
    destruct (@mapM json string _ (i0 :: items)) as [lowered|] eqn:Hmap;
      [|discriminate].
    cbn [rbind] in Hattr. injection Hattr as Hforall.
    destruct (mapM_Ok _ _ _ Hmap a Ha) as (attrLower & Hattr & Hin).
    destruct a as [| | |attr| |]; try discriminate. injection Hattr as <-.
    exists attr, t. split; [reflexivity|]. split; [reflexivity|].
    rewrite forallb_forall in Hforall. apply Hforall, list_elem_of_In, Hin.
Qed.

(** In the history handler a card's [tags] are the record's tag string. *)
Lemma card_tags_of_record r t :
  nullish_or_string (meta r "tags") = Ok t -> WithHistory.card_tags r = Some (JStr t).
Proof.
  unfold WithHistory.card_tags.
  destruct (meta r "tags") as [[| | |s| |]|]; simpl; try discriminate;
    try (intros [= <-]; reflexivity).
  intros [= <-]. destruct (String.eqb_spec s ""); simpl; [subst|]; reflexivity.
Qed.

(** C7.  In the history handler every card returned satisfies the price
    ceiling and all the attributes of the intent: its parsed price is at
    most [price_filter], and for an [attributes] array every element is a
    string whose lower-cased form occurs in the card's lower-cased tag
    string.  For attributes ["vegan"] and a ceiling of 20: every card is
    priced at most 20 and its tags contain "vegan". *)
Theorem cards_meet_attributes_and_price_ceiling :
  forall (env : Env) (geminiResult : GeminiResult) (trimmedQuery : string)
         (st : state) (matched : MatchResult) (st' : state),
    WithHistory.vector_search env geminiResult trimmedQuery st = (Ok matched, st') ->
    forall card, card ∈ finalProductCards matched ->
      (forall max, price_filter geminiResult = Some max -> (parsed_price card <= max)%Q) /\
      (forall items, attributes geminiResult = Some (JArr items) ->
         forall a, a ∈ items ->
         exists attr t,
           a = JStr attr /\ tags card = Some (JStr t) /\
           includes (toLowerCase t) (toLowerCase attr) = true) /\
      (price_filter geminiResult = Some 20%Q ->
       attributes geminiResult = Some (JArr [JStr "vegan"]) ->
       (parsed_price card <= 20)%Q /\
       exists t, tags card = Some (JStr t) /\ includes (toLowerCase t) "vegan" = true).
Proof.
  intros env geminiResult trimmedQuery st matched st' Hrun card Hcard.
  pose proof (vector_search_outcome _ _ _ _ _ _ _ _ _ Hrun) as Hout.
  destruct (cards_of_accepted_hits _ _ _ _ _ _ Hout card Hcard)
    as (description & m & [filter Hm] & ->).
  unfold filter_callback in Hm. destruct (negb (has_valid_metadata m)); [discriminate|].
  destruct (record_checks_price_and_attributes _ _ _ _ Hm) as [Hprice Hattrs].
  assert (Hgeneral :
    forall items, attributes geminiResult = Some (JArr items) ->
    forall a, a ∈ items ->
    exists attr t,
      a = JStr attr /\
      tags (product_card WithHistory.card_tags description m) = Some (JStr t) /\
      includes (toLowerCase t) (toLowerCase attr) = true).
  { intros items Hitems a Ha.
    destruct (Hattrs items Hitems a Ha) as (attr & t & -> & Ht & Hincl).
    exists attr, t. split; [reflexivity|]. split; [|exact Hincl].
    simpl. apply card_tags_of_record, Ht. }
  split; [exact Hprice|]. split; [exact Hgeneral|].
  intros Hceiling Hvegan. split; [apply Hprice, Hceiling|].
  destruct (Hgeneral _ Hvegan (JStr "vegan")) as (attr & t & [= <-] & Ht & Hincl); [left|].
  exists t. split; assumption.
Qed.

(** Of the four lipsticks only the two that are tagged vegan and cost at
    most 20 come back. *)
Lemma cards_meet_attributes_and_price_ceiling_witness :
  exists matched st',
    WithHistory.vector_search (index_only well_scored_catalogue) vegan_under_20
      "vegan lipsticks under $20" initial_state = (Ok matched, st') /\
    map title (finalProductCards matched) = ["Ruby Lipstick"; "Rose Lipstick"] /\
    forall card, card ∈ finalProductCards matched ->
      (parsed_price card <= 20)%Q /\
      exists t, tags card = Some (JStr t) /\ includes (toLowerCase t) "vegan" = true.
Proof.
  eexists _, _. split; [vm_compute; reflexivity|]. split; [reflexivity|].
  intros card Hcard.
  exact (proj2 (proj2 (cards_meet_attributes_and_price_ceiling
                  (index_only well_scored_catalogue) vegan_under_20
                  "vegan lipsticks under $20" initial_state _ _ eq_refl card Hcard))
           eq_refl eq_refl).
Defined.

(* ================================================================== *)
(** * Rejection of an invalid query *)
(* ================================================================== *)

Lemma destructure_not_null (body : json) :
  body <> JNull ->
  destructure body = Ok (prop body "query",
                         match prop body "history" with
                         | None => Some (JArr [])
                         | h => h
                         end).
Proof. destruct body; try reflexivity. congruence. Qed.




(** C8 as stated fails for the body [null].  Its query is missing, yet
    the destructuring throws before the validation is reached, and both
    handlers answer with status 500 and the apology of the outermost
    [catch] in [advice], not with an error string and status 400.  A
    body that [req.json()] cannot read is answered in the same way. *)
Lemma null_body_is_answered_with_the_apology :
  query_missing_or_blank JNull /\
  Stateless.serve (index_only sample_catalogue) (Ok JNull)
  = (errorResponse
       "TypeError: Cannot destructure property 'query' of 'body' as it is null." None,
     initial_state) /\
  WithHistory.serve (index_only sample_catalogue) (Ok JNull)
  = (errorResponse
       "TypeError: Cannot destructure property 'query' of 'body' as it is null." (Some []),
     initial_state) /\
  status (fst (Stateless.serve (index_only sample_catalogue) (Ok JNull))) = 500%nat /\
  body (fst (Stateless.serve (index_only sample_catalogue) (Ok JNull)))
  = ChatBody
      {| res_ai_understanding := "An error occurred.";
         res_product_card := None;
         res_advice :=
           "Sorry, I encountered a problem processing your request. (Ref: TypeError: "
           +:+ "Cannot destructure property 'query' of 'body' as it is null.)";
         res_complementary_products := None;
         res_history := None |} /\
  Stateless.serve (index_only sample_catalogue)
    (Throw "SyntaxError: Unexpected end of JSON input")
  = (errorResponse "SyntaxError: Unexpected end of JSON input" None, initial_state).
Proof. split; [left; reflexivity|]. repeat split; reflexivity. Qed.

(* ================================================================== *)
(** * The advice is never empty *)
(* ================================================================== *)

Lemma append_nonempty_r (a b : string) : b <> "" -> a +:+ b <> "".
Proof. destruct a; [auto | discriminate]. Qed.

Lemma append_nonempty_l (a b : string) : a <> "" -> a +:+ b <> "".
Proof. destruct a; [congruence | discriminate]. Qed.

Lemma finalResponse_advice geminiResult cards note history :
  res_advice (finalResponse geminiResult cards note history) <> "".
Proof. simpl. apply append_nonempty_r. discriminate. Qed.

Lemma errorResponse_has_advice errorMessage history :
  has_advice (errorResponse errorMessage history).
Proof.
  eexists. split; [reflexivity|]. split; [discriminate|].
  right. split; [reflexivity|]. exists errorMessage. reflexivity.
Qed.

Lemma final_has_advice geminiResult cards note history :
  has_advice {| body := ChatBody (finalResponse geminiResult cards note history);
                status := 200 |}.
Proof.
  eexists. split; [reflexivity|]. split; [apply finalResponse_advice|]. left. reflexivity.
Qed.

Lemma valid_request_query body query :
  prop body "query" = Some (JStr query) -> is_blank query = false ->
  body <> JNull /\ invalid_query (prop body "query") = false.
Proof.
  intros Hq Hblank. split; [intros ->; discriminate|].
  rewrite Hq. unfold invalid_query. simpl. rewrite Hblank.
  destruct (String.eqb_spec query ""); [subst; discriminate | reflexivity].
Qed.

Lemma stateless_POST_returns env request_json :
  valid_request request_json -> returns (Stateless.POST env request_json) has_advice.
Proof.
  intros (body & query & -> & Hq & Hblank).
  destruct (valid_request_query _ _ Hq Hblank) as [Hnull Hinv].
  unfold Stateless.POST. apply returns_try_catch;
    [|intros e; apply returns_ret, errorResponse_has_advice].
  eapply returns_bind; [apply returns_lift; intros a Ha; exact Ha|].
  intros a [= <-].
  eapply returns_bind; [apply returns_lift; intros a Ha; exact Ha|].
  intros fields Hf. rewrite (destructure_not_null _ Hnull) in Hf. injection Hf as <-.
  rewrite Hinv.
  eapply returns_bind; [apply returns_any|]. intros geminiHistory _.
  eapply returns_bind; [apply returns_any|]. intros geminiResult _.
  eapply returns_bind; [apply returns_any|]. intros matched _.
  eapply returns_bind; [apply returns_any|]. intros note _.
  apply returns_ret, final_has_advice.
Qed.

Lemma history_POST_returns env request_json :
  valid_request request_json -> returns (WithHistory.POST env request_json) has_advice.
Proof.
  intros (body & query & -> & Hq & Hblank).
  destruct (valid_request_query _ _ Hq Hblank) as [Hnull Hinv].
  unfold WithHistory.POST. apply returns_try_catch;
    [|intros e; apply returns_ret, errorResponse_has_advice].
  eapply returns_bind; [apply returns_lift; intros a Ha; exact Ha|].
  intros a [= <-].
  eapply returns_bind; [apply returns_lift; intros a Ha; exact Ha|].
  intros fields Hf. rewrite (destructure_not_null _ Hnull) in Hf. injection Hf as <-.
  rewrite Hinv.
  eapply returns_bind; [apply returns_any|]. intros history _.
  eapply returns_bind; [apply returns_any|]. intros geminiHistory _.
  eapply returns_bind; [apply returns_any|]. intros geminiResult _.
  eapply returns_bind; [apply returns_any|]. intros matched _.
  eapply returns_bind; [apply returns_any|]. intros note _.
  eapply returns_bind; [apply returns_any|]. intros items _.
  eapply returns_bind; [apply returns_any|]. intros _ _.
  apply returns_ret, final_has_advice.
Qed.

(** C3.  For every valid request and whatever the language model, the
    index and Redis do (answer, fail or be absent), both handlers answer
    with a body that carries a non-empty [advice]: the final response
    (status 200), or, when something is thrown up to the outermost
    [catch], the apology with at most 100 characters of the error message
    (status 500). *)
Theorem advice_is_never_empty :
  forall (env : Env) (request_json : completion json),
    valid_request request_json ->
    has_advice (fst (Stateless.serve env request_json)) /\
    has_advice (fst (WithHistory.serve env request_json)).
Proof.
  intros env request_json Hvalid. split.
  - unfold Stateless.serve.
    destruct (Stateless.POST env request_json initial_state) as [[response|e] st] eqn:Hrun.
    + exact (stateless_POST_returns env request_json Hvalid _ _ _ Hrun).
    + apply errorResponse_has_advice.
  - unfold WithHistory.serve.
    destruct (WithHistory.POST env request_json initial_state) as [[response|e] st] eqn:Hrun.
    + exact (history_POST_returns env request_json Hvalid _ _ _ Hrun).
    + apply errorResponse_has_advice.
Qed.

(** With every service failing the history handler still answers 200 with
    an advice; with a [history] that is [null] the stateless handler ends
    in its outermost [catch] and answers 500 with the apology. *)
Lemma advice_is_never_empty_witness :
  (valid_request (Ok (JObj [("query", JStr "hi")])) /\
   has_advice (fst (WithHistory.serve failing_services (Ok (JObj [("query", JStr "hi")])))) /\
   status (fst (WithHistory.serve failing_services (Ok (JObj [("query", JStr "hi")]))))
     = 200%nat) /\
  (valid_request (Ok (JObj [("query", JStr "hi"); ("history", JNull)])) /\
   has_advice (fst (Stateless.serve failing_services
                      (Ok (JObj [("query", JStr "hi"); ("history", JNull)])))) /\
   status (fst (Stateless.serve failing_services
                  (Ok (JObj [("query", JStr "hi"); ("history", JNull)]))))
     = 500%nat).
Proof.
  assert (V1 : valid_request (Ok (JObj [("query", JStr "hi")]))).
  { exists (JObj [("query", JStr "hi")]), "hi". repeat split; reflexivity. }
  assert (V2 : valid_request (Ok (JObj [("query", JStr "hi"); ("history", JNull)]))).
  { exists (JObj [("query", JStr "hi"); ("history", JNull)]), "hi". repeat split; reflexivity. }
  split.
  - split; [exact V1|]. split; [|reflexivity].
    exact (proj2 (advice_is_never_empty failing_services _ V1)).
  - split; [exact V2|]. split; [|reflexivity].
    exact (proj1 (advice_is_never_empty failing_services _ V2)).
Defined.

(* ================================================================== *)
(** * The requested count of a "top 4 cheapest" request with a type *)
(* ================================================================== *)

(** C2, evaluated.  On "top 4 cheapest lipsticks" with a reply that is
    valid, asks for 4 products, sets [sort_by_price] and names the type
    "lipstick", the adjustment takes its first branch and sets the
    requested count to the number of types, 1; the branch that sets it to
    4 for "top 4 cheapest" is not reached.  The loop collects four
    lipsticks for the type, the truncation to the requested count keeps
    one, and both handlers answer with a single card. *)
Theorem top_4_cheapest_lipsticks_yields_one_card :
  let geminiResult := cheapest_lipsticks_intent in
  valid_structure cheapest_lipsticks_reply = true /\
  product_types geminiResult = [JStr "lipstick"] /\
  sort_by_price geminiResult = true /\
  (requested_product_count geminiResult == 1)%Q /\
  (requestedCount geminiResult == 1)%Q /\
  (exists matched st',
     Stateless.vector_search cheapest_lipsticks_env geminiResult "top 4 cheapest lipsticks"
       initial_state = (Ok matched, st') /\
     length (topMatches matched) = 4%nat /\
     length (finalProductCards matched) = 1%nat) /\
  (exists r,
     body (fst (Stateless.serve cheapest_lipsticks_env cheapest_lipsticks_request))
       = ChatBody r /\
     map title (response_cards r) = ["Coral Lipstick"]) /\
  (exists r,
     body (fst (WithHistory.serve cheapest_lipsticks_env cheapest_lipsticks_request))
       = ChatBody r /\
     map title (response_cards r) = ["Coral Lipstick"]).
Proof.
  cbv zeta. split; [reflexivity|]. split; [reflexivity|]. split; [reflexivity|].
  split; [reflexivity|]. split; [reflexivity|]. split; [|split].
  - eexists _, _. split; [vm_compute; reflexivity|]. split; reflexivity.
  - eexists. split; [vm_compute; reflexivity|]. reflexivity.
  - eexists. split; [vm_compute; reflexivity|]. reflexivity.
Qed.

(* ================================================================== *)
(** * The cap on the stored conversation *)
(* ================================================================== *)

Lemma bind_Ok {A B} (m : M A) (k : A -> M B) st b st' :
  bind m k st = (Ok b, st') ->
  exists a st1, m st = (Ok a, st1) /\ k a st1 = (Ok b, st').
Proof.
  unfold bind. destruct (m st) as [[a|e] st1]; [|discriminate].
  intros H. exists a, st1. split; [reflexivity | exact H].
Qed.

Lemma limit_history_positive env history m :
  WithHistory.maxHistory env = Some m -> (1 <= m)%Z ->
  WithHistory.limit_history env history
    = drop (length history - Z.to_nat m) history /\
  (Z.of_nat (length (WithHistory.limit_history env history)) <= m)%Z.
Proof.
  intros Hm Hpos. unfold WithHistory.limit_history. rewrite Hm.
  destruct (Z.ltb_spec m (Z.of_nat (length history))) as [Hlt|Hge].
  - unfold slice_from. destruct (Z.ltb_spec (- m) 0) as [_|]; [|lia].
    replace (Z.to_nat (Z.of_nat (length history) + - m))
      with (length history - Z.to_nat m)%nat by lia.
    split; [reflexivity|]. rewrite length_drop. lia.
  - replace (length history - Z.to_nat m)%nat with 0%nat by lia.
    split; [reflexivity | lia].
Qed.

(** With a client, [store_history] ends with the call to [redis.set],
    whether the call throws or not. *)
Lemma store_history_trace env client history st u st' :
  redis env = Some client ->
  WithHistory.store_history env history st = (Ok u, st') ->
  trace st' = trace st ++ [RedisSet WithHistory.history_key history 86400].
Proof.
  intros Hclient. unfold WithHistory.store_history. rewrite Hclient.
  unfold try_catch, bind, emit, throw, ret. simpl.
  destruct (redis_set_throws client); intros [= _ <-]; reflexivity.
Qed.

(** What a response with status 200 of the history handler says of the
    conversation: the response carries the history with the two new
    turns, and what is handed to Redis is that history after the limit. *)
Lemma history_POST_stores env request_json response st st' :
  WithHistory.POST env request_json st = (Ok response, st') ->
  status response = 200%nat ->
  exists r items query,
    body response = ChatBody r /\
    res_history r
      = Some (items ++ [WithHistory.user_turn query; WithHistory.bot_turn (res_advice r)]) /\
    forall client, redis env = Some client ->
      last (trace st')
        = Some (RedisSet WithHistory.history_key
                  (WithHistory.limit_history env
                     (items ++ [WithHistory.user_turn query;
                                WithHistory.bot_turn (res_advice r)]))
                  86400).
Proof.
  unfold WithHistory.POST, try_catch.
  destruct (bind _ _ st) as [[response0|e] st0] eqn:Hbody; [|intros [= <- _]; discriminate].
  intros [= -> ->] Hstatus.
  apply bind_Ok in Hbody as (body0 & s1 & _ & Hbody).
  apply bind_Ok in Hbody as (fields & s2 & _ & Hbody).
  destruct fields as [query clientHistory].
  destruct (invalid_query query); [injection Hbody as <- _; discriminate|].
  apply bind_Ok in Hbody as (history & s3 & _ & Hbody).
  apply bind_Ok in Hbody as (geminiHistory & s4 & _ & Hbody).
  apply bind_Ok in Hbody as (geminiResult & s5 & _ & Hbody).
  apply bind_Ok in Hbody as (matched & s6 & _ & Hbody).
  apply bind_Ok in Hbody as (note & s7 & _ & Hbody).
  apply bind_Ok in Hbody as (items & s8 & _ & Hbody).
  apply bind_Ok in Hbody as (u & s9 & Hstore & Hbody).
  injection Hbody as <- <-.
  eexists _, items, (trim (string_of query)). split; [reflexivity|]. split; [reflexivity|].
  intros client Hclient.
  rewrite (store_history_trace _ _ _ _ _ _ Hclient Hstore). apply last_snoc.
Qed.

(** For a configured maximum that is a positive integer (10 when the
    variable is unset), after a response with status 200 the value handed
    to Redis, with a time-to-live of a day, is the history with the new
    user turn and bot turn appended, cut to its newest entries, at most
    the maximum of them. *)
Theorem history_is_capped_for_a_positive_maximum :
  forall (env : Env) (request_json : completion json) (client : RedisClient) (m : Z),
    redis env = Some client ->
    WithHistory.maxHistory env = Some m ->
    (1 <= m)%Z ->
    status (fst (WithHistory.serve env request_json)) = 200%nat ->
    exists r items query value,
      body (fst (WithHistory.serve env request_json)) = ChatBody r /\
      res_history r
        = Some (items ++ [WithHistory.user_turn query; WithHistory.bot_turn (res_advice r)]) /\
      last (trace (snd (WithHistory.serve env request_json)))
        = Some (RedisSet WithHistory.history_key value (60 * 60 * 24)) /\
      value = drop (length items + 2 - Z.to_nat m)
                   (items ++ [WithHistory.user_turn query;
                              WithHistory.bot_turn (res_advice r)]) /\
      (Z.of_nat (length value) <= m)%Z.
Proof.
  intros env request_json client m Hclient Hm Hpos.
  unfold WithHistory.serve.
  destruct (WithHistory.POST env request_json initial_state) as [[response|e] st] eqn:Hrun;
    simpl; [|discriminate].
  intros Hstatus.
  destruct (history_POST_stores _ _ _ _ _ Hrun Hstatus) as (r & items & query & Hb & Hh & Hset).
  destruct (limit_history_positive env
              (items ++ [WithHistory.user_turn query; WithHistory.bot_turn (res_advice r)])
              m Hm Hpos) as [Heq Hlen].
  exists r, items, query, (WithHistory.limit_history env
     (items ++ [WithHistory.user_turn query; WithHistory.bot_turn (res_advice r)])).
  split; [exact Hb|]. split; [exact Hh|]. split; [exact (Hset client Hclient)|].
  split; [|exact Hlen].
  rewrite Heq. rewrite length_app. simpl. reflexivity.
Qed.

(** The default maximum is 10. *)
Lemma default_maxHistory env :
  MAX_CHAT_HISTORY env = None -> WithHistory.maxHistory env = Some 10%Z.
Proof. unfold WithHistory.maxHistory. intros ->. reflexivity. Qed.

(** With a maximum of 3 and two earlier turns, the three newest of the
    four turns are stored. *)
Lemma history_is_capped_for_a_positive_maximum_witness :
  redis (with_maximum "3") = Some {| redis_get := GetOther; redis_set_throws := false |} /\
  WithHistory.maxHistory (with_maximum "3") = Some 3%Z /\
  (1 <= 3)%Z /\
  status (fst (WithHistory.serve (with_maximum "3") request_with_history)) = 200%nat /\
  exists r items query value,
    body (fst (WithHistory.serve (with_maximum "3") request_with_history)) = ChatBody r /\
    res_history r
      = Some (items ++ [WithHistory.user_turn query; WithHistory.bot_turn (res_advice r)]) /\
    last (trace (snd (WithHistory.serve (with_maximum "3") request_with_history)))
      = Some (RedisSet WithHistory.history_key value (60 * 60 * 24)) /\
    value = drop (length items + 2 - Z.to_nat 3)
                 (items ++ [WithHistory.user_turn query;
                            WithHistory.bot_turn (res_advice r)]) /\
    (Z.of_nat (length value) <= 3)%Z.
Proof.
  split; [reflexivity|]. split; [reflexivity|]. split; [lia|]. split; [reflexivity|].
  apply (history_is_capped_for_a_positive_maximum (with_maximum "3") request_with_history
           {| redis_get := GetOther; redis_set_throws := false |} 3%Z);
    [reflexivity | reflexivity | lia | reflexivity].
Defined.

(** C9, evaluated.  With [MAX_CHAT_HISTORY] set to "0" the maximum parses
    to 0; the history of four turns is longer than 0, so the handler
    takes [history.slice(-0)], which is the whole array, and hands all
    four turns to Redis. *)
Theorem history_is_not_capped_when_the_maximum_is_zero :
  WithHistory.maxHistory (with_maximum "0") = Some 0%Z /\
  status (fst (WithHistory.serve (with_maximum "0") request_with_history)) = 200%nat /\
  exists value,
    last (trace (snd (WithHistory.serve (with_maximum "0") request_with_history)))
      = Some (RedisSet WithHistory.history_key value (60 * 60 * 24)) /\
    length value = 4%nat /\
    take 2 value = earlier_turns.
Proof.
  split; [reflexivity|]. split; [reflexivity|].
  eexists. split; [vm_compute; reflexivity|]. split; reflexivity.
Qed.

(* ================================================================== *)
(** * The type filter and the tag filter *)
(* ================================================================== *)

Lemma includes_contains (s sub : string) : includes s sub = true <-> contains s sub.
Proof. apply includes_true_iff. Qed.

Lemma given_Some (v : option string) (s : string) :
  v = Some s -> s <> "" -> given v = Some s.
Proof.
  intros -> Hs. unfold given. destruct (String.eqb_spec s ""); [contradiction | reflexivity].
Qed.

Lemma three_fields_contain (a b c word : string) :
  includes a word || includes b word || includes c word = true <->
  contains a word \/ contains b word \/ contains c word.
Proof.
  rewrite !orb_true_iff, !includes_contains. tauto.
Qed.

(** The type filter of the stateless handler is the specified one, on
    lower-cased text. *)
Lemma stateless_typeMatch_as_specified env filter r productType productType' tags' :
  Filter.productType filter = Some productType -> productType <> "" ->
  nullish_or_string (meta r "productType") = Ok productType' ->
  nullish_or_string (meta r "tags") = Ok tags' ->
  exists b,
    Stateless.typeMatch env filter r = Ok b /\
    (b = true <->
     type_filter_as_specified (toLowerCase productType)
       (default [] (synonyms (keywordMappings env) !! toLowerCase productType))
       (normalized_type productType') (toLowerCase tags')
       (toLowerCase (string_of (meta r "title")))).
Proof.
  intros Hf Hne Hpt Htags. unfold Stateless.typeMatch.
  rewrite (given_Some _ _ Hf Hne), Hpt, Htags. cbn [rbind].
  eexists. split; [reflexivity|].
  set (needle := toLowerCase productType).
  set (syns := default [] _).
  rewrite orb_true_iff, three_fields_contain, existsb_exists.
  unfold type_filter_as_specified. split.
  - intros [H | (syn & Hin & H)].
    + exists needle. split; [left; reflexivity | exact H].
    + exists syn. split; [right; exact Hin | apply three_fields_contain, H].
  - intros (word & [-> | Hin] & H).
    + left. exact H.
    + right. exists word. split; [exact Hin | apply three_fields_contain, H].
Qed.

(** The tag filter of the stateless handler is the specified one, on
    lower-cased text, with the filter split at spaces. *)
Lemma stateless_tagMatch_as_specified filter r tags tags' :
  Filter.tags filter = Some tags -> tags <> "" ->
  nullish_or_string (meta r "tags") = Ok tags' ->
  exists b,
    Stateless.tagMatch filter r = Ok b /\
    (b = true <->
     tag_filter_as_specified (split " " (toLowerCase tags)) (toLowerCase tags')
       (toLowerCase (string_of (meta r "title")))).
Proof.
  intros Hf Hne Htags. unfold Stateless.tagMatch.
  rewrite (given_Some _ _ Hf Hne), Htags. cbn [rbind].
  eexists. split; [reflexivity|].
  rewrite existsb_exists. unfold tag_filter_as_specified.
  split; intros (word & Hin & H); exists word; (split; [exact Hin|]).
  - apply orb_true_iff in H. rewrite !includes_contains in H. exact H.
  - apply orb_true_iff. rewrite !includes_contains. exact H.
Qed.

(** The type filter of the history handler looks at the normalised type
    only. *)
Lemma history_typeMatch_type_only filter r productType productType' :
  Filter.productType filter = Some productType -> productType <> "" ->
  nullish_or_string (meta r "productType") = Ok productType' ->
  exists b,
    WithHistory.typeMatch filter r = Ok b /\
    (b = true <-> contains (normalized_type productType') (toLowerCase productType)).
Proof.
  intros Hf Hne Hpt. unfold WithHistory.typeMatch.
  rewrite (given_Some _ _ Hf Hne), Hpt. cbn [rbind].
  eexists. split; [reflexivity | apply includes_contains].
Qed.

(** The history handler ignores the [tags] of the filter. *)
Lemma history_record_checks_ignore_tags env geminiResult productType tags vendor r :
  WithHistory.record_checks env geminiResult (Filter.mk productType tags vendor) r
  = WithHistory.record_checks env geminiResult (Filter.mk productType None vendor) r.
Proof. reflexivity. Qed.

(** C6, amended.  Matching is on lower-cased text throughout.  In the
    stateless handler, with a [productType] filter set, a record (whose
    [productType] and [tags] are strings or absent) passes the type check
    exactly when its normalised type, its tags or its title contains the
    filter string or one of the synonyms cached for it; with a [tags]
    filter set it passes the tag check exactly when one of the filter's
    space-separated tokens occurs in its tags or its title.  In the
    history handler the type check passes exactly when the normalised
    type contains the filter string, and the [tags] of the filter change
    nothing. *)
Theorem type_and_tag_filters_by_handler :
  forall (env : Env) (geminiResult : GeminiResult) (filter : Filter.t) (r : QueryResult)
         (productType' tags' : string),
    nullish_or_string (meta r "productType") = Ok productType' ->
    nullish_or_string (meta r "tags") = Ok tags' ->
    (forall productType,
       Filter.productType filter = Some productType -> productType <> "" ->
       (exists b,
          Stateless.typeMatch env filter r = Ok b /\
          (b = true <->
           type_filter_as_specified (toLowerCase productType)
             (default [] (synonyms (keywordMappings env) !! toLowerCase productType))
             (normalized_type productType') (toLowerCase tags')
             (toLowerCase (string_of (meta r "title"))))) /\
       (exists b,
          WithHistory.typeMatch filter r = Ok b /\
          (b = true <->
           contains (normalized_type productType') (toLowerCase productType)))) /\
    (forall tags,
       Filter.tags filter = Some tags -> tags <> "" ->
       (exists b,
          Stateless.tagMatch filter r = Ok b /\
          (b = true <->
           tag_filter_as_specified (split " " (toLowerCase tags)) (toLowerCase tags')
             (toLowerCase (string_of (meta r "title"))))) /\
       WithHistory.tagMatch = true /\
       WithHistory.record_checks env geminiResult filter r
       = WithHistory.record_checks env geminiResult
           (Filter.mk (Filter.productType filter) None (Filter.vendor filter)) r).
Proof.
  intros env geminiResult filter r productType' tags' Hpt Htags. split.
  - intros productType Hf Hne. split.
    + eapply stateless_typeMatch_as_specified; eassumption.
    + eapply history_typeMatch_type_only; eassumption.
  - intros tags Hf Hne. split; [|split].
    + eapply stateless_tagMatch_as_specified; eassumption.
    + reflexivity.
    + destruct filter. reflexivity.
Qed.

(** C6 as stated fails in the history handler.  The record's tags and
    title contain "lipstick", so the specified type filter passes it, but
    the handler's type check rejects it and the query returns [null];
    and no token of the tag filter "serum" occurs in the record's tags or
    title, so the specified tag filter rejects it, but the handler lets
    it through. *)
Lemma history_filters_differ_from_the_specified :
  (type_filter_as_specified "lipstick" [] (normalized_type "Makeup") "lipstick, matte"
     "velvet lipstick" /\
   WithHistory.typeMatch (Filter.mk (Some "lipstick") None None) velvet_lipstick = Ok false /\
   fst (WithHistory.performVectorQuery (index_only [velvet_lipstick]) default_geminiResult
          "lipstick" 10 (Filter.mk (Some "lipstick") None None) initial_state)
     = Ok None) /\
  ((tag_filter_as_specified (split " " "serum") "lipstick, matte" "velvet lipstick" -> False) /\
   fst (WithHistory.performVectorQuery (index_only [velvet_lipstick]) default_geminiResult
          "serum" 10 (Filter.mk None (Some "serum") None) initial_state)
     = Ok (Some [velvet_lipstick])).
Proof.
  split.
  - split; [|split; reflexivity].
    exists "lipstick". split; [left; reflexivity|].
    right. left. apply includes_contains. reflexivity.
  - split; [|reflexivity].
    intros (token & Hin & H).
    destruct Hin as [<- | []].
    rewrite <- !includes_contains in H. destruct H as [H|H]; discriminate H.
Qed.

(** The stateless handler passes the record on its tags; the history
    handler reads its product type only. *)
Lemma type_and_tag_filters_by_handler_witness :
  nullish_or_string (meta velvet_lipstick "productType") = Ok "Makeup" /\
  nullish_or_string (meta velvet_lipstick "tags") = Ok "lipstick, matte" /\
  Stateless.typeMatch (index_only []) (Filter.mk (Some "Lipstick") (Some "matte red") None)
    velvet_lipstick = Ok true /\
  WithHistory.typeMatch (Filter.mk (Some "Lipstick") (Some "matte red") None) velvet_lipstick
    = Ok false /\
  (exists b,
     Stateless.tagMatch (Filter.mk (Some "Lipstick") (Some "matte red") None) velvet_lipstick
       = Ok b /\
     (b = true <->
      tag_filter_as_specified (split " " (toLowerCase "matte red"))
        (toLowerCase "lipstick, matte")
        (toLowerCase (string_of (meta velvet_lipstick "title"))))).
Proof.
  split; [reflexivity|]. split; [reflexivity|]. split; [reflexivity|]. split; [reflexivity|].
  exact (proj1 (proj2 (type_and_tag_filters_by_handler (index_only []) default_geminiResult
                  (Filter.mk (Some "Lipstick") (Some "matte red") None) velvet_lipstick
                  "Makeup" "lipstick, matte" eq_refl eq_refl)
           "matte red" eq_refl ltac:(discriminate))).
Defined.

(* ================================================================== *)
(** * From Stage 2 to the response *)
(* ================================================================== *)

Lemma response_cards_finalResponse geminiResult cards note history :
  response_cards (finalResponse geminiResult cards note history) = cards.
Proof. destruct cards as [|c1 [|c2 cards]]; reflexivity. Qed.

(* ================================================================== *)
(** * How many cards *)
(* ================================================================== *)

Lemma sublist_length_le {A} (l1 l2 : list A) : sublist l1 l2 -> (length l1 <= length l2)%nat.
Proof. induction 1; simpl; lia. Qed.

Lemma truncated_candidates_length geminiResult topMatches :
  (length (truncated_candidates geminiResult topMatches)
   <= Z.to_nat (Qfloor (requestedCount geminiResult)))%nat.
Proof.
  unfold truncated_candidates.
  set (cut := slice_to _ _).
  assert (Hcut : (length cut <= Z.to_nat (Qfloor (requestedCount geminiResult)))%nat).
  { unfold cut. rewrite slice_to_take by apply requestedCount_ge_1.
    rewrite length_take. lia. }
  destruct (sort_by_price geminiResult); [|exact Hcut].
  rewrite (Permutation_length (sort_perm by_price _)).
  pose proof (sublist_length_le _ _ (filter_sublist metadata_not_null cut)). lia.
Qed.

(** The response never carries more cards than the requested count, and
    when the intent names product types the requested count is their
    number. *)
Theorem card_count_is_bounded :
  forall (env : Env) (geminiResult : GeminiResult) (trimmedQuery : string)
         (threshold : Q) (record_checks : Filter.t -> QueryResult -> completion bool)
         (card_tags : QueryResult -> option json)
         (st : state) (matched : MatchResult) (st' : state),
    vector_search env geminiResult trimmedQuery threshold record_checks card_tags st
      = (Ok matched, st') ->
    (length (finalProductCards matched)
     <= Z.to_nat (Qfloor (requestedCount geminiResult)))%nat /\
    forall mappings query parsed,
      geminiResult = adjust_requested_product_count mappings query parsed ->
      product_types parsed <> [] ->
      (length (finalProductCards matched) <= length (product_types parsed))%nat.
Proof.
  intros env geminiResult trimmedQuery threshold record_checks card_tags st matched st' Hrun.
  destruct (vector_search_outcome _ _ _ _ _ _ _ _ _ Hrun) as (_ & Hvalid & Hcards).
  assert (Hbound : (length (finalProductCards matched)
                    <= Z.to_nat (Qfloor (requestedCount geminiResult)))%nat).
  { destruct (threshold_policy_cards threshold card_tags (searchStageUsed matched)
                (validMatches matched)) as (description & selected & Hsub & Heq).
    rewrite Hcards, Heq, length_map.
    pose proof (sublist_length_le _ _ Hsub) as Hle.
    assert (length (validMatches matched)
            <= Z.to_nat (Qfloor (requestedCount geminiResult)))%nat; [|lia].
    rewrite Hvalid. destruct (topMatches matched); [simpl; lia|].
    apply truncated_candidates_length. }
  split; [exact Hbound|].
  intros mappings query parsed -> Htypes.
  assert (Hcount : requestedCount (adjust_requested_product_count mappings query parsed)
                   = inject_Z (Z.of_nat (length (product_types parsed)))).
  { unfold adjust_requested_product_count.
    destruct (product_types parsed) as [|t ts] eqn:Ht; [congruence|].
    change (0 <? length (t :: ts))%nat with true. cbv iota.
    unfold requestedCount, set_requested_product_count, num_or, Math_max. simpl product_types.
    cbn [requested_product_count].
    assert (Hpos : (1 <= Z.of_nat (length (t :: ts)))%Z) by (simpl; lia).
    generalize dependent (Z.of_nat (length (t :: ts))). intros z Hz.
    assert (Hnz : Qeq_bool (inject_Z z) 0 = false).
    { apply not_true_iff_false. intros H. apply Qeq_bool_iff in H.
      unfold Qeq in H. simpl in H. lia. }
    rewrite Hnz.
    assert (Hle : Qle_bool 1 (inject_Z z) = true).
    { apply Qle_bool_iff. unfold Qle. simpl. lia. }
    rewrite Hle. reflexivity. }
  rewrite Hcount in Hbound. rewrite Qfloor_Z, Nat2Z.id in Hbound. exact Hbound.
Qed.

Lemma card_count_is_bounded_witness :
  exists matched st',
    Stateless.vector_search cheapest_lipsticks_env cheapest_lipsticks_intent
      "top 4 cheapest lipsticks" initial_state = (Ok matched, st') /\
    product_types (as_geminiResult cheapest_lipsticks_reply) <> [] /\
    (length (finalProductCards matched)
     <= length (product_types (as_geminiResult cheapest_lipsticks_reply)))%nat.
Proof.
  eexists _, _. split; [vm_compute; reflexivity|].
  assert (Htypes : product_types (as_geminiResult cheapest_lipsticks_reply) <> [])
    by discriminate.
  split; [exact Htypes|].
  exact (proj2 (card_count_is_bounded cheapest_lipsticks_env cheapest_lipsticks_intent
                  "top 4 cheapest lipsticks" Stateless.SIMILARITY_THRESHOLD
                  (Stateless.record_checks cheapest_lipsticks_env cheapest_lipsticks_intent)
                  (fun _ => None) initial_state _ _ eq_refl)
           no_mappings "top 4 cheapest lipsticks" (as_geminiResult cheapest_lipsticks_reply)
           eq_refl Htypes).
Defined.

(* ================================================================== *)
(** * The handlers always answer *)
(* ================================================================== *)

(** Neither handler lets an exception escape, and a body that is [null]
    is answered by the outermost [catch] with status 500 and the apology,
    before any call to a service. *)
Theorem handlers_always_answer :
  forall (env : Env) (request_json : completion json),
    total (Stateless.POST env request_json) /\
    total (WithHistory.POST env request_json) /\
    status (fst (Stateless.serve env (Ok JNull))) = 500%nat /\
    status (fst (WithHistory.serve env (Ok JNull))) = 500%nat /\
    has_advice (fst (Stateless.serve env (Ok JNull))) /\
    trace (snd (Stateless.serve env (Ok JNull))) = [] /\
    trace (snd (WithHistory.serve env (Ok JNull))) = [].
Proof.
  intros env request_json.
  split; [apply total_try_catch; intros e; apply total_ret|].
  split; [apply total_try_catch; intros e; apply total_ret|].
  repeat split; try reflexivity. apply errorResponse_has_advice.
Qed.

(** A product type under a name that every object inherits.  With an
    index client the keywords looked up for the type are not a string,
    and the request ends with status 500 after the call to the model and
    before any query of the index, in both handlers; without an index
    client no search text is read and the request is answered with
    status 200 and no card. *)
Example inherited_type_name_ends_the_request :
  Stateless.serve (constructor_services (Some (fun _ _ _ => QueryReturns sample_catalogue)))
    constructor_request
  = (errorResponse "TypeError: searchText.trim is not a function" None,
     {| searchNote := ""; trace := [GenerateContent "a constructor set" []] |}) /\
  fst (WithHistory.serve
         (constructor_services (Some (fun _ _ _ => QueryReturns sample_catalogue)))
         constructor_request)
  = errorResponse "TypeError: searchText.trim is not a function" (Some []) /\
  status (fst (Stateless.serve (constructor_services None) constructor_request)) = 200%nat /\
  (exists r,
     body (fst (Stateless.serve (constructor_services None) constructor_request))
     = ChatBody r /\ response_cards r = []).
Proof.
  split; [vm_compute; reflexivity|]. split; [vm_compute; reflexivity|].
  split; [vm_compute; reflexivity|]. eexists. split; vm_compute; reflexivity.
Qed.

(* ================================================================== *)
(** * The calls a handler makes *)
(* ================================================================== *)

Lemma emits_silent {A} (m : M A) (P : list event -> Prop) :
  (forall st, trace (snd (m st)) = trace st) -> P [] -> emits m P.
Proof. intros Hm HP st. exists []. rewrite app_nil_r. split; [apply Hm | exact HP]. Qed.

Lemma emits_ret {A} (a : A) (P : list event -> Prop) : P [] -> emits (ret a) P.
Proof. apply emits_silent. reflexivity. Qed.

Lemma emits_throw {A} (e : string) (P : list event -> Prop) : P [] -> emits (@throw A e) P.
Proof. apply emits_silent. reflexivity. Qed.

Lemma emits_lift {A} (r : completion A) (P : list event -> Prop) : P [] -> emits (lift r) P.
Proof. apply emits_silent. reflexivity. Qed.

Lemma emits_set_searchNote (note : string) (P : list event -> Prop) :
  P [] -> emits (set_searchNote note) P.
Proof. apply emits_silent. reflexivity. Qed.

Lemma emits_emit (e : event) (P : list event -> Prop) : P [e] -> emits (emit e) P.
Proof. intros HP st. exists [e]. split; [reflexivity | exact HP]. Qed.

Lemma emits_bind {A B} (m : M A) (k : A -> M B) (P1 P2 P : list event -> Prop) :
  emits m P1 -> (forall a, emits (k a) P2) ->
  (forall e1, P1 e1 -> P e1) ->
  (forall e1 e2, P1 e1 -> P2 e2 -> P (e1 ++ e2)) ->
  emits (bind m k) P.
Proof.
  intros Hm Hk Hthrow Hboth st. unfold bind.
  destruct (Hm st) as (e1 & Ht1 & H1).
  destruct (m st) as [[a|e] st1]; simpl in Ht1.
  - destruct (Hk a st1) as (e2 & Ht2 & H2).
    exists (e1 ++ e2). rewrite Ht2, Ht1, app_assoc. split; [reflexivity | auto].
  - exists e1. simpl. split; [exact Ht1 | auto].
Qed.

Lemma emits_try_catch {A} (body : M A) (handler : string -> M A)
    (P1 P2 P : list event -> Prop) :
  emits body P1 -> (forall e, emits (handler e) P2) ->
  (forall e1, P1 e1 -> P e1) ->
  (forall e1 e2, P1 e1 -> P2 e2 -> P (e1 ++ e2)) ->
  emits (try_catch body handler) P.
Proof.
  intros Hb Hh Hok Hboth st. unfold try_catch.
  destruct (Hb st) as (e1 & Ht1 & H1).
  destruct (body st) as [[a|e] st1]; simpl in Ht1.
  - exists e1. simpl. split; [exact Ht1 | auto].
  - destruct (Hh e st1) as (e2 & Ht2 & H2).
    exists (e1 ++ e2). rewrite Ht2, Ht1, app_assoc. split; [reflexivity | auto].
Qed.

Lemma emits_weaken {A} (m : M A) (P Q : list event -> Prop) :
  emits m P -> (forall evs, P evs -> Q evs) -> emits m Q.
Proof. intros Hm HPQ st. destruct (Hm st) as (evs & Ht & HP). exists evs. auto. Qed.

Lemma index_queries_nil (env : Env) (k : Q) (n : nat) : index_queries env k n [].
Proof. split; [constructor | simpl; lia]. Qed.

Lemma index_queries_app (env : Env) (k : Q) (n1 n2 : nat) (e1 e2 : list event) :
  index_queries env k n1 e1 -> index_queries env k n2 e2 ->
  index_queries env k (n1 + n2) (e1 ++ e2).
Proof.
  intros [H1 L1] [H2 L2]. split; [apply Forall_app; split; assumption|].
  rewrite length_app. lia.
Qed.

Lemma index_queries_le (env : Env) (k : Q) (n1 n2 : nat) (evs : list event) :
  (n1 <= n2)%nat -> index_queries env k n1 evs -> index_queries env k n2 evs.
Proof. intros Hle [H L]. split; [exact H | lia]. Qed.

(** Sequencing adds the budgets. *)
Lemma queries_bind {A B} (m : M A) (f : A -> M B) (env : Env) (k : Q) (n1 n2 : nat) :
  emits m (index_queries env k n1) -> (forall a, emits (f a) (index_queries env k n2)) ->
  emits (bind m f) (index_queries env k (n1 + n2)).
Proof.
  intros Hm Hk. eapply emits_bind; [exact Hm | exact Hk | |].
  - intros e1. apply index_queries_le. lia.
  - intros e1 e2. apply index_queries_app.
Qed.

Lemma queries_le {A} (m : M A) (env : Env) (k : Q) (n1 n2 : nat) :
  (n1 <= n2)%nat -> emits m (index_queries env k n1) -> emits m (index_queries env k n2).
Proof.
  intros Hle Hm. eapply emits_weaken; [exact Hm|].
  intros evs. apply index_queries_le, Hle.
Qed.

Section QueryBudget.
Variable env : Env.
Variable geminiResult : GeminiResult.
Variable trimmedQuery : string.
Variable SIMILARITY_THRESHOLD : Q.
Variable record_checks : Filter.t -> QueryResult -> completion bool.
Variable card_tags : QueryResult -> option json.

Lemma performVectorQuery_queries searchText k filter :
  emits (performVectorQuery env geminiResult record_checks searchText k filter)
        (index_queries env k 1).
Proof.
  unfold performVectorQuery.
  destruct (vectorIndex env) as [index|] eqn:Hindex; [|apply emits_ret, index_queries_nil].
  destruct (is_blank searchText) eqn:Hblank; [apply emits_ret, index_queries_nil|].
  intros st. unfold try_catch, bind, get_queries_made, emit, set_searchNote, ret, throw, lift.
  cbn -[filterM sort].
  exists [VectorQuery searchText k].
  split; [|split; [repeat constructor; exists index, searchText; auto | simpl; lia]].
  destruct (index (queries_made st) searchText k) as [|[|r results]]; try reflexivity.
  destruct (filterM _ _); reflexivity.
Qed.

Lemma queries_ret {A} (a : A) (k : Q) (n : nat) : emits (ret a) (index_queries env k n).
Proof. apply emits_ret, index_queries_nil. Qed.

Lemma queries_query_then {A} searchText filter (f : option (list QueryResult) -> M A) :
  (forall results, emits (f results) (index_queries env (topK geminiResult) 0)) ->
  emits (bind (performVectorQuery env geminiResult record_checks searchText
                 (topK geminiResult) filter) f)
        (index_queries env (topK geminiResult) 1).
Proof.
  intros Hf. change 1%nat with (1 + 0)%nat.
  apply queries_bind; [apply performVectorQuery_queries | exact Hf].
Qed.

Lemma performVectorQuery_keywords_queries searchKeywords k filter :
  emits (performVectorQuery_keywords env geminiResult record_checks searchKeywords k filter)
        (index_queries env k 1).
Proof.
  destruct searchKeywords as [searchText|]; [apply performVectorQuery_queries|].
  unfold performVectorQuery_keywords.
  destruct (vectorIndex env); [apply emits_throw | apply emits_ret]; apply index_queries_nil.
Qed.

Lemma multi_type_step_queries acc productType :
  emits (multi_type_step env geminiResult trimmedQuery record_checks acc productType)
        (index_queries env (topK geminiResult) 3).
Proof.
  unfold multi_type_step. destruct acc as [topMatches usedProductIds].
  destruct productType; try (apply emits_throw, index_queries_nil).
  apply (queries_bind _ _ env (topK geminiResult) 1 2);
    [apply performVectorQuery_keywords_queries|].
  intros results1.
  apply (queries_bind _ _ env (topK geminiResult) 1 1).
  { destruct (no_results results1);
      [apply performVectorQuery_keywords_queries | apply queries_ret]. }
  intros results2.
  change 1%nat with (1 + 0)%nat. apply queries_bind.
  { destruct (no_results results2); [apply performVectorQuery_queries | apply queries_ret]. }
  intros results3. destruct results3 as [[|r rs]|]; apply queries_ret.
Qed.

Lemma multi_type_loop_queries types : forall acc,
  emits (multi_type_loop env geminiResult trimmedQuery record_checks acc types)
        (index_queries env (topK geminiResult) (3 * length types)).
Proof.
  induction types as [|t types IH]; intros acc; simpl multi_type_loop.
  - apply queries_ret.
  - apply queries_le with (3 + 3 * length types)%nat; [simpl; lia|].
    apply queries_bind; [apply multi_type_step_queries | exact IH].
Qed.

Lemma single_intent_queries :
  emits (single_intent env geminiResult trimmedQuery SIMILARITY_THRESHOLD record_checks)
        (index_queries env (topK geminiResult) 2).
Proof.
  unfold single_intent. apply (queries_bind _ _ env (topK geminiResult) 1 1).
  - destruct (negb (is_blank (search_keywords geminiResult))); [|apply queries_ret].
    apply queries_query_then. intros results. apply queries_ret.
  - intros [topMatches stage].
    destruct (_ || _); [|apply queries_ret].
    apply queries_query_then. intros results. apply queries_ret.
Qed.

Lemma fallback_search_queries found :
  emits (fallback_search env geminiResult SIMILARITY_THRESHOLD record_checks found)
        (index_queries env (topK geminiResult) 1).
Proof.
  unfold fallback_search. destruct found as [topMatches stage].
  destruct (_ || _); [|apply queries_ret].
  apply queries_query_then. intros [results|]; [|apply queries_ret].
  change 0%nat with (0 + 0)%nat. apply queries_bind.
  - apply emits_set_searchNote, index_queries_nil.
  - intros _. apply queries_ret.
Qed.

Lemma process_matches_silent found st :
  trace (snd (process_matches geminiResult SIMILARITY_THRESHOLD card_tags found st))
  = trace st.
Proof.
  destruct found as [topMatches stage]. unfold process_matches.
  destruct topMatches as [|m0 rest]; [reflexivity|].
  change (0 <? length (m0 :: rest))%nat with true. cbv iota zeta.
  unfold bind, ret, set_searchNote.
  destruct (_ && _); [|reflexivity].
  destruct (0 <? _)%nat; reflexivity.
Qed.

Lemma vector_search_queries :
  emits (vector_search env geminiResult trimmedQuery SIMILARITY_THRESHOLD
           record_checks card_tags)
        (index_queries env (topK geminiResult) (query_budget geminiResult)).
Proof.
  assert (Hrest : forall found,
    emits (bind (fallback_search env geminiResult SIMILARITY_THRESHOLD record_checks found)
             (process_matches geminiResult SIMILARITY_THRESHOLD card_tags))
          (index_queries env (topK geminiResult) 1)).
  { intros found. change 1%nat with (1 + 0)%nat.
    apply queries_bind; [apply fallback_search_queries|].
    intros found'. apply emits_silent; [apply process_matches_silent|].
    apply index_queries_nil. }
  unfold vector_search, query_budget.
  destruct (product_types geminiResult) as [|t types] eqn:Htypes.
  - change (0 <? length [])%nat with false. cbv iota.
    apply (queries_bind _ _ env (topK geminiResult) 2 1);
      [apply single_intent_queries | exact Hrest].
  - change (0 <? length (t :: types))%nat with true. cbv iota.
    apply queries_bind; [|exact Hrest].
    replace (3 * length (t :: types))%nat with (3 * length (t :: types) + 0)%nat by lia.
    apply queries_bind; [apply multi_type_loop_queries|].
    intros acc. apply queries_ret.
Qed.
End QueryBudget.

(** How many queries Stage 2 makes, and which.  For an intent without
    product types the index is queried at most three times (the keywords
    of the model, the query itself, the fallback keywords); for an intent
    with n product types at most 3n + 1 times.  Every query asks for
    [topK] results, and none is made on a blank text. *)
Theorem index_query_budget :
  forall (env : Env) (geminiResult : GeminiResult) (trimmedQuery : string)
         (threshold : Q) (record_checks : Filter.t -> QueryResult -> completion bool)
         (card_tags : QueryResult -> option json) (st : state),
    exists evs,
      trace (snd (vector_search env geminiResult trimmedQuery threshold record_checks
                    card_tags st))
        = trace st ++ evs /\
      Forall (index_query env (topK geminiResult)) evs /\
      (length evs <= match product_types geminiResult with
                     | [] => 3
                     | types => 3 * length types + 1
                     end)%nat.
Proof.
  intros env geminiResult trimmedQuery threshold record_checks card_tags st.
  destruct (vector_search_queries env geminiResult trimmedQuery threshold record_checks
              card_tags st) as (evs & Htrace & Hall & Hlen).
  exists evs. split; [exact Htrace|]. split; [exact Hall | exact Hlen].
Qed.

(* ================================================================== *)
(** * The vendor and the price ceiling *)
(* ================================================================== *)

Lemma vector_search_vendor env geminiResult trimmedQuery threshold record_checks card_tags :
  vector_search env geminiResult trimmedQuery threshold record_checks card_tags
  = vector_search env geminiResult trimmedQuery threshold
      (fun filter => record_checks (with_vendor (vendor geminiResult) filter)) card_tags.
Proof. reflexivity. Qed.




Lemma stateless_record_checks_inv env geminiResult filter r :
  Stateless.record_checks env geminiResult filter r = Ok true ->
  Stateless.vendorMatch filter r = Ok true /\ Stateless.priceMatch geminiResult r = true.
Proof.
  unfold Stateless.record_checks.
  destruct (Stateless.typeMatch env filter r) as [b1|]; simpl; [|discriminate].
  destruct (Stateless.tagMatch filter r) as [b2|]; simpl; [|discriminate].
  destruct (Stateless.vendorMatch filter r) as [b3|]; simpl; [|discriminate].
  intros [= H]. repeat rewrite andb_true_iff in H. destruct H as (((_ & _) & ->) & ->).
  split; reflexivity.
Qed.

Lemma history_record_checks_inv env geminiResult filter r :
  WithHistory.record_checks env geminiResult filter r = Ok true ->
  WithHistory.vendorMatch filter r = Ok true /\
  WithHistory.priceMatch geminiResult r = Ok true.
Proof.
  unfold WithHistory.record_checks.
  destruct (WithHistory.typeMatch filter r) as [b1|]; simpl; [|discriminate].
  destruct (nullish_or_string (meta r "tags")) as [t|]; simpl; [|discriminate].
  destruct (WithHistory.attributeMatch env geminiResult (toLowerCase t)) as [b2|];
    simpl; [|discriminate].
  destruct (WithHistory.vendorMatch filter r) as [b3|]; simpl; [|discriminate].
  destruct (WithHistory.priceMatch geminiResult r) as [b4|]; simpl; [|discriminate].
  intros [= H]. repeat rewrite andb_true_iff in H.
  destruct H as ((((_ & _) & ->) & ->) & _). split; reflexivity.
Qed.

(** Every card comes from a hit that the record checks accepted under a
    filter that carries the vendor of the intent. *)
Lemma cards_checked_with_vendor env geminiResult trimmedQuery threshold record_checks card_tags
    st matched st' card :
  vector_search env geminiResult trimmedQuery threshold record_checks card_tags st
    = (Ok matched, st') ->
  card ∈ finalProductCards matched ->
  exists description m filter,
    card = product_card card_tags description m /\
    has_valid_metadata m = true /\
    Filter.vendor filter = Some (vendor geminiResult) /\
    record_checks filter m = Ok true.
Proof.
  intros Hrun Hcard. rewrite vector_search_vendor in Hrun.
  pose proof (vector_search_outcome _ _ _ _ _ _ _ _ _ Hrun) as Hout.
  destruct (cards_of_accepted_hits _ _ _ _ _ _ Hout card Hcard)
    as (description & m & [filter Hm] & ->).
  unfold filter_callback in Hm.
  destruct (has_valid_metadata m) eqn:Hvalid; [|discriminate]. simpl in Hm.
  exists description, m, (with_vendor (vendor geminiResult) filter).
  split; [reflexivity|]. split; [exact Hvalid|]. split; [reflexivity | exact Hm].
Qed.



(** The price rules.  In the stateless handler every card is priced at
    most [price_filter].  In the history handler, when there is no
    [price_filter] and the [attributes] array holds the string
    "under $20", every card is priced at most 20. *)
Theorem cards_respect_the_price_rules :
  forall (env : Env) (geminiResult : GeminiResult) (trimmedQuery : string)
         (st : state) (matched : MatchResult) (st' : state),
    (Stateless.vector_search env geminiResult trimmedQuery st = (Ok matched, st') ->
     forall max, price_filter geminiResult = Some max ->
     forall card, card ∈ finalProductCards matched -> (parsed_price card <= max)%Q) /\
    (WithHistory.vector_search env geminiResult trimmedQuery st = (Ok matched, st') ->
     price_filter geminiResult = None ->
     forall items, attributes geminiResult = Some (JArr items) ->
     JStr "under $20" ∈ items ->
     forall card, card ∈ finalProductCards matched -> (parsed_price card <= 20)%Q).
Proof.
  intros env geminiResult trimmedQuery st matched st'. split.
  - intros Hrun max Hmax card Hcard.
    destruct (cards_checked_with_vendor _ _ _ _ _ _ _ _ _ _ Hrun Hcard)
      as (description & m & filter & -> & Hvalid & _ & Hchecks).
    apply stateless_record_checks_inv in Hchecks as [_ Hprice].
    unfold Stateless.priceMatch in Hprice. rewrite Hmax in Hprice.
    apply Qle_bool_iff, Hprice.
  - intros Hrun Hnone items Hitems Hin card Hcard.
    destruct (cards_checked_with_vendor _ _ _ _ _ _ _ _ _ _ Hrun Hcard)
      as (description & m & filter & -> & Hvalid & _ & Hchecks).
    apply history_record_checks_inv in Hchecks as [_ Hprice].
    unfold WithHistory.priceMatch in Hprice. rewrite Hnone, Hitems in Hprice.
    simpl in Hprice.
    assert (Hex : existsb (fun v => match v with
                                    | JStr s => String.eqb s "under $20"
                                    | _ => false
                                    end) items = true).
    { apply existsb_exists. exists (JStr "under $20").
      split; [apply list_elem_of_In, Hin | reflexivity]. }
    rewrite Hex in Hprice. injection Hprice as Hle. apply Qle_bool_iff, Hle.
Qed.

Lemma cards_respect_the_price_rules_witness :
  (exists matched st',
     Stateless.vector_search (index_only well_scored_catalogue) vegan_under_20
       "vegan lipsticks under $20" initial_state = (Ok matched, st') /\
     map price (finalProductCards matched) = ["$18.00"; "$9.50"; "N/A"] /\
     forall card, card ∈ finalProductCards matched -> (parsed_price card <= 20)%Q) /\
  (exists matched st',
     WithHistory.vector_search (index_only bargain_catalogue) tagged_under_20
       "lipsticks under $20" initial_state = (Ok matched, st') /\
     map price (finalProductCards matched) = ["$18.00"] /\
     forall card, card ∈ finalProductCards matched -> (parsed_price card <= 20)%Q).
Proof.
  split.
  - eexists _, _. split; [vm_compute; reflexivity|]. split; [reflexivity|].
    exact (proj1 (cards_respect_the_price_rules
                    (index_only well_scored_catalogue) vegan_under_20
                    "vegan lipsticks under $20" initial_state _ _)
             eq_refl 20%Q eq_refl).
  - eexists _, _. split; [vm_compute; reflexivity|]. split; [reflexivity|].
    exact (proj2 (cards_respect_the_price_rules
                    (index_only bargain_catalogue) tagged_under_20
                    "lipsticks under $20" initial_state _ _)
             eq_refl eq_refl [JStr "under $20"] eq_refl ltac:(left)).
Defined.

(* ================================================================== *)
(** * The course of a request *)
(* ================================================================== *)

(** A turn as the model is shown it: the role is 'user' or 'assistant'
    and the content is not blank. *)

(** Stage 1 always returns an intent, keeps the note and makes the call
    to the model, when there is a model. *)
Lemma understand_run env trimmedQuery turns st :
  exists geminiResult,
    fst (understand env trimmedQuery turns st) = Ok geminiResult /\
    searchNote (snd (understand env trimmedQuery turns st)) = searchNote st /\
    trace (snd (understand env trimmedQuery turns st))
      = trace st ++ model_calls env trimmedQuery turns.
Proof.
  unfold understand, model_calls.
  destruct (geminiModel env) as [model|].
  - unfold try_catch, bind, emit, throw, ret. cbn [fst snd].
    destruct (model trimmedQuery (slice_from (-4) turns)) as [|[[]|]];
      try (eexists; repeat split; reflexivity).
    all: try (destruct (valid_structure _); eexists; repeat split; reflexivity).
  - eexists. simpl. rewrite app_nil_r. repeat split; reflexivity.
Qed.

Lemma stored_or_client_history_run env clientHistory st :
  fst (WithHistory.stored_or_client_history env clientHistory st)
    = Ok (history_in_use env clientHistory) /\
  searchNote (snd (WithHistory.stored_or_client_history env clientHistory st))
    = searchNote st /\
  trace (snd (WithHistory.stored_or_client_history env clientHistory st))
    = trace st ++ redis_reads env.
Proof.
  unfold WithHistory.stored_or_client_history, history_in_use, redis_reads.
  destruct (redis env) as [client|].
  - unfold try_catch, bind, emit, throw, ret. cbn [fst snd].
    destruct (redis_get client) as [| |[[]|]]; repeat split; reflexivity.
  - simpl. rewrite app_nil_r. repeat split; reflexivity.
Qed.

Lemma store_history_run env history st :
  fst (WithHistory.store_history env history st) = Ok tt /\
  searchNote (snd (WithHistory.store_history env history st)) = searchNote st /\
  trace (snd (WithHistory.store_history env history st))
    = trace st ++ redis_writes env history.
Proof.
  unfold WithHistory.store_history, redis_writes.
  destruct (redis env) as [client|].
  - unfold try_catch, bind, emit, throw, ret. cbn [fst snd].
    destruct (redis_set_throws client); repeat split; reflexivity.
  - simpl. rewrite app_nil_r. repeat split; reflexivity.
Qed.

(** The two ways a request goes through the stateless handler: it ends
    before any call with a status other than 200, or it reaches Stage 2
    with the intent of Stage 1. *)
Lemma stateless_POST_run env request_json st :
  (exists response,
     Stateless.POST env request_json st = (Ok response, st) /\ status response <> 200%nat) \/
  (exists body query history turns geminiResult,
     request_json = Ok body /\ destructure body = Ok (query, history) /\
     invalid_query query = false /\ geminiHistory_of history = Ok turns /\
     fst (understand env (trim (string_of query)) turns st) = Ok geminiResult /\
     Stateless.POST env request_json st
     = match Stateless.vector_search env geminiResult (trim (string_of query))
               (snd (understand env (trim (string_of query)) turns st)) with
       | (Ok matched, st') =>
           (Ok {| body := ChatBody (finalResponse geminiResult (finalProductCards matched)
                                      (searchNote st') None);
                  status := 200 |}, st')
       | (Throw errorMessage, st') => (Ok (errorResponse errorMessage None), st')
       end).
Proof.
  unfold Stateless.POST.
  destruct request_json as [body|e]; [|left; eexists; split; [reflexivity | discriminate]].
  destruct (destructure body) as [[query history]|e] eqn:Hdes;
    [|left; unfold try_catch, bind, lift; rewrite Hdes;
      eexists; split; [reflexivity | discriminate]].
  destruct (invalid_query query) eqn:Hinv;
    [left; unfold try_catch, bind, lift; rewrite Hdes; cbv beta iota; rewrite Hinv;
     eexists; split; [reflexivity | discriminate]|].
  destruct (geminiHistory_of history) as [turns|e] eqn:Hturns;
    [|left; unfold try_catch, bind, lift; rewrite Hdes; cbv beta iota; rewrite Hinv, Hturns;
      eexists; split; [reflexivity | discriminate]].
  right.
  destruct (understand_run env (trim (string_of query)) turns st) as (g & Hg & _).
  exists body, query, history, turns, g.
  repeat (split; [first [reflexivity | assumption]|]).
  unfold try_catch, bind, lift. rewrite Hdes. cbv beta iota. rewrite Hinv, Hturns.
  destruct (understand env (trim (string_of query)) turns st) as [[g'|e] s1]; simpl in Hg;
    [|discriminate].
  injection Hg as ->. cbn [snd].
  destruct (Stateless.vector_search env g (trim (string_of query)) s1) as [[matched|e] s2];
    reflexivity.
Qed.

Lemma geminiHistory_of_array history turns :
  geminiHistory_of history = Ok turns -> exists items, history = Some (JArr items).
Proof.
  unfold geminiHistory_of, array_items.
  destruct history as [[| | | |items|]|]; simpl; try discriminate. eauto.
Qed.

(** The same for the history handler, where the request can also end
    after the read of the stored history. *)
Lemma history_POST_run env request_json st :
  (exists response,
     WithHistory.POST env request_json st = (Ok response, st) /\
     status response <> 200%nat) \/
  (exists body query clientHistory,
     request_json = Ok body /\ destructure body = Ok (query, clientHistory) /\
     invalid_query query = false /\
     ((exists errorMessage,
         WithHistory.POST env request_json st
         = (Ok (errorResponse errorMessage (Some [])),
            snd (WithHistory.stored_or_client_history env clientHistory st))) \/
      (exists items turns geminiResult,
         history_in_use env clientHistory = Some (JArr items) /\
         geminiHistory_of (Some (JArr items)) = Ok turns /\
         fst (understand env (trim (string_of query)) turns
                (snd (WithHistory.stored_or_client_history env clientHistory st)))
           = Ok geminiResult /\
         WithHistory.POST env request_json st
         = match WithHistory.vector_search env geminiResult (trim (string_of query))
                   (snd (understand env (trim (string_of query)) turns
                           (snd (WithHistory.stored_or_client_history env clientHistory
                                   st)))) with
           | (Ok matched, st') =>
               let response :=
                 finalResponse geminiResult (finalProductCards matched) (searchNote st') in
               let pushed :=
                 items ++ [WithHistory.user_turn (trim (string_of query));
                           WithHistory.bot_turn (res_advice (response None))] in
               (Ok {| body := ChatBody (response (Some pushed)); status := 200 |},
                snd (WithHistory.store_history env (WithHistory.limit_history env pushed)
                       st'))
           | (Throw errorMessage, st') =>
               (Ok (errorResponse errorMessage (Some [])), st')
           end))).
Proof.
  unfold WithHistory.POST.
  destruct request_json as [body|e]; [|left; eexists; split; [reflexivity | discriminate]].
  destruct (destructure body) as [[query clientHistory]|e] eqn:Hdes;
    [|left; unfold try_catch, bind, lift; rewrite Hdes;
      eexists; split; [reflexivity | discriminate]].
  destruct (invalid_query query) eqn:Hinv;
    [left; unfold try_catch, bind, lift; rewrite Hdes; cbv beta iota; rewrite Hinv;
     eexists; split; [reflexivity | discriminate]|].
  right. exists body, query, clientHistory.
  repeat (split; [first [reflexivity | assumption]|]).
  destruct (stored_or_client_history_run env clientHistory st) as (Hh & _).
  unfold try_catch, bind, lift. rewrite Hdes. cbv beta iota. rewrite Hinv.
  destruct (WithHistory.stored_or_client_history env clientHistory st) as [[h|e] s0];
    simpl in Hh; [|discriminate].
  injection Hh as ->. cbn [snd].
  destruct (geminiHistory_of (history_in_use env clientHistory)) as [turns|e] eqn:Hturns;
    [|left; eexists; reflexivity].
  right.
  destruct (geminiHistory_of_array _ _ Hturns) as [items Hitems].
  rewrite Hitems in Hturns |- *.
  destruct (understand_run env (trim (string_of query)) turns s0) as (g & Hg & _).
  exists items, turns, g.
  repeat (split; [first [reflexivity | assumption]|]).
  destruct (understand env (trim (string_of query)) turns s0) as [[g'|e] s1]; simpl in Hg;
    [|discriminate].
  injection Hg as ->. cbn [snd].
  destruct (WithHistory.vector_search env g (trim (string_of query)) s1)
    as [[matched|e] s2]; [|reflexivity].
  unfold get_searchNote, array_items. cbv beta iota zeta.
  destruct (store_history_run env
              (WithHistory.limit_history env
                 (items ++ [WithHistory.user_turn (trim (string_of query));
                            WithHistory.bot_turn
                              (res_advice (finalResponse g (finalProductCards matched)
                                             (searchNote s2) None))])) s2) as (Hs & _).
  destruct (WithHistory.store_history _ _ s2) as [[[]|e] s3]; simpl in Hs; [|discriminate].
  reflexivity.
Qed.

Lemma serve_stateless env request_json :
  Stateless.POST env request_json initial_state
  = (Ok (fst (Stateless.serve env request_json)), snd (Stateless.serve env request_json)).
Proof.
  unfold Stateless.serve.
  destruct (stateless_POST_run env request_json initial_state)
    as [(response & -> & _) | (body & query & history & turns & g & _ & _ & _ & _ & _ & ->)];
    [reflexivity|].
  destruct (Stateless.vector_search _ _ _ _) as [[matched|e] s2]; reflexivity.
Qed.

Lemma serve_history env request_json :
  WithHistory.POST env request_json initial_state
  = (Ok (fst (WithHistory.serve env request_json)),
     snd (WithHistory.serve env request_json)).
Proof.
  unfold WithHistory.serve.
  destruct (history_POST_run env request_json initial_state)
    as [(response & -> & _)
       | (body & query & clientHistory & _ & _ & _ &
          [(e & ->) | (items & turns & g & _ & _ & _ & ->)])];
    [reflexivity | reflexivity |].
  destruct (WithHistory.vector_search _ _ _ _) as [[matched|e] s2]; reflexivity.
Qed.


(** [hoare Pre m Post]: from a state that satisfies [Pre], a normal
    completion of [m] yields a value and a state that satisfy [Post]. *)

(** [m] keeps the property [I] of the search note. *)

(** The note before the fallback search: none, or the note of a failed
    query. *)

(** The note Stage 2 leaves for what it found. *)
Lemma hoare_ret {A} (a : A) (Pre : state -> Prop) (Post : A -> state -> Prop) :
  (forall st, Pre st -> Post a st) -> hoare Pre (ret a) Post.
Proof. intros H st a' st' Hpre [= <- <-]. apply H, Hpre. Qed.

Lemma hoare_bind {A B} (m : M A) (k : A -> M B) (Pre : state -> Prop)
    (Mid : A -> state -> Prop) (Post : B -> state -> Prop) :
  hoare Pre m Mid -> (forall a, hoare (Mid a) (k a) Post) -> hoare Pre (bind m k) Post.
Proof.
  intros Hm Hk st b st' Hpre Hrun.
  apply bind_Ok in Hrun as (a & st1 & Hm1 & Hk1).
  exact (Hk a st1 b st' (Hm st a st1 Hpre Hm1) Hk1).
Qed.

Lemma hoare_conseq {A} (m : M A) (Pre Pre' : state -> Prop) (Post Post' : A -> state -> Prop) :
  hoare Pre m Post -> (forall st, Pre' st -> Pre st) ->
  (forall a st, Post a st -> Post' a st) -> hoare Pre' m Post'.
Proof. intros Hm Hpre Hpost st a st' H Hrun. apply Hpost, (Hm st a st'); auto. Qed.

Lemma keeps_note_ret {A} (a : A) (I : string -> Prop) : keeps_note I (ret a).
Proof. apply hoare_ret. auto. Qed.

Lemma keeps_note_bind {A B} (m : M A) (k : A -> M B) (I : string -> Prop) :
  keeps_note I m -> (forall a, keeps_note I (k a)) -> keeps_note I (bind m k).
Proof. intros Hm Hk. eapply hoare_bind; [exact Hm | exact Hk]. Qed.

Section SearchNote.
Variable env : Env.
Variable geminiResult : GeminiResult.
Variable trimmedQuery : string.
Variable SIMILARITY_THRESHOLD : Q.
Variable record_checks : Filter.t -> QueryResult -> completion bool.
Variable card_tags : QueryResult -> option json.

(** A query leaves the note as it is or sets the note of a failed
    query. *)
Lemma performVectorQuery_note (I : string -> Prop) searchText k filter :
  I query_failed_note ->
  keeps_note I (performVectorQuery env geminiResult record_checks searchText k filter).
Proof.
  intros HI st a st' Hpre. unfold performVectorQuery.
  destruct (vectorIndex env) as [index|]; [|intros [= _ <-]; exact Hpre].
  destruct (is_blank searchText); [intros [= _ <-]; exact Hpre|].
  unfold try_catch, bind, get_queries_made, emit, set_searchNote, ret, throw, lift.
  cbn -[filterM sort].
  destruct (index (queries_made st) searchText k) as [|[|r results]];
    try (intros [= _ <-]; first [exact Hpre | exact HI]).
  destruct (filterM _ _); intros [= _ <-]; first [exact Hpre | exact HI].
Qed.

Lemma performVectorQuery_keywords_note (I : string -> Prop) searchKeywords k filter :
  I query_failed_note ->
  keeps_note I
    (performVectorQuery_keywords env geminiResult record_checks searchKeywords k filter).
Proof.
  intros HI. destruct searchKeywords as [searchText|]; [apply performVectorQuery_note, HI|].
  unfold performVectorQuery_keywords.
  destruct (vectorIndex env); [|apply keeps_note_ret].
  intros st a st' _ Hrun. discriminate Hrun.
Qed.

Lemma multi_type_step_note (I : string -> Prop) acc productType :
  I query_failed_note ->
  keeps_note I (multi_type_step env geminiResult trimmedQuery record_checks acc productType).
Proof.
  intros HI. unfold multi_type_step. destruct acc as [topMatches usedProductIds].
  destruct productType; try (intros st a st' _ Hrun; discriminate Hrun).
  apply keeps_note_bind; [apply performVectorQuery_keywords_note, HI|]. intros results1.
  apply keeps_note_bind.
  { destruct (no_results results1);
      [apply performVectorQuery_keywords_note, HI | apply keeps_note_ret]. }
  intros results2. apply keeps_note_bind.
  { destruct (no_results results2); [apply performVectorQuery_note, HI | apply keeps_note_ret]. }
  intros [[|r rs]|]; apply keeps_note_ret.
Qed.

Lemma multi_type_loop_note (I : string -> Prop) types : forall acc,
  I query_failed_note ->
  keeps_note I (multi_type_loop env geminiResult trimmedQuery record_checks acc types).
Proof.
  induction types as [|t types IH]; intros acc HI; simpl multi_type_loop.
  - apply keeps_note_ret.
  - apply keeps_note_bind; [apply multi_type_step_note, HI|]. intros acc'. apply IH, HI.
Qed.

(** Before the fallback search the stage is not the fallback stage and
    the note is an early one. *)
Lemma first_searches_note :
  hoare (fun st => searchNote st = "")
    (if (0 <? length (product_types geminiResult))%nat
     then bind (multi_type_loop env geminiResult trimmedQuery record_checks ([], ∅)
                  (product_types geminiResult))
               (fun acc => ret (fst acc, MultiTypeQuery))
     else single_intent env geminiResult trimmedQuery SIMILARITY_THRESHOLD record_checks)
    (fun found st' => is_fallback (snd found) = false /\ early_note (searchNote st')).
Proof.
  assert (Hfailed : early_note query_failed_note) by (right; reflexivity).
  destruct (0 <? length (product_types geminiResult))%nat.
  - eapply hoare_bind with (Mid := fun _ st => early_note (searchNote st)).
    + eapply hoare_conseq; [apply (multi_type_loop_note early_note), Hfailed| |auto].
      intros st Hst. left. exact Hst.
    + intros acc. apply hoare_ret. intros st Hst. split; [reflexivity | exact Hst].
  - unfold single_intent.
    eapply hoare_bind
      with (Mid := fun found st => is_fallback (snd found) = false /\
                                   early_note (searchNote st)).
    + destruct (negb (is_blank (search_keywords geminiResult))).
      * eapply hoare_bind with (Mid := fun _ st => early_note (searchNote st)).
        { eapply hoare_conseq;
            [apply (performVectorQuery_note early_note), Hfailed| |auto].
          intros st Hst. left. exact Hst. }
        intros [results|]; apply hoare_ret; intros st Hst; split;
          first [reflexivity | exact Hst].
      * apply hoare_ret. intros st Hst. split; [reflexivity | left; exact Hst].
    + intros [topMatches stage]. simpl snd.
      destruct (_ || _).
      * eapply hoare_bind
          with (Mid := fun _ st => is_fallback stage = false /\ early_note (searchNote st)).
        { intros st a st' [Hstage Hnote] Hrun. split; [exact Hstage|].
          exact (performVectorQuery_note early_note _ _ _ Hfailed st a st' Hnote Hrun). }
        intros [results|]; apply hoare_ret; intros st [Hstage Hst]; split;
          first [reflexivity | assumption].
      * apply hoare_ret. auto.
Qed.

Lemma fallback_search_note found :
  is_fallback (snd found) = false ->
  hoare (fun st => early_note (searchNote st))
    (fallback_search env geminiResult SIMILARITY_THRESHOLD record_checks found)
    (fun found' st' =>
       if is_fallback (snd found') then searchNote st' = related_products_note
       else early_note (searchNote st')).
Proof.
  assert (Hfailed : early_note query_failed_note) by (right; reflexivity).
  intros Hstage. unfold fallback_search. destruct found as [topMatches stage].
  simpl in Hstage.
  destruct (_ || _).
  - eapply hoare_bind with (Mid := fun _ st => early_note (searchNote st));
      [apply (performVectorQuery_note early_note), Hfailed|].
    intros [results|].
    + intros st a st' _. unfold bind, set_searchNote, ret. intros [= <- <-]. reflexivity.
    + apply hoare_ret. intros st Hst. simpl. rewrite Hstage. exact Hst.
  - apply hoare_ret. intros st Hst. simpl. rewrite Hstage. exact Hst.
Qed.

Lemma process_matches_note found :
  hoare (fun st => if is_fallback (snd found) then searchNote st = related_products_note
                   else early_note (searchNote st))
    (process_matches geminiResult SIMILARITY_THRESHOLD card_tags found)
    (fun matched st' => note_of_search SIMILARITY_THRESHOLD matched (searchNote st')).
Proof.
  destruct found as [topMatches stage]. intros st matched st' Hpre. simpl in Hpre.
  unfold process_matches, note_of_search.
  destruct topMatches as [|m0 rest].
  { unfold bind, set_searchNote, ret. simpl. intros [= <- <-]. reflexivity. }
  change (0 <? length (m0 :: rest))%nat with true. cbv iota zeta.
  generalize (if sort_by_price geminiResult
              then sort by_price
                     (List.filter metadata_not_null
                        (slice_to (requestedCount geminiResult)
                           (List.filter has_valid_metadata (m0 :: rest))))
              else slice_to (requestedCount geminiResult)
                     (List.filter has_valid_metadata (m0 :: rest))).
  intros validMatches. unfold bind, set_searchNote, ret.
  destruct validMatches as [|v vs].
  { simpl. intros [= <- <-]. simpl. destruct (is_fallback stage); exact Hpre. }
  change (0 <? length (v :: vs))%nat with true.
  destruct (is_fallback stage) eqn:Hstage.
  { simpl. intros [= <- <-]. simpl. rewrite Hstage. exact Hpre. }
  cbn [negb andb].
  destruct (List.filter (above_threshold SIMILARITY_THRESHOLD) (v :: vs)) as [|p ps] eqn:Hpass.
  { simpl. intros [= <- <-].
    cbn [topMatches searchStageUsed validMatches searchNote].
    rewrite Hstage, Hpass. exact Hpre. }
  simpl. intros [= <- <-]. cbn [topMatches searchStageUsed validMatches searchNote].
  rewrite Hstage, Hpass. reflexivity.
Qed.

Lemma vector_search_note :
  hoare (fun st => searchNote st = "")
    (vector_search env geminiResult trimmedQuery SIMILARITY_THRESHOLD record_checks card_tags)
    (fun matched st' => note_of_search SIMILARITY_THRESHOLD matched (searchNote st')).
Proof.
  unfold vector_search.
  eapply hoare_bind; [apply first_searches_note|].
  intros found. eapply hoare_bind
    with (Mid := fun found' st' =>
                   if is_fallback (snd found') then searchNote st' = related_products_note
                   else early_note (searchNote st')).
  - intros st a st' [Hstage Hnote] Hrun.
    exact (fallback_search_note found Hstage st a st' Hnote Hrun).
  - intros found'. apply process_matches_note.
Qed.

End SearchNote.

(* ================================================================== *)
(** * The calls, the history and the note of a response *)
(* ================================================================== *)

Lemma serve_stateless_snd env request_json :
  snd (Stateless.serve env request_json)
  = snd (Stateless.POST env request_json initial_state).
Proof. rewrite serve_stateless. reflexivity. Qed.

Lemma serve_history_snd env request_json :
  snd (WithHistory.serve env request_json)
  = snd (WithHistory.POST env request_json initial_state).
Proof. rewrite serve_history. reflexivity. Qed.

Lemma model_calls_cases env trimmedQuery turns :
  model_calls env trimmedQuery turns = [] \/
  (geminiModel env <> None /\
   model_calls env trimmedQuery turns
   = [GenerateContent trimmedQuery (slice_from (-4) turns)]).
Proof.
  unfold model_calls. destruct (geminiModel env); [right | left; reflexivity].
  split; [discriminate | reflexivity].
Qed.

(** The calls of a request to the stateless handler. *)
Lemma stateless_POST_trace env request_json st :
  trace (snd (Stateless.POST env request_json st)) = trace st \/
  exists body query history turns geminiResult queries,
    request_json = Ok body /\ destructure body = Ok (query, history) /\
    invalid_query query = false /\ geminiHistory_of history = Ok turns /\
    trace (snd (Stateless.POST env request_json st))
      = trace st ++ model_calls env (trim (string_of query)) turns ++ queries /\
    Forall (index_query env (topK geminiResult)) queries.
Proof.
  destruct (stateless_POST_run env request_json st)
    as [(response & -> & _) | (body & query & history & turns & g & Hb & Hd & Hi & Ht & Hg & ->)];
    [left; reflexivity | right].
  destruct (understand_run env (trim (string_of query)) turns st) as (g' & Hg' & _ & Htrace).
  destruct (vector_search_queries env g (trim (string_of query)) Stateless.SIMILARITY_THRESHOLD
              (Stateless.record_checks env g) (fun _ => None)
              (snd (understand env (trim (string_of query)) turns st)))
    as (queries & Hq & Hall & _).
  exists body, query, history, turns, g, queries.
  repeat (split; [assumption|]). split; [|exact Hall].
  fold (Stateless.vector_search env g (trim (string_of query))) in Hq.
  destruct (Stateless.vector_search env g _ _) as [[matched|e] s2]; simpl in Hq |- *;
    rewrite Hq, Htrace, app_assoc; reflexivity.
Qed.

(** The calls of a request to the history handler. *)
Lemma history_POST_trace env request_json st :
  trace (snd (WithHistory.POST env request_json st)) = trace st \/
  exists body query clientHistory,
    request_json = Ok body /\ destructure body = Ok (query, clientHistory) /\
    invalid_query query = false /\
    (trace (snd (WithHistory.POST env request_json st)) = trace st ++ redis_reads env \/
     exists items turns geminiResult queries writes,
       history_in_use env clientHistory = Some (JArr items) /\
       geminiHistory_of (Some (JArr items)) = Ok turns /\
       trace (snd (WithHistory.POST env request_json st))
         = trace st ++ redis_reads env ++ model_calls env (trim (string_of query)) turns
             ++ queries ++ writes /\
       Forall (index_query env (topK geminiResult)) queries /\
       (writes = [] \/
        exists response value,
          fst (WithHistory.POST env request_json st) = Ok response /\
          status response = 200%nat /\ writes = redis_writes env value)).
Proof.
  destruct (history_POST_run env request_json st)
    as [(response & -> & _)
       | (body & query & clientHistory & Hb & Hd & Hi &
          [(e & ->) | (items & turns & g & Hh & Ht & Hg & ->)])];
    [left; reflexivity | right | right];
    exists body, query, clientHistory; repeat (split; [assumption|]).
  { left. apply stored_or_client_history_run. }
  right.
  destruct (stored_or_client_history_run env clientHistory st) as (_ & _ & Hreads).
  set (s0 := snd (WithHistory.stored_or_client_history env clientHistory st)) in *.
  destruct (understand_run env (trim (string_of query)) turns s0) as (g' & _ & _ & Hllm).
  set (s1 := snd (understand env (trim (string_of query)) turns s0)) in *.
  destruct (vector_search_queries env g (trim (string_of query))
              WithHistory.SIMILARITY_THRESHOLD
              (WithHistory.record_checks env g) WithHistory.card_tags s1)
    as (queries & Hq & Hall & _).
  fold (WithHistory.vector_search env g (trim (string_of query))) in Hq.
  destruct (WithHistory.vector_search env g _ s1) as [[matched|e] s2]; simpl in Hq.
  - cbv zeta.
    match goal with
    | |- context [WithHistory.store_history env ?v s2] =>
        destruct (store_history_run env v s2) as (_ & _ & Hw);
        exists items, turns, g, queries, (redis_writes env v)
    end.
    repeat (split; [assumption|]). split; [|split; [exact Hall|]].
    + cbn [snd]. rewrite Hw, Hq, Hllm, Hreads. rewrite <- !app_assoc. reflexivity.
    + right. eexists _, _. split; [reflexivity|]. split; reflexivity.
  - exists items, turns, g, queries, []. repeat (split; [assumption|]).
    split; [|split; [exact Hall | left; reflexivity]].
    cbn [snd]. rewrite Hq, Hllm, Hreads, app_nil_r. rewrite <- !app_assoc. reflexivity.
Qed.

(** The order and the number of the calls of a request.  The stateless
    handler calls the model at most once and then only the index.  The
    history handler reads the stored history at most once, then calls
    the model at most once, then only the index, and writes the history
    at most once, as its last call and only when it answers with status
    200. *)
Theorem calls_are_made_in_order :
  forall (env : Env) (request_json : completion json),
    (exists llm queries k,
       trace (snd (Stateless.serve env request_json)) = llm ++ queries /\
       (llm = [] \/ exists q h, geminiModel env <> None /\ llm = [GenerateContent q h]) /\
       Forall (index_query env k) queries) /\
    (exists reads llm queries writes k,
       trace (snd (WithHistory.serve env request_json))
         = reads ++ llm ++ queries ++ writes /\
       (reads = [] \/ (redis env <> None /\ reads = [RedisGet WithHistory.history_key])) /\
       (llm = [] \/ exists q h, geminiModel env <> None /\ llm = [GenerateContent q h]) /\
       Forall (index_query env k) queries /\
       (writes = [] \/
        exists value,
          redis env <> None /\
          writes = [RedisSet WithHistory.history_key value (60 * 60 * 24)] /\
          status (fst (WithHistory.serve env request_json)) = 200%nat)).
Proof.
  intros env request_json. split.
  - rewrite serve_stateless_snd.
    destruct (stateless_POST_trace env request_json initial_state)
      as [-> | (body & query & history & turns & g & queries & _ & _ & _ & _ & -> & Hall)].
    + exists [], [], 0%Q. split; [reflexivity|]. split; [left; reflexivity | constructor].
    + exists (model_calls env (trim (string_of query)) turns), queries, (topK g).
      split; [reflexivity|]. split; [|exact Hall].
      destruct (model_calls_cases env (trim (string_of query)) turns) as [-> | [Hm ->]];
        [left; reflexivity | right; eauto].
  - assert (Hreads : redis_reads env = [] \/
                     (redis env <> None /\ redis_reads env = [RedisGet WithHistory.history_key])).
    { unfold redis_reads. destruct (redis env); [right | left; reflexivity].
      split; [discriminate | reflexivity]. }
    rewrite serve_history_snd.
    pose proof (serve_history env request_json) as Hserve.
    destruct (history_POST_trace env request_json initial_state)
      as [-> | (body & query & clientHistory & _ & _ & _ &
                [-> | (items & turns & g & queries & writes & _ & _ & -> & Hall & Hw)])].
    + exists [], [], [], [], 0%Q. split; [reflexivity|].
      repeat split; first [left; reflexivity | constructor].
    + exists (redis_reads env), [], [], [], 0%Q. split; [simpl; rewrite app_nil_r; reflexivity|].
      split; [exact Hreads|]. repeat split; first [left; reflexivity | constructor].
    + exists (redis_reads env), (model_calls env (trim (string_of query)) turns),
             queries, writes, (topK g).
      split; [reflexivity|]. split; [exact Hreads|]. split; [|split; [exact Hall|]].
      * destruct (model_calls_cases env (trim (string_of query)) turns) as [-> | [Hm ->]];
          [left; reflexivity | right; eauto].
      * destruct Hw as [-> | (response & value & Hfst & Hstatus & ->)]; [left; reflexivity|].
        unfold redis_writes. destruct (redis env); [right | left; reflexivity].
        exists value. split; [discriminate|]. split; [reflexivity|].
        rewrite Hserve in Hfst. simpl in Hfst. injection Hfst as <-. exact Hstatus.
Qed.

Lemma has_text_true (msg : json) :
  has_text msg = Ok true ->
  exists text, prop msg "text" = Some (JStr text) /\ is_blank text = false.
Proof.
  unfold has_text. destruct msg; try discriminate.
  all: destruct (truthy (prop _ "text")); [|discriminate].
  all: destruct (prop _ "text") as [[| | |text| |]|]; try discriminate.
  all: intros [= H]; exists text; split; [reflexivity|].
  all: destruct (is_blank text); [discriminate | reflexivity].
Qed.

(** Every turn sent to the model has one of the two roles and a content
    that is not blank. *)
Lemma geminiHistory_of_spoken history turns :
  geminiHistory_of history = Ok turns -> Forall spoken_turn turns.
Proof.
  unfold geminiHistory_of.
  destruct (array_items history) as [items|]; simpl; [|discriminate].
  destruct (filterM has_text items) as [kept|] eqn:Hkept; simpl; [|discriminate].
  intros [= <-]. apply filterM_Ok in Hkept as [_ Hall].
  apply Forall_map. eapply Forall_impl; [exact Hall|].
  intros msg Hmsg. apply has_text_true in Hmsg as (text & Htext & Hblank).
  unfold spoken_turn, to_gemini_turn. simpl. rewrite Htext. simpl. split; [|exact Hblank].
  destruct (prop msg "role") as [[| | |r| |]|]; auto.
  destruct (_ || _); auto.
Qed.

Lemma slice_from_last {A} (l : list A) : slice_from (-4) l = drop (length l - 4) l.
Proof. unfold slice_from. simpl. f_equal. lia. Qed.

Lemma last_four_spoken turns :
  Forall spoken_turn turns ->
  slice_from (-4) turns = drop (length turns - 4) turns /\
  (length (slice_from (-4) turns) <= 4)%nat /\
  Forall spoken_turn (slice_from (-4) turns).
Proof.
  intros Hall. rewrite slice_from_last. split; [reflexivity|].
  split; [rewrite length_drop; lia | apply Forall_drop, Hall].
Qed.

Lemma invalid_query_false (query : option json) :
  invalid_query query = false -> exists s, query = Some (JStr s) /\ trim s <> "".
Proof.
  unfold invalid_query. destruct query as [[| | |s| |]|]; simpl;
    rewrite ?orb_true_r; try discriminate.
  intros H. apply orb_false_iff in H as [_ H]. exists s. split; [reflexivity|].
  unfold is_blank in H. intros Heq. rewrite Heq in H. discriminate.
Qed.

Lemma index_query_not_model env k q h : ~ index_query env k (GenerateContent q h).
Proof. intros (index & text & _ & H & _). discriminate. Qed.

Lemma model_call_found env trimmedQuery turns q h (before after : list event) :
  GenerateContent q h ∈ before ++ model_calls env trimmedQuery turns ++ after ->
  (forall e, e ∈ before -> e <> GenerateContent q h) ->
  (forall e, e ∈ after -> e <> GenerateContent q h) ->
  q = trimmedQuery /\ h = slice_from (-4) turns.
Proof.
  intros Hin Hbefore Hafter.
  apply elem_of_app in Hin as [Hin | Hin]; [exfalso; exact (Hbefore _ Hin eq_refl)|].
  apply elem_of_app in Hin as [Hin | Hin]; [|exfalso; exact (Hafter _ Hin eq_refl)].
  unfold model_calls in Hin. destruct (geminiModel env); [|inversion Hin].
  apply list_elem_of_singleton in Hin. injection Hin as -> ->. split; reflexivity.
Qed.

(** What the model is shown.  Whenever a handler calls the model, it is
    with the trimmed query, which is not empty, and with the last four
    of the turns of the history that have a text: at most four turns,
    each with the role 'user' or 'assistant' and a content that is not
    blank.  The history is the client's in the stateless handler, and the
    history in use (the stored one when Redis has an array) in the
    history handler. *)
Theorem model_is_shown_the_last_four_turns :
  forall (env : Env) (request_json : completion json) (q : string) (h : list GeminiTurn),
    (GenerateContent q h ∈ trace (snd (Stateless.serve env request_json)) ->
     exists body query history turns,
       request_json = Ok body /\ destructure body = Ok (Some (JStr query), history) /\
       q = trim query /\ q <> "" /\
       geminiHistory_of history = Ok turns /\
       h = drop (length turns - 4) turns /\
       (length h <= 4)%nat /\ Forall spoken_turn h) /\
    (GenerateContent q h ∈ trace (snd (WithHistory.serve env request_json)) ->
     exists body query clientHistory turns,
       request_json = Ok body /\ destructure body = Ok (Some (JStr query), clientHistory) /\
       q = trim query /\ q <> "" /\
       geminiHistory_of (history_in_use env clientHistory) = Ok turns /\
       h = drop (length turns - 4) turns /\
       (length h <= 4)%nat /\ Forall spoken_turn h).
Proof.
  intros env request_json q h. split.
  - rewrite serve_stateless_snd.
    destruct (stateless_POST_trace env request_json initial_state)
      as [-> | (body & query & history & turns & g & queries & Hb & Hd & Hi & Ht & -> & Hall)];
      [intros Hin; inversion Hin|].
    intros Hin.
    destruct (model_call_found env (trim (string_of query)) turns q h [] queries Hin)
      as [-> ->].
    { intros e He. inversion He. }
    { intros e He ->. rewrite Forall_forall in Hall.
      exact (index_query_not_model _ _ _ _ (Hall _ He)). }
    destruct (invalid_query_false _ Hi) as (s & -> & Hs).
    destruct (last_four_spoken turns (geminiHistory_of_spoken _ _ Ht)) as (Heq & Hlen & Hsp).
    exists body, s, history, turns. simpl string_of. rewrite <- Heq. auto 10.
  - rewrite serve_history_snd.
    destruct (history_POST_trace env request_json initial_state)
      as [-> | (body & query & clientHistory & Hb & Hd & Hi &
                [-> | (items & turns & g & queries & writes & Hh & Ht & -> & Hall & Hw)])].
    + intros Hin; inversion Hin.
    + simpl. unfold redis_reads. destruct (redis env); intros Hin.
      * apply list_elem_of_singleton in Hin. discriminate.
      * inversion Hin.
    + intros Hin.
      destruct (model_call_found env (trim (string_of query)) turns q h (redis_reads env)
                  (queries ++ writes)) as [-> ->].
      { simpl in Hin. exact Hin. }
      { unfold redis_reads. destruct (redis env); intros e He.
        - apply list_elem_of_singleton in He. subst e. discriminate.
        - inversion He. }
      { intros e He ->. apply elem_of_app in He as [He | He].
        - rewrite Forall_forall in Hall. exact (index_query_not_model _ _ _ _ (Hall _ He)).
        - destruct Hw as [-> | (response & value & _ & _ & ->)]; [inversion He|].
          unfold redis_writes in He. destruct (redis env); [|inversion He].
          apply list_elem_of_singleton in He. discriminate. }
      destruct (invalid_query_false _ Hi) as (s & -> & Hs).
      destruct (last_four_spoken turns (geminiHistory_of_spoken _ _ Ht)) as (Heq & Hlen & Hsp).
      exists body, s, clientHistory, turns. simpl string_of. rewrite <- Heq, Hh. auto 10.
Qed.

(** Of six turns one has no text; the last four of the other five are
    sent, with the roles 'bot' and 'model' turned into 'assistant'. *)
Lemma model_is_shown_the_last_four_turns_witness :
  GenerateContent "and a balm"
    [mkGeminiTurn "assistant" "Hi! How can I help?"; mkGeminiTurn "user" "a lipstick";
     mkGeminiTurn "user" "a cheaper one"; mkGeminiTurn "assistant" "Here is a cheaper one."]
    ∈ trace (snd (Stateless.serve (failing_model []) request_with_six_turns)) /\
  exists body query history turns,
    request_with_six_turns = Ok body /\
    destructure body = Ok (Some (JStr query), history) /\
    "and a balm" = trim query /\ "and a balm" <> "" /\
    geminiHistory_of history = Ok turns /\
    [mkGeminiTurn "assistant" "Hi! How can I help?"; mkGeminiTurn "user" "a lipstick";
     mkGeminiTurn "user" "a cheaper one"; mkGeminiTurn "assistant" "Here is a cheaper one."]
    = drop (length turns - 4) turns /\
    (4 <= 4)%nat /\
    Forall spoken_turn
      [mkGeminiTurn "assistant" "Hi! How can I help?"; mkGeminiTurn "user" "a lipstick";
       mkGeminiTurn "user" "a cheaper one";
       mkGeminiTurn "assistant" "Here is a cheaper one."].
Proof.
  assert (Hin : GenerateContent "and a balm"
    [mkGeminiTurn "assistant" "Hi! How can I help?"; mkGeminiTurn "user" "a lipstick";
     mkGeminiTurn "user" "a cheaper one"; mkGeminiTurn "assistant" "Here is a cheaper one."]
    ∈ trace (snd (Stateless.serve (failing_model []) request_with_six_turns))).
  { vm_compute. left. }
  split; [exact Hin|].
  exact (proj1 (model_is_shown_the_last_four_turns (failing_model [])
                  request_with_six_turns _ _) Hin).
Defined.

(** A response with status 200 of the stateless handler: Stage 2 has
    returned, from a state whose note is the initial one. *)
Lemma stateless_POST_200 env request_json :
  status (fst (Stateless.serve env request_json)) = 200%nat ->
  exists body query history turns geminiResult st1 matched st2,
    request_json = Ok body /\ destructure body = Ok (query, history) /\
    invalid_query query = false /\ geminiHistory_of history = Ok turns /\
    fst (understand env (trim (string_of query)) turns initial_state) = Ok geminiResult /\
    searchNote st1 = "" /\
    Stateless.vector_search env geminiResult (trim (string_of query)) st1
      = (Ok matched, st2) /\
    fst (Stateless.serve env request_json)
    = {| body := ChatBody (finalResponse geminiResult (finalProductCards matched)
                             (searchNote st2) None);
         status := 200 |}.
Proof.
  pose proof (serve_stateless env request_json) as Hserve.
  destruct (stateless_POST_run env request_json initial_state)
    as [(response & Hrun & Hstatus)
       | (body & query & history & turns & g & Hb & Hd & Hi & Ht & Hg & Hrun)];
    rewrite Hrun in Hserve.
  { injection Hserve as <- _. contradiction. }
  destruct (understand_run env (trim (string_of query)) turns initial_state)
    as (g' & _ & Hnote & _).
  destruct (Stateless.vector_search env g (trim (string_of query)) _)
    as [[matched|e] s2] eqn:Hsearch; injection Hserve as <- _; [|discriminate].
  intros _. eexists body, query, history, turns, g, _, matched, s2.
  repeat (split; [first [eassumption | reflexivity]|]). reflexivity.
Qed.

Lemma history_POST_200 env request_json :
  status (fst (WithHistory.serve env request_json)) = 200%nat ->
  exists body query clientHistory items turns geminiResult st1 matched st2,
    request_json = Ok body /\ destructure body = Ok (query, clientHistory) /\
    invalid_query query = false /\
    history_in_use env clientHistory = Some (JArr items) /\
    geminiHistory_of (Some (JArr items)) = Ok turns /\
    fst (understand env (trim (string_of query)) turns
           (snd (WithHistory.stored_or_client_history env clientHistory initial_state)))
      = Ok geminiResult /\
    searchNote st1 = "" /\
    WithHistory.vector_search env geminiResult (trim (string_of query)) st1
      = (Ok matched, st2) /\
    fst (WithHistory.serve env request_json)
    = {| body :=
           ChatBody
             (finalResponse geminiResult (finalProductCards matched) (searchNote st2)
                (Some (items ++
                       [WithHistory.user_turn (trim (string_of query));
                        WithHistory.bot_turn
                          (res_advice (finalResponse geminiResult
                                         (finalProductCards matched) (searchNote st2)
                                         None))])));
         status := 200 |}.
Proof.
  pose proof (serve_history env request_json) as Hserve.
  destruct (history_POST_run env request_json initial_state)
    as [(response & Hrun & Hstatus)
       | (body & query & clientHistory & Hb & Hd & Hi &
          [(e & Hrun) | (items & turns & g & Hh & Ht & Hg & Hrun)])];
    rewrite Hrun in Hserve.
  { injection Hserve as <- _. contradiction. }
  { injection Hserve as <- _. discriminate. }
  destruct (stored_or_client_history_run env clientHistory initial_state) as (_ & Hn0 & _).
  destruct (understand_run env (trim (string_of query)) turns
              (snd (WithHistory.stored_or_client_history env clientHistory initial_state)))
    as (g' & _ & Hnote & _).
  rewrite Hn0 in Hnote.
  destruct (WithHistory.vector_search env g (trim (string_of query)) _)
    as [[matched|e] s2] eqn:Hsearch; injection Hserve as <- _; [|discriminate].
  intros _. eexists body, query, clientHistory, items, turns, g, _, matched, s2.
  repeat (split; [first [eassumption | reflexivity]|]). reflexivity.
Qed.

(** Which history a request of the history handler continues.  When
    Redis returns the text of a JSON array, that array is the history: the
    response carries it with the two new turns, and the history sent by
    the client is not used.  The client's history is used when there is
    no Redis client or when what Redis returns is not such a text. *)
Theorem stored_history_replaces_the_clients :
  forall (env : Env) (request_json : completion json),
    status (fst (WithHistory.serve env request_json)) = 200%nat ->
    exists r requestBody query clientHistory items,
      body (fst (WithHistory.serve env request_json)) = ChatBody r /\
      request_json = Ok requestBody /\
      destructure requestBody = Ok (Some (JStr query), clientHistory) /\
      res_history r
        = Some (items ++ [WithHistory.user_turn (trim query);
                          WithHistory.bot_turn (res_advice r)]) /\
      (forall client stored,
         redis env = Some client -> redis_get client = GetText (Some (JArr stored)) ->
         items = stored) /\
      ((redis env = None \/
        exists client,
          redis env = Some client /\
          forall stored, redis_get client <> GetText (Some (JArr stored))) ->
       clientHistory = Some (JArr items)).
Proof.
  intros env request_json Hstatus.
  destruct (history_POST_200 env request_json Hstatus)
    as (body & query & clientHistory & items & turns & g & s1 & matched & s2 &
        Hb & Hd & Hi & Hh & _ & _ & _ & _ & ->).
  destruct (invalid_query_false _ Hi) as (s & -> & _).
  eexists _, body, s, clientHistory, items.
  split; [reflexivity|]. split; [exact Hb|]. split; [exact Hd|]. split; [reflexivity|].
  unfold history_in_use in Hh. split.
  - intros client stored Hclient Hget. rewrite Hclient, Hget in Hh.
    injection Hh as ->. reflexivity.
  - intros [Hnone | (client & Hclient & Hget)].
    + rewrite Hnone in Hh. exact Hh.
    + rewrite Hclient in Hh.
      destruct (redis_get client) as [| |[[| | | |stored|]|]]; try exact Hh.
      exfalso. exact (Hget stored eq_refl).
Qed.

(** Redis holds two turns and the client sends two others: the response
    continues the stored ones. *)
Lemma stored_history_replaces_the_clients_witness :
  status (fst (WithHistory.serve
                 (with_stored_history [WithHistory.user_turn "a stored question";
                                       WithHistory.bot_turn "A stored answer."])
                 request_with_history)) = 200%nat /\
  exists r requestBody query clientHistory items,
    body (fst (WithHistory.serve
                 (with_stored_history [WithHistory.user_turn "a stored question";
                                       WithHistory.bot_turn "A stored answer."])
                 request_with_history)) = ChatBody r /\
    request_with_history = Ok requestBody /\
    destructure requestBody = Ok (Some (JStr query), clientHistory) /\
    res_history r
      = Some (items ++ [WithHistory.user_turn (trim query);
                        WithHistory.bot_turn (res_advice r)]) /\
    (forall client stored,
       redis (with_stored_history [WithHistory.user_turn "a stored question";
                                   WithHistory.bot_turn "A stored answer."]) = Some client ->
       redis_get client = GetText (Some (JArr stored)) ->
       items = stored) /\
    ((redis (with_stored_history [WithHistory.user_turn "a stored question";
                                  WithHistory.bot_turn "A stored answer."]) = None \/
      exists client,
        redis (with_stored_history [WithHistory.user_turn "a stored question";
                                    WithHistory.bot_turn "A stored answer."]) = Some client /\
        forall stored, redis_get client <> GetText (Some (JArr stored))) ->
     clientHistory = Some (JArr items)).
Proof.
  split; [reflexivity|].
  apply (stored_history_replaces_the_clients
           (with_stored_history [WithHistory.user_turn "a stored question";
                                 WithHistory.bot_turn "A stored answer."])
           request_with_history).
  reflexivity.
Defined.

Lemma described_map card_tags description (l : list QueryResult) :
  described description (map (product_card card_tags description) l).
Proof. apply Forall_map, Forall_forall. intros m _. reflexivity. Qed.

(** The note goes with the cards of the threshold policy. *)
Lemma search_note_for_cards env geminiResult threshold record_checks card_tags matched note :
  search_outcome env geminiResult threshold record_checks card_tags matched ->
  note_of_search threshold matched note ->
  note_for_cards (finalProductCards matched) note.
Proof.
  intros Hout Hnote. unfold note_of_search in Hnote.
  destruct (topMatches matched) as [|m0 rest] eqn:Htop.
  - destruct Hout as (_ & Hvalid & Hcards). rewrite Htop in Hvalid.
    rewrite Hcards, Hvalid. left. split; [|exact Hnote].
    unfold threshold_policy. destruct (is_fallback _); reflexivity.
  - destruct (search_outcome_candidates _ _ _ _ _ _ Hout) as [_ Hne];
      [rewrite Htop; discriminate|].
    destruct Hout as (_ & _ & Hcards). rewrite Hcards.
    pose proof (threshold_policy_nonempty threshold card_tags (searchStageUsed matched)
                  _ Hne) as Hcards_ne.
    unfold threshold_policy in *. right.
    destruct (is_fallback (searchStageUsed matched)).
    { left. split; [exact Hcards_ne|]. split; [apply described_map | auto]. }
    destruct (List.filter (above_threshold threshold) (validMatches matched)) as [|p ps].
    { left. split; [exact Hcards_ne|]. split; [apply described_map|].
      destruct Hnote as [-> | ->]; auto. }
    right. split; [exact Hcards_ne|]. split; [apply described_map | exact Hnote].
Qed.

Lemma understand_fst_state env trimmedQuery turns st st' :
  fst (understand env trimmedQuery turns st) = fst (understand env trimmedQuery turns st').
Proof.
  unfold understand. destruct (geminiModel env) as [model|]; [|reflexivity].
  unfold try_catch, bind, emit, throw, ret. cbn [fst snd].
  destruct (model trimmedQuery (slice_from (-4) turns)) as [|[[]|]]; try reflexivity.
  all: destruct (valid_structure _); reflexivity.
Qed.

(** The note at the end of the advice agrees with the cards.  In a
    response with status 200 of either handler the advice is the advice
    of the intent, a blank line, the usage instructions and a note; the
    response has no card exactly when the note says that no product was
    found; cards described as found come with no note; and the note on
    related products comes only with cards described as related. *)
Theorem note_agrees_with_the_cards :
  forall (env : Env) (request_json : completion json),
    (status (fst (Stateless.serve env request_json)) = 200%nat ->
     exists r geminiResult note,
       body (fst (Stateless.serve env request_json)) = ChatBody r /\
       intent_of env request_json (fun history => history) geminiResult /\
       res_advice r = advice_with_note geminiResult note /\
       note_for_cards (response_cards r) note) /\
    (status (fst (WithHistory.serve env request_json)) = 200%nat ->
     exists r geminiResult note,
       body (fst (WithHistory.serve env request_json)) = ChatBody r /\
       intent_of env request_json (history_in_use env) geminiResult /\
       res_advice r = advice_with_note geminiResult note /\
       note_for_cards (response_cards r) note).
Proof.
  intros env request_json. split; intros Hstatus.
  - destruct (stateless_POST_200 env request_json Hstatus)
      as (body & query & history & turns & g & s1 & matched & s2 &
          Hb & Hd & Hi & Ht & Hg & Hnote & Hsearch & ->).
    destruct (invalid_query_false _ Hi) as (s & -> & _).
    eexists _, g, (searchNote s2). split; [reflexivity|].
    split; [exists body, s, history, turns; auto|].
    split; [reflexivity|]. rewrite response_cards_finalResponse.
    eapply search_note_for_cards.
    + exact (vector_search_outcome _ _ _ _ _ _ _ _ _ Hsearch).
    + exact (vector_search_note _ _ _ _ _ _ s1 matched s2 Hnote Hsearch).
  - destruct (history_POST_200 env request_json Hstatus)
      as (body & query & clientHistory & items & turns & g & s1 & matched & s2 &
          Hb & Hd & Hi & Hh & Ht & Hg & Hnote & Hsearch & ->).
    destruct (invalid_query_false _ Hi) as (s & -> & _).
    eexists _, g, (searchNote s2). split; [reflexivity|].
    split.
    { exists body, s, clientHistory, turns. rewrite Hh.
      rewrite (understand_fst_state env _ turns _ initial_state) in Hg. auto. }
    split; [reflexivity|]. rewrite response_cards_finalResponse.
    eapply search_note_for_cards.
    + exact (vector_search_outcome _ _ _ _ _ _ _ _ _ Hsearch).
    + exact (vector_search_note _ _ _ _ _ _ s1 matched s2 Hnote Hsearch).
Qed.

Lemma note_agrees_with_the_cards_witness :
  status (fst (Stateless.serve (index_only sample_catalogue)
                 cheapest_lipsticks_request)) = 200%nat /\
  exists r geminiResult note,
    body (fst (Stateless.serve (index_only sample_catalogue) cheapest_lipsticks_request))
      = ChatBody r /\
    intent_of (index_only sample_catalogue) cheapest_lipsticks_request
      (fun history => history) geminiResult /\
    res_advice r = advice_with_note geminiResult note /\
    note_for_cards (response_cards r) note.
Proof.
  split; [reflexivity|].
  apply (proj1 (note_agrees_with_the_cards (index_only sample_catalogue)
                  cheapest_lipsticks_request)).
  reflexivity.
Defined.

Lemma finalResponse_carries geminiResult cards note history :
  carries (finalResponse geminiResult cards note history) cards.
Proof. destruct cards as [|c1 [|c2 cards]]; split; reflexivity. Qed.

(** The cards of a response with status 200 are the final cards of
    Stage 2 as the request determines it: Stage 2 is run with the trimmed
    query of the request, on the intent that Stage 1 derives from that
    query and the history, in the state Stage 1 leaves.  One card is
    carried by [product_card], several by [complementary_products]. *)
Theorem response_cards_are_the_final_cards :
  forall (env : Env) (request_json : completion json),
    (status (fst (Stateless.serve env request_json)) = 200%nat ->
     exists r geminiResult matched,
       body (fst (Stateless.serve env request_json)) = ChatBody r /\
       stage2_of env request_json (fun history => history) (fun _ => initial_state)
         (Stateless.vector_search env) geminiResult matched /\
       response_cards r = finalProductCards matched /\
       carries r (finalProductCards matched)) /\
    (status (fst (WithHistory.serve env request_json)) = 200%nat ->
     exists r geminiResult matched,
       body (fst (WithHistory.serve env request_json)) = ChatBody r /\
       stage2_of env request_json (history_in_use env)
         (fun clientHistory =>
            snd (WithHistory.stored_or_client_history env clientHistory initial_state))
         (WithHistory.vector_search env) geminiResult matched /\
       response_cards r = finalProductCards matched /\
       carries r (finalProductCards matched)).
Proof.
  intros env request_json. split; intros Hstatus.
  - pose proof (serve_stateless env request_json) as Hserve.
    destruct (stateless_POST_run env request_json initial_state)
      as [(response & Hrun & Hne)
         | (body & query & history & turns & g & Hb & Hd & Hi & Ht & Hg & Hrun)];
      rewrite Hrun in Hserve.
    { injection Hserve as Hr _. rewrite <- Hr in Hstatus. contradiction. }
    destruct (invalid_query_false _ Hi) as (s & -> & _).
    cbn [string_of] in *.
    destruct (Stateless.vector_search env g (trim s) _) as [[matched|e] s2] eqn:Hsearch;
      injection Hserve as Hr _; rewrite <- Hr in Hstatus |- *; [|discriminate].
    eexists _, g, matched. split; [reflexivity|]. split.
    { exists body, s, history, turns. rewrite Hsearch. auto. }
    split; [apply response_cards_finalResponse | apply finalResponse_carries].
  - pose proof (serve_history env request_json) as Hserve.
    destruct (history_POST_run env request_json initial_state)
      as [(response & Hrun & Hne)
         | (body & query & clientHistory & Hb & Hd & Hi &
            [(e & Hrun) | (items & turns & g & Hh & Ht & Hg & Hrun)])];
      rewrite Hrun in Hserve.
    { injection Hserve as Hr _. rewrite <- Hr in Hstatus. contradiction. }
    { injection Hserve as Hr _. rewrite <- Hr in Hstatus. discriminate. }
    destruct (invalid_query_false _ Hi) as (s & -> & _).
    cbn [string_of] in *.
    destruct (WithHistory.vector_search env g (trim s) _) as [[matched|e] s2] eqn:Hsearch;
      injection Hserve as Hr _; rewrite <- Hr in Hstatus |- *; [|discriminate].
    eexists _, g, matched. split; [reflexivity|]. split.
    { exists body, s, clientHistory, turns. rewrite Hh, Hsearch. auto. }
    split; [apply response_cards_finalResponse | apply finalResponse_carries].
Qed.

(** The four cheapest lipsticks: the one card of the response is the final
    card of Stage 2 on the intent of the request. *)
Lemma response_cards_are_the_final_cards_witness :
  status (fst (Stateless.serve cheapest_lipsticks_env cheapest_lipsticks_request)) = 200%nat /\
  exists r geminiResult matched,
    body (fst (Stateless.serve cheapest_lipsticks_env cheapest_lipsticks_request))
      = ChatBody r /\
    stage2_of cheapest_lipsticks_env cheapest_lipsticks_request
      (fun history => history) (fun _ => initial_state)
      (Stateless.vector_search cheapest_lipsticks_env) geminiResult matched /\
    response_cards r = finalProductCards matched /\
    carries r (finalProductCards matched).
Proof.
  split; [reflexivity|].
  apply (proj1 (response_cards_are_the_final_cards cheapest_lipsticks_env
                  cheapest_lipsticks_request)).
  reflexivity.
Defined.

(* ================================================================== *)
(** * The keyword mappings *)
(* ================================================================== *)

Lemma Set_add_elem (x y : string) (s : list string) : y ∈ Set_add x s <-> y = x \/ y ∈ s.
Proof.
  unfold Set_add. destruct (bool_decide_reflect (x ∈ s)) as [Hin|Hnin].
  - split; [auto | intros [->|H]; assumption].
  - rewrite elem_of_app, list_elem_of_singleton. tauto.
Qed.

Lemma Set_add_NoDup (x : string) (s : list string) : NoDup s -> NoDup (Set_add x s).
Proof.
  intros Hs. unfold Set_add. destruct (bool_decide_reflect (x ∈ s)) as [Hin|Hnin]; [exact Hs|].
  apply NoDup_app. split; [exact Hs|]. split; [|apply NoDup_singleton].
  intros y Hy Hy'. apply list_elem_of_singleton in Hy'. subst y. contradiction.
Qed.

Lemma Set_union_elem (l s : list string) (y : string) :
  y ∈ fold_left (fun s x => Set_add x s) l s <-> y ∈ s \/ y ∈ l.
Proof.
  revert s; induction l as [|x l IH]; intros s; simpl.
  - split; [auto | intros [H|H]; [exact H | inversion H]].
  - rewrite IH, Set_add_elem, elem_of_cons. tauto.
Qed.

Lemma Set_union_NoDup (l s : list string) :
  NoDup s -> NoDup (fold_left (fun s x => Set_add x s) l s).
Proof.
  revert s; induction l as [|x l IH]; intros s Hs; simpl; [exact Hs|].
  apply IH, Set_add_NoDup, Hs.
Qed.

Lemma new_Set_elem (l : list string) (y : string) : y ∈ new_Set l <-> y ∈ l.
Proof.
  unfold new_Set. rewrite Set_union_elem. split; [intros [H|H]; [inversion H | exact H] | auto].
Qed.

Lemma new_Set_NoDup (l : list string) : NoDup (new_Set l).
Proof. apply Set_union_NoDup, NoDup_nil_2. Qed.

Lemma new_Set_snoc (l : list string) (x : string) : new_Set (l ++ [x]) = Set_add x (new_Set l).
Proof. unfold new_Set. rewrite fold_left_app. reflexivity. Qed.

Lemma catalogue_types_snoc (done : list QueryResult) (r : QueryResult) :
  catalogue_types (done ++ [r])
  = if String.eqb (record_type r) "" then catalogue_types done
    else Set_add (record_type r) (catalogue_types done).
Proof.
  unfold catalogue_types. rewrite map_app, List.filter_app. simpl.
  destruct (String.eqb (record_type r) ""); simpl.
  - rewrite app_nil_r. reflexivity.
  - apply new_Set_snoc.
Qed.

Lemma catalogue_types_elem (results : list QueryResult) (k : string) :
  k ∈ catalogue_types results <-> k <> "" /\ exists r, r ∈ results /\ record_type r = k.
Proof.
  unfold catalogue_types. rewrite new_Set_elem, list_elem_of_In, filter_In, in_map_iff.
  split.
  - intros [(r & <- & Hr) Hne]. split.
    + intros Heq. rewrite Heq in Hne. discriminate.
    + exists r. split; [apply list_elem_of_In, Hr | reflexivity].
  - intros [Hne (r & Hr & <-)]. split.
    + exists r. split; [reflexivity | apply list_elem_of_In, Hr].
    + destruct (String.eqb_spec (record_type r) ""); [contradiction | reflexivity].
Qed.

(** What the tags of a record are once [tags.split] has not thrown. *)
Lemma truthy_string_tags (r : QueryResult) (tags : option string) :
  truthy_string (meta r "tags") = Ok tags -> tagList tags = record_tags r.
Proof.
  unfold truthy_string, record_tags.
  destruct (meta r "tags") as [[|b|n|s|items|fields]|]; simpl.
  all: try (intros [= <-]; reflexivity).
  all: try (destruct b; [discriminate | intros [= <-]; reflexivity]).
  all: try (destruct (Qeq_bool n 0); simpl; [intros [= <-]; reflexivity | discriminate]).
  all: try discriminate.
  destruct (String.eqb s ""); simpl; intros [= <-]; reflexivity.
Qed.

Lemma truthy_string_type (r : QueryResult) (productType : option string) :
  has_valid_metadata r = true ->
  truthy_string (meta r "productType") = Ok productType ->
  match productType with
  | Some productType => normalized_type productType
  | None => ""
  end = record_type r.
Proof.
  intros Hvalid. unfold truthy_string, record_type. rewrite Hvalid.
  destruct (meta r "productType") as [[|b|n|s|items|fields]|]; simpl.
  all: try (intros [= <-]; reflexivity).
  all: try (destruct b; [discriminate | intros [= <-]; reflexivity]).
  all: try (destruct (Qeq_bool n 0); simpl; [intros [= <-]; reflexivity | discriminate]).
  all: try discriminate.
  destruct (String.eqb_spec s ""); simpl; intros [= <-]; [subst s|]; reflexivity.
Qed.

(** One turn of the loop, in terms of the record. *)
Lemma mappings_step_Ok (build build' : MappingsBuild) (r : QueryResult) :
  mappings_step build r = Ok build' ->
  (record_type r = "" /\ build' = build) \/
  (record_type r <> "" /\
   exists previous,
     spread_synonyms (build_synonyms build) (record_type r) = Ok previous /\
     build' = {| build_typeToKeywords :=
                   <[record_type r := record_keywords r]> (build_typeToKeywords build);
                 build_synonyms :=
                   <[record_type r := new_Set (previous ++ record_synonyms r)]>
                     (build_synonyms build);
                 build_productTypes :=
                   Set_add (record_type r) (build_productTypes build) |}).
Proof.
  unfold mappings_step.
  destruct (has_valid_metadata r) eqn:Hvalid; simpl.
  2:{ intros [= <-]. left. split; [|reflexivity]. unfold record_type. rewrite Hvalid.
      reflexivity. }
  destruct (truthy_string (meta r "productType")) as [productType|] eqn:Htype; simpl;
    [|discriminate].
  rewrite (truthy_string_type r productType Hvalid Htype).
  destruct (String.eqb_spec (record_type r) "") as [Hempty|Hne]; simpl.
  - destruct (truthy_string (meta r "tags")); simpl; [|discriminate].
    intros [= <-]. left. split; [exact Hempty | reflexivity].
  - destruct (truthy_string (meta r "tags")) as [tags|] eqn:Htags; simpl; [|discriminate].
    rewrite (truthy_string_tags r tags Htags).
    destruct (spread_synonyms (build_synonyms build) (record_type r)) as [previous|] eqn:Hprev;
      simpl; [|discriminate].
    intros [= <-]. right. split; [exact Hne|]. exists previous. split; reflexivity.
Qed.

Lemma spread_synonyms_Ok synonyms k previous :
  spread_synonyms synonyms k = Ok previous ->
  synonyms !! k = Some previous \/
  (synonyms !! k = None /\ previous = [] /\ k ∉ Object_prototype_names).
Proof.
  unfold spread_synonyms. destruct (synonyms !! k) as [l|].
  - intros [= <-]. left. reflexivity.
  - destruct (bool_decide_reflect (k ∈ Object_prototype_names)); [discriminate|].
    intros [= <-]. right. auto.
Qed.

Lemma built_from_nil : built_from [] (mkMappingsBuild ∅ ∅ []).
Proof.
  split; [reflexivity|]. simpl.
  split; [intros k; rewrite lookup_empty; split; [intros [x Hx]; discriminate | inversion 1]|].
  split; [intros k; rewrite lookup_empty; split; [intros [x Hx]; discriminate | inversion 1]|].
  split; [intros k Hk; inversion Hk|].
  split; intros k x Hx; rewrite lookup_empty in Hx; discriminate.
Qed.

(** A turn of the loop keeps the locals in step with the records read. *)
Lemma built_from_step done build r build' :
  built_from done build -> mappings_step build r = Ok build' ->
  built_from (done ++ [r]) build'.
Proof.
  intros (Htypes & Hkeys & Hsyn_keys & Hnames & Hkeywords & Hsyns) Hstep.
  apply mappings_step_Ok in Hstep as [[Hempty ->] | (Hne & previous & Hprev & ->)].
  - (* the record has no type: nothing changes *)
    assert (Hkey_ne : forall k, k ∈ build_productTypes build -> record_type r <> k).
    { intros k Hk Heq. destruct (Hnames k Hk) as [Hk_ne _]. congruence. }
    split; [rewrite catalogue_types_snoc, Hempty; exact Htypes|].
    split; [exact Hkeys|]. split; [exact Hsyn_keys|]. split; [exact Hnames|]. split.
    + intros k keywords Hk.
      destruct (Hkeywords k keywords Hk) as (before & r0 & after & -> & Hr0 & Hkw & Hafter).
      exists before, r0, (after ++ [r]). rewrite <- app_assoc. split; [reflexivity|].
      split; [exact Hr0|]. split; [exact Hkw|].
      apply Forall_app. split; [exact Hafter|]. constructor; [|constructor].
      apply Hkey_ne, Hkeys. eauto.
    + intros k syns Hk. destruct (Hsyns k syns Hk) as [Hnodup Hiff].
      split; [exact Hnodup|]. intros s. rewrite Hiff. split.
      * intros (r0 & Hr0 & Ht & Hs). exists r0. rewrite elem_of_app. auto.
      * intros (r0 & Hr0 & Ht & Hs). apply elem_of_app in Hr0 as [Hr0 | Hr0]; [eauto|].
        apply list_elem_of_singleton in Hr0. subst r0.
        exfalso. apply (Hkey_ne k); [apply Hsyn_keys; eauto | exact Ht].
  - (* the record is filed under its type *)
    set (k0 := record_type r) in *. unfold built_from.
    cbn [build_typeToKeywords build_synonyms build_productTypes].
    assert (Hfresh : build_synonyms build !! k0 = None ->
                     forall r0, r0 ∈ done -> record_type r0 <> k0).
    { intros Hnone r0 Hr0 Heq.
      assert (Hin : k0 ∈ catalogue_types done)
        by (apply catalogue_types_elem; split; [exact Hne | eauto]).
      rewrite <- Htypes in Hin. apply Hsyn_keys in Hin as [x Hx]. congruence. }
    split; [rewrite catalogue_types_snoc; fold k0;
            destruct (String.eqb_spec k0 ""); [contradiction | rewrite Htypes; reflexivity]|].
    split; [intros k; rewrite lookup_insert_is_Some', Set_add_elem, Hkeys;
            split; intros [H|H]; auto|].
    split; [intros k; rewrite lookup_insert_is_Some', Set_add_elem, Hsyn_keys;
            split; intros [H|H]; auto|].
    split.
    { intros k Hk. apply Set_add_elem in Hk as [->|Hk]; [|apply Hnames, Hk].
      split; [exact Hne|].
      apply spread_synonyms_Ok in Hprev as [Hsome | (_ & _ & Hnot)]; [|exact Hnot].
      apply Hnames, Hsyn_keys. eauto. }
    split.
    + intros k keywords Hk. destruct (decide (k0 = k)) as [<-|Hneq].
      * rewrite lookup_insert_eq in Hk. injection Hk as <-.
        exists done, r, []. split; [reflexivity|]. split; [reflexivity|].
        split; [reflexivity | constructor].
      * rewrite lookup_insert_ne in Hk by exact Hneq.
        destruct (Hkeywords k keywords Hk) as (before & r0 & after & -> & Hr0 & Hkw & Hafter).
        exists before, r0, (after ++ [r]). rewrite <- app_assoc. split; [reflexivity|].
        split; [exact Hr0|]. split; [exact Hkw|].
        apply Forall_app. split; [exact Hafter|]. constructor; [exact Hneq | constructor].
    + intros k syns Hk. destruct (decide (k0 = k)) as [<-|Hneq].
      * rewrite lookup_insert_eq in Hk. injection Hk as <-.
        split; [apply new_Set_NoDup|]. intros s.
        rewrite new_Set_elem, elem_of_app.
        apply spread_synonyms_Ok in Hprev as [Hsome | (Hnone & -> & _)].
        { destruct (Hsyns k0 previous Hsome) as [_ Hiff]. rewrite Hiff. split.
          - intros [(r0 & Hr0 & Ht & Hs) | Hs].
            + exists r0. rewrite elem_of_app. auto.
            + exists r. rewrite elem_of_app, list_elem_of_singleton. auto.
          - intros (r0 & Hr0 & Ht & Hs). apply elem_of_app in Hr0 as [Hr0 | Hr0]; [eauto|].
            apply list_elem_of_singleton in Hr0. subst r0. auto. }
        { split.
          - intros [Hs | Hs]; [inversion Hs|].
            exists r. rewrite elem_of_app, list_elem_of_singleton. auto.
          - intros (r0 & Hr0 & Ht & Hs). apply elem_of_app in Hr0 as [Hr0 | Hr0].
            + exfalso. exact (Hfresh Hnone r0 Hr0 Ht).
            + apply list_elem_of_singleton in Hr0. subst r0. auto. }
      * rewrite lookup_insert_ne in Hk by exact Hneq.
        destruct (Hsyns k syns Hk) as [Hnodup Hiff].
        split; [exact Hnodup|]. intros s. rewrite Hiff. split.
        { intros (r0 & Hr0 & Ht & Hs). exists r0. rewrite elem_of_app. auto. }
        { intros (r0 & Hr0 & Ht & Hs). apply elem_of_app in Hr0 as [Hr0 | Hr0]; [eauto|].
          apply list_elem_of_singleton in Hr0. subst r0. contradiction. }
Qed.

Lemma built_from_loop results : forall done build build',
  built_from done build -> foldM mappings_step build results = Ok build' ->
  built_from (done ++ results) build'.
Proof.
  induction results as [|r results IH]; intros done build build' Hinv; simpl.
  - intros [= <-]. rewrite app_nil_r. exact Hinv.
  - destruct (mappings_step build r) as [build1|] eqn:Hstep; simpl; [|discriminate].
    intros Hrest. replace (done ++ r :: results) with ((done ++ [r]) ++ results)
      by (rewrite <- app_assoc; reflexivity).
    eapply IH; [|exact Hrest]. eapply built_from_step; eassumption.
Qed.

(** What a build that ends normally has made of the records. *)
Lemma build_mappings_Ok results km :
  build_mappings results = Ok km ->
  exists build,
    built_from results build /\
    typeToKeywords km = build_typeToKeywords build /\
    synonyms km = build_synonyms build /\
    defaultComboTypes km = slice_to 3 (build_productTypes build).
Proof.
  unfold build_mappings.
  destruct (foldM mappings_step _ results) as [build|] eqn:Hloop; simpl; [|discriminate].
  intros [= <-]. exists build. split; [|auto].
  exact (built_from_loop results [] _ _ built_from_nil Hloop).
Qed.

Lemma lower_char_idempotent (c : ascii) : lower_char (lower_char c) = lower_char c.
Proof. destruct c as [[] [] [] [] [] [] [] []]; reflexivity. Qed.

Lemma toLowerCase_idempotent (s : string) : toLowerCase (toLowerCase s) = toLowerCase s.
Proof.
  induction s as [|c s IH]; simpl; [reflexivity|].
  rewrite lower_char_idempotent, IH. reflexivity.
Qed.

Lemma normalized_type_lower (productType : string) :
  toLowerCase (normalized_type productType) = normalized_type productType.
Proof.
  unfold normalized_type. destruct (pop (split ">" productType)) as [seg|]; [|reflexivity].
  unfold str_or. destruct (String.eqb _ ""); [reflexivity | apply toLowerCase_idempotent].
Qed.

Lemma record_type_lower (r : QueryResult) : toLowerCase (record_type r) = record_type r.
Proof.
  unfold record_type. destruct (has_valid_metadata r); [|reflexivity].
  destruct (meta r "productType") as [[| | |p| |]|]; try reflexivity.
  apply normalized_type_lower.
Qed.

(** The keys of the mappings.  After a build that ends normally both
    objects have one key for every type of the catalogue: the normalised,
    non-empty product type of a record with valid metadata.  A key is in
    lower case and is not the name of a property that objects inherit.
    [defaultComboTypes] holds the first three types in the order in which
    the catalogue first shows them. *)
Theorem mappings_are_keyed_by_the_catalogue_types :
  forall (results : list QueryResult) (km : KeywordMappings),
    build_mappings results = Ok km ->
    (forall k, is_Some (typeToKeywords km !! k) <-> k ∈ catalogue_types results) /\
    (forall k, is_Some (synonyms km !! k) <-> k ∈ catalogue_types results) /\
    (forall k, k ∈ catalogue_types results <->
               k <> "" /\ exists r, r ∈ results /\ record_type r = k) /\
    (forall k, k ∈ catalogue_types results ->
               toLowerCase k = k /\ k ∉ Object_prototype_names) /\
    NoDup (catalogue_types results) /\
    defaultComboTypes km = take 3 (catalogue_types results).
Proof.
  intros results km Hbuild.
  destruct (build_mappings_Ok _ _ Hbuild)
    as (build & (Htypes & Hkeys & Hsyn_keys & Hnames & _ & _) & -> & -> & ->).
  rewrite <- Htypes.
  split; [exact Hkeys|]. split; [exact Hsyn_keys|].
  split; [intros k; rewrite Htypes; apply catalogue_types_elem|].
  split.
  { intros k Hk. split; [|apply Hnames, Hk].
    rewrite Htypes in Hk. apply catalogue_types_elem in Hk as [_ (r & _ & <-)].
    apply record_type_lower. }
  split; [rewrite Htypes; apply new_Set_NoDup | reflexivity].
Qed.

Lemma mappings_are_keyed_by_the_catalogue_types_witness :
  build_mappings mixed_catalogue = Ok mixed_mappings /\
  catalogue_types mixed_catalogue = ["lipstick"; "lip"; "lip care"; "makeup"] /\
  (forall k, is_Some (typeToKeywords mixed_mappings !! k) <->
             k ∈ catalogue_types mixed_catalogue) /\
  (forall k, is_Some (synonyms mixed_mappings !! k) <-> k ∈ catalogue_types mixed_catalogue) /\
  (forall k, k ∈ catalogue_types mixed_catalogue <->
             k <> "" /\ exists r, r ∈ mixed_catalogue /\ record_type r = k) /\
  (forall k, k ∈ catalogue_types mixed_catalogue ->
             toLowerCase k = k /\ k ∉ Object_prototype_names) /\
  NoDup (catalogue_types mixed_catalogue) /\
  defaultComboTypes mixed_mappings = take 3 (catalogue_types mixed_catalogue).
Proof.
  assert (Hbuild : build_mappings mixed_catalogue = Ok mixed_mappings)
    by (vm_compute; reflexivity).
  split; [exact Hbuild|]. split; [vm_compute; reflexivity|].
  exact (mappings_are_keyed_by_the_catalogue_types mixed_catalogue mixed_mappings Hbuild).
Defined.

Lemma append_empty_r (s : string) : s +:+ "" = s.
Proof.
  induction s as [|c s IH]; [reflexivity|].
  change (String c (s +:+ "") = String c s). rewrite IH. reflexivity.
Qed.

Lemma join_prefix (sep x : string) (l : list string) : String.prefix x (join sep (x :: l)) = true.
Proof.
  apply prefix_true_iff. destruct l as [|y l].
  - exists "". rewrite append_empty_r. reflexivity.
  - eexists. reflexivity.
Qed.

(** The keywords of a type.  After a build that ends normally the
    keywords kept for a type are those of the last record of that type in
    the catalogue: the type, the record's tags and the first three words
    of its title, joined by spaces; they begin with the type. *)
Theorem keywords_are_those_of_the_last_record :
  forall (results : list QueryResult) (km : KeywordMappings) (k keywords : string),
    build_mappings results = Ok km ->
    typeToKeywords km !! k = Some keywords ->
    exists before r after,
      results = before ++ r :: after /\
      record_type r = k /\
      Forall (fun r' => record_type r' <> k) after /\
      keywords = join " " ([k] ++ record_tags r ++ take 3 (record_title_words r)) /\
      String.prefix k keywords = true.
Proof.
  intros results km k keywords Hbuild Hk.
  destruct (build_mappings_Ok _ _ Hbuild)
    as (build & (_ & _ & _ & _ & Hkeywords & _) & Heq & _ & _).
  rewrite Heq in Hk.
  destruct (Hkeywords k keywords Hk) as (before & r & after & -> & Hr & -> & Hafter).
  exists before, r, after. split; [reflexivity|]. split; [exact Hr|]. split; [exact Hafter|].
  unfold record_keywords. rewrite Hr. split; [reflexivity | apply join_prefix].
Qed.

Lemma keywords_are_those_of_the_last_record_witness :
  build_mappings mixed_catalogue = Ok mixed_mappings /\
  typeToKeywords mixed_mappings !! "lipstick" = Some "lipstick vegan plum lipstick" /\
  exists before r after,
    mixed_catalogue = before ++ r :: after /\
    record_type r = "lipstick" /\
    Forall (fun r' => record_type r' <> "lipstick") after /\
    "lipstick vegan plum lipstick"
      = join " " (["lipstick"] ++ record_tags r ++ take 3 (record_title_words r)) /\
    String.prefix "lipstick" "lipstick vegan plum lipstick" = true.
Proof.
  assert (Hbuild : build_mappings mixed_catalogue = Ok mixed_mappings)
    by (vm_compute; reflexivity).
  assert (Hk : typeToKeywords mixed_mappings !! "lipstick"
               = Some "lipstick vegan plum lipstick") by (vm_compute; reflexivity).
  split; [exact Hbuild|]. split; [exact Hk|].
  exact (keywords_are_those_of_the_last_record mixed_catalogue mixed_mappings
           "lipstick" "lipstick vegan plum lipstick" Hbuild Hk).
Defined.

(** The synonyms of a type.  After a build that ends normally the
    synonyms of a type are, without repetition, the tags (trimmed and
    lower-cased) of all the records of that type and the words longer
    than three characters of their lower-cased titles. *)
Theorem synonyms_are_the_tags_and_long_title_words :
  forall (results : list QueryResult) (km : KeywordMappings) (k : string)
         (syns : list string),
    build_mappings results = Ok km ->
    synonyms km !! k = Some syns ->
    NoDup syns /\
    forall s,
      s ∈ syns <->
      exists r,
        r ∈ results /\ record_type r = k /\
        (s ∈ record_tags r \/
         (s ∈ record_title_words r /\ (3 < String.length s)%nat)).
Proof.
  intros results km k syns Hbuild Hk.
  destruct (build_mappings_Ok _ _ Hbuild)
    as (build & (_ & _ & _ & _ & _ & Hsyns) & _ & Heq & _).
  rewrite Heq in Hk. destruct (Hsyns k syns Hk) as [Hnodup Hiff].
  split; [exact Hnodup|]. intros s. rewrite Hiff.
  assert (Hwords : forall r, s ∈ record_synonyms r <->
                     s ∈ record_tags r \/
                     (s ∈ record_title_words r /\ (3 < String.length s)%nat)).
  { intros r. unfold record_synonyms, long_words. rewrite elem_of_app.
    assert (Hlong : s ∈ List.filter (fun word => (3 <? String.length word)%nat)
                          (record_title_words r) <->
                    s ∈ record_title_words r /\ (3 < String.length s)%nat).
    { rewrite !list_elem_of_In, filter_In, Nat.ltb_lt. reflexivity. }
    rewrite Hlong. reflexivity. }
  split; intros (r & Hr & Ht & Hs); exists r; (split; [exact Hr|]); (split; [exact Ht|]);
    apply Hwords, Hs.
Qed.

Lemma synonyms_are_the_tags_and_long_title_words_witness :
  build_mappings mixed_catalogue = Ok mixed_mappings /\
  synonyms mixed_mappings !! "lip care" = Some ["honey"; "balm"] /\
  NoDup ["honey"; "balm"] /\
  forall s,
    s ∈ ["honey"; "balm"] <->
    exists r,
      r ∈ mixed_catalogue /\ record_type r = "lip care" /\
      (s ∈ record_tags r \/ (s ∈ record_title_words r /\ (3 < String.length s)%nat)).
Proof.
  assert (Hbuild : build_mappings mixed_catalogue = Ok mixed_mappings)
    by (vm_compute; reflexivity).
  assert (Hk : synonyms mixed_mappings !! "lip care" = Some ["honey"; "balm"])
    by (vm_compute; reflexivity).
  split; [exact Hbuild|]. split; [exact Hk|].
  exact (synonyms_are_the_tags_and_long_title_words mixed_catalogue mixed_mappings
           "lip care" ["honey"; "balm"] Hbuild Hk).
Defined.

Lemma truthy_string_throws (v : option json) :
  truthy v = true -> typeof v <> TString -> exists e, truthy_string v = Throw e.
Proof.
  unfold truthy_string. intros -> Htype.
  destruct v as [[| | |s| |]|]; try (eexists; reflexivity).
  exfalso. apply Htype. reflexivity.
Qed.

Lemma rbind_throws {A B} (r : completion A) (k : A -> completion B) :
  (forall a, r = Ok a -> exists e, k a = Throw e) -> exists e, rbind r k = Throw e.
Proof. intros Hk. destruct r as [a|e]; simpl; [apply Hk; reflexivity | eauto]. Qed.

(** The loop throws on a record that aborts the build. *)
Lemma mappings_step_aborts build r :
  aborts_the_build r ->
  (forall k, is_Some (build_synonyms build !! k) -> k ∉ Object_prototype_names) ->
  exists e, mappings_step build r = Throw e.
Proof.
  intros [Hvalid Hbad] Hnames. unfold mappings_step. rewrite Hvalid. simpl.
  apply rbind_throws. intros productType Htype.
  rewrite (truthy_string_type r productType Hvalid Htype).
  destruct Hbad as [[Ht Hs] | [[Ht Hs] | Hname]].
  - destruct (truthy_string_throws _ Ht Hs) as [e He]. congruence.
  - destruct (truthy_string_throws _ Ht Hs) as [e He]. rewrite He.
    destruct (negb (String.eqb (record_type r) "")); simpl; eauto.
  - assert (Hin : record_type r ∈ Object_prototype_names).
    { destruct Hname as [-> | ->]; apply list_elem_of_In; simpl; auto 12. }
    assert (Hne : String.eqb (record_type r) "" = false).
    { destruct Hname as [-> | ->]; reflexivity. }
    rewrite Hne. simpl.
    apply rbind_throws. intros build' Hbuild'.
    exfalso. revert Hbuild'.
    destruct (truthy_string (meta r "tags")) as [tags|]; simpl; [|discriminate].
    unfold spread_synonyms.
    destruct (build_synonyms build !! record_type r) as [previous|] eqn:Hlookup.
    + exfalso. apply (Hnames (record_type r)); [eauto | exact Hin].
    + rewrite bool_decide_eq_true_2 by exact Hin. discriminate.
Qed.

Lemma mappings_loop_aborts results r : forall done build,
  built_from done build -> r ∈ results -> aborts_the_build r ->
  exists e, foldM mappings_step build results = Throw e.
Proof.
  induction results as [|r0 results IH]; intros done build Hinv Hin Hbad; [inversion Hin|].
  simpl. apply rbind_throws. intros build1 Hstep.
  apply elem_of_cons in Hin as [<- | Hin].
  - exfalso. destruct (mappings_step_aborts build r Hbad) as [e He]; [|congruence].
    destruct Hinv as (_ & _ & Hsyn_keys & Hnames & _).
    intros k Hk. apply Hnames, Hsyn_keys, Hk.
  - eapply IH; [eapply built_from_step; eassumption | exact Hin | exact Hbad].
Qed.

(** How a build ends.  [buildDynamicMappings] never throws and queries
    the index at most once, for 'all products'.  It leaves the mappings
    as they were when there is no index client, when the query throws or
    returns nothing, and when the loop throws on a record of the answer:
    a record with valid metadata whose product type or tags are truthy
    and not strings, or whose normalised type is 'constructor' or
    '__proto__'.  Otherwise the mappings are those built from the
    answer. *)
Theorem a_failed_build_keeps_the_mappings :
  forall (env : Env) (st : state),
    exists km evs,
      fst (buildDynamicMappings env st) = Ok km /\
      trace (snd (buildDynamicMappings env st)) = trace st ++ evs /\
      (evs = [] \/ evs = [VectorQuery "all products" 1000]) /\
      (km = keywordMappings env \/
       exists index results,
         vectorIndex env = Some index /\
         index (queries_made st) "all products" 1000%Q = QueryReturns results /\
         build_mappings results = Ok km) /\
      (forall index results r,
         vectorIndex env = Some index ->
         index (queries_made st) "all products" 1000%Q = QueryReturns results ->
         r ∈ results -> aborts_the_build r ->
         km = keywordMappings env).
Proof.
  intros env st. unfold buildDynamicMappings.
  destruct (vectorIndex env) as [index|] eqn:Hindex.
  2:{ exists (keywordMappings env), []. simpl. rewrite app_nil_r.
      repeat split; auto. }
  unfold try_catch, bind, get_queries_made, emit, throw, ret, lift. cbn [fst snd trace].
  destruct (index (queries_made st) "all products" 1000%Q) as [|results] eqn:Hanswer.
  { exists (keywordMappings env), [VectorQuery "all products" 1000]. simpl.
    repeat split; auto. }
  destruct results as [|r0 results].
  { exists (keywordMappings env), [VectorQuery "all products" 1000]. simpl.
    repeat split; auto. }
  destruct (build_mappings (r0 :: results)) as [km|e] eqn:Hbuild.
  - exists km, [VectorQuery "all products" 1000]. simpl.
    split; [reflexivity|]. split; [reflexivity|]. split; [auto|].
    split; [right; exists index, (r0 :: results); auto|].
    intros index' results' r [= <-] Hanswer' Hin Hbad. exfalso.
    rewrite Hanswer in Hanswer'. injection Hanswer' as <-.
    unfold build_mappings in Hbuild.
    destruct (mappings_loop_aborts (r0 :: results) r [] _ built_from_nil Hin Hbad) as [e He].
    rewrite He in Hbuild. discriminate.
  - exists (keywordMappings env), [VectorQuery "all products" 1000]. simpl.
    repeat split; auto.
Qed.

(** A catalogue with a record whose type normalises to 'constructor'
    leaves the mappings as they were. *)
Example constructor_aborts_the_build :
  fst (buildDynamicMappings
         (catalogue_index (mixed_catalogue ++ [constructor_record]) mixed_mappings)
         initial_state)
  = Ok mixed_mappings.
Proof. vm_compute. reflexivity. Qed.

Lemma includes_empty (s : string) : includes s "" = true.
Proof. apply includes_true_iff. exists "", s. reflexivity. Qed.

(** An empty synonym matches every record. *)
Lemma empty_synonym_matches env filter productType r productType' tags' syns :
  Filter.productType filter = Some productType -> productType <> "" ->
  synonyms (keywordMappings env) !! toLowerCase productType = Some syns ->
  "" ∈ syns ->
  nullish_or_string (meta r "productType") = Ok productType' ->
  nullish_or_string (meta r "tags") = Ok tags' ->
  Stateless.typeMatch env filter r = Ok true.
Proof.
  intros Hfilter Hne Hsyns Hin Htype Htags.
  unfold Stateless.typeMatch. rewrite Hfilter. unfold given.
  destruct (String.eqb_spec productType ""); [contradiction|].
  rewrite Htype, Htags, Hsyns. simpl. f_equal.
  apply orb_true_iff. right. apply existsb_exists.
  exists "". split; [apply list_elem_of_In, Hin|].
  rewrite includes_empty. reflexivity.
Qed.

(** An empty tag opens the type filter.  When one record of a type has a
    tag that is empty once trimmed (a tag string that ends with a comma,
    or holds two commas in a row, or only white space), the build puts the
    empty string among the synonyms of that type, and from then on the
    type check of the stateless handler for that type accepts every
    record, whatever its type, tags and title. *)
Theorem an_empty_tag_opens_the_type_filter :
  forall (results : list QueryResult) (env : Env) (r0 : QueryResult)
         (filter : Filter.t) (productType : string)
         (r : QueryResult) (productType' tags' : string),
    build_mappings results = Ok (keywordMappings env) ->
    r0 ∈ results -> record_type r0 <> "" -> "" ∈ record_tags r0 ->
    Filter.productType filter = Some productType ->
    toLowerCase productType = record_type r0 ->
    nullish_or_string (meta r "productType") = Ok productType' ->
    nullish_or_string (meta r "tags") = Ok tags' ->
    (exists syns,
       synonyms (keywordMappings env) !! record_type r0 = Some syns /\ "" ∈ syns) /\
    Stateless.typeMatch env filter r = Ok true.
Proof.
  intros results env r0 filter productType r productType' tags'
         Hbuild Hr0 Htype0 Hempty Hfilter Hlower Htype Htags.
  destruct (build_mappings_Ok _ _ Hbuild)
    as (build & (Htypes & _ & Hsyn_keys & _ & _ & Hsyns) & _ & Heq & _).
  assert (Hkey : is_Some (build_synonyms build !! record_type r0)).
  { apply Hsyn_keys. rewrite Htypes. apply catalogue_types_elem. split; [exact Htype0 | eauto]. }
  destruct Hkey as [syns Hlookup].
  assert (Hin : "" ∈ syns).
  { apply (Hsyns _ _ Hlookup). exists r0. split; [exact Hr0|]. split; [reflexivity|].
    unfold record_synonyms. apply elem_of_app. left. exact Hempty. }
  rewrite <- Heq in Hlookup.
  split; [exists syns; split; assumption|].
  eapply empty_synonym_matches; try eassumption.
  - intros ->. apply Htype0. rewrite <- Hlower. reflexivity.
  - rewrite Hlower. exact Hlookup.
Qed.

(** With the mappings built from the mixed catalogue the type filter
    'Lipstick' rejects the honey balm; once the catalogue also holds the
    lipstick tagged "satin," the filter accepts it. *)
Lemma an_empty_tag_opens_the_type_filter_witness :
  Stateless.typeMatch (catalogue_index [] mixed_mappings)
    (Filter.mk (Some "Lipstick") None None) honey_balm = Ok false /\
  build_mappings (mixed_catalogue ++ [comma_lipstick])
    = Ok (keywordMappings (catalogue_index [] comma_mappings)) /\
  record_tags comma_lipstick = ["satin"; ""] /\
  (exists syns,
     synonyms (keywordMappings (catalogue_index [] comma_mappings))
       !! record_type comma_lipstick = Some syns /\ "" ∈ syns) /\
  Stateless.typeMatch (catalogue_index [] comma_mappings)
    (Filter.mk (Some "Lipstick") None None) honey_balm = Ok true.
Proof.
  split; [vm_compute; reflexivity|].
  assert (Hbuild : build_mappings (mixed_catalogue ++ [comma_lipstick])
                   = Ok (keywordMappings (catalogue_index [] comma_mappings)))
    by (vm_compute; reflexivity).
  split; [exact Hbuild|]. split; [vm_compute; reflexivity|].
  apply (an_empty_tag_opens_the_type_filter (mixed_catalogue ++ [comma_lipstick])
           (catalogue_index [] comma_mappings) comma_lipstick
           (Filter.mk (Some "Lipstick") None None) "Lipstick" honey_balm
           "Skincare > Lip Care" "honey" Hbuild).
  - apply elem_of_app. right. left.
  - discriminate.
  - vm_compute. right. left.
  - reflexivity.
  - reflexivity.
  - reflexivity.
  - reflexivity.
Defined.

(* ================================================================== *)
(** * Extraction of the JSON text *)
(* ================================================================== *)

Lemma append_nil_l (b : string) : "" +:+ b = b.
Proof. reflexivity. Qed.

Lemma append_cons (c : ascii) (a b : string) : String c a +:+ b = String c (a +:+ b).
Proof. reflexivity. Qed.

Lemma append_assoc (a b c : string) : (a +:+ b) +:+ c = a +:+ (b +:+ c).
Proof.
  induction a as [|x a IH]; [reflexivity|].
  rewrite !append_cons, IH. reflexivity.
Qed.

Lemma strip_prefix_app (p s : string) : strip_prefix p (p +:+ s) = Some s.
Proof.
  induction p as [|a p IH]; [destruct s; reflexivity|].
  rewrite append_cons. simpl. rewrite Ascii.eqb_refl. exact IH.
Qed.

Lemma strip_prefix_i_app (p s : string) : strip_prefix_i (toLowerCase p) (p +:+ s) = Some s.
Proof.
  induction p as [|a p IH]; [destruct s; reflexivity|].
  rewrite append_cons. simpl. rewrite Ascii.eqb_refl. exact IH.
Qed.

Lemma strip_prefix_other (a b : ascii) (p s : string) :
  Ascii.eqb a b = false -> strip_prefix (String a p) (String b s) = None.
Proof. intros H. simpl. rewrite H. reflexivity. Qed.

(** The opening of a fence, with or without the word "json". *)
Lemma after_opening_fence (lang rest : string) :
  lang = "" \/ toLowerCase lang = "json" ->
  after_opening (fence +:+ lang +:+ LF +:+ rest) = Some rest.
Proof.
  intros Hlang. unfold after_opening. rewrite strip_prefix_app.
  destruct Hlang as [-> | Hjson].
  - rewrite append_nil_l. reflexivity.
  - rewrite <- Hjson, strip_prefix_i_app, strip_prefix_app. reflexivity.
Qed.

Lemma cut_at_first (c : ascii) (sub content after : string) :
  mentions c content = false ->
  cut_at (String c sub) (content +:+ String c sub +:+ after) = Some (content, after).
Proof.
  intros Hno. induction content as [|d content IH].
  - rewrite append_nil_l.
    pose proof (strip_prefix_app (String c sub) after) as H.
    destruct (String c sub +:+ after) eqn:E; [discriminate|].
    simpl cut_at. simpl in H. rewrite H. reflexivity.
  - simpl in Hno. apply orb_false_iff in Hno as [Hd Hrest].
    rewrite append_cons. simpl cut_at.
    rewrite Ascii.eqb_sym, Hd. rewrite (IH Hrest). reflexivity.
Qed.

Lemma fenced_here_other (c : ascii) (s : string) :
  Ascii.eqb c "`" = false -> fenced_here (String c s) = None.
Proof.
  intros Hc. unfold fenced_here, after_opening, fence.
  rewrite strip_prefix_other; [reflexivity|]. rewrite Ascii.eqb_sym. exact Hc.
Qed.

Lemma fenced_block_skip (before s : string) :
  mentions "`" before = false -> fenced_block (before +:+ s) = fenced_block s.
Proof.
  intros Hno. induction before as [|c before IH]; [reflexivity|].
  simpl in Hno. apply orb_false_iff in Hno as [Hc Hrest].
  rewrite append_cons. simpl fenced_block. rewrite (fenced_here_other c _ Hc).
  apply IH, Hrest.
Qed.

Lemma fenced_block_none (s : string) : mentions "`" s = false -> fenced_block s = None.
Proof.
  intros Hno. rewrite <- (append_empty_r s). rewrite fenced_block_skip by exact Hno.
  reflexivity.
Qed.

(** A fenced block is read.  For a reply made of a text without
    backticks, a fenced block (three backticks, nothing or the word
    "json" in any case, a line feed, a content without backticks that is
    not empty, three backticks) and any text after it, the string handed
    to [JSON.parse] is the trimmed content of the block; braces outside
    the block play no part. *)
Theorem fenced_json_is_extracted :
  forall (before lang content after : string),
    mentions "`" before = false ->
    lang = "" \/ toLowerCase lang = "json" ->
    mentions "`" content = false ->
    content <> "" ->
    jsonString_of (before +:+ fence +:+ lang +:+ LF +:+ content +:+ fence +:+ after)
    = trim content.
Proof.
  intros before lang content after Hbefore Hlang Hcontent Hne.
  unfold jsonString_of. rewrite (fenced_block_skip before _ Hbefore).
  assert (Hhere : fenced_here (fence +:+ lang +:+ LF +:+ content +:+ fence +:+ after)
                  = Some content).
  { unfold fenced_here. rewrite (after_opening_fence lang _ Hlang).
    unfold fence. rewrite (cut_at_first "`" "``" content after Hcontent). reflexivity. }
  assert (Hblock : fenced_block (fence +:+ lang +:+ LF +:+ content +:+ fence +:+ after)
                   = Some content).
  { unfold fence at 1. rewrite !append_cons. simpl fenced_block.
    unfold fence at 1 in Hhere. rewrite !append_cons in Hhere. rewrite Hhere. reflexivity. }
  rewrite Hblock. destruct (String.eqb_spec content ""); [contradiction | reflexivity].
Qed.

(** A reply with a fenced block between two sentences that hold braces. *)
Lemma fenced_json_is_extracted_witness :
  mentions "`" ("Here is {the} JSON:" +:+ LF) = false /\
  ("JSON" = "" \/ toLowerCase "JSON" = "json") /\
  mentions "`" ("{a: 1}" +:+ LF) = false /\
  "{a: 1}" +:+ LF <> "" /\
  jsonString_of (("Here is {the} JSON:" +:+ LF) +:+ fence +:+ "JSON" +:+ LF +:+
                 ("{a: 1}" +:+ LF) +:+ fence +:+ " Use {it} well.")
  = "{a: 1}".
Proof.
  split; [reflexivity|]. split; [right; reflexivity|]. split; [reflexivity|].
  split; [discriminate|].
  exact (fenced_json_is_extracted ("Here is {the} JSON:" +:+ LF) "JSON" ("{a: 1}" +:+ LF)
           " Use {it} well." eq_refl (or_intror eq_refl) eq_refl ltac:(discriminate)).
Defined.

Lemma upto_last_none (c : ascii) (s : string) : mentions c s = false -> upto_last c s = None.
Proof.
  induction s as [|d s IH]; [reflexivity|]. simpl. intros H.
  apply orb_false_iff in H as [Hd Hs]. rewrite (IH Hs), Hd. reflexivity.
Qed.

Lemma upto_last_app (c : ascii) (inner after : string) :
  mentions c after = false ->
  upto_last c (inner +:+ String c after) = Some (inner +:+ String c "").
Proof.
  intros Hno. induction inner as [|d inner IH].
  - rewrite !append_nil_l. simpl. rewrite (upto_last_none c after Hno), Ascii.eqb_refl.
    reflexivity.
  - rewrite !append_cons. simpl. rewrite IH. reflexivity.
Qed.

Lemma object_span_skip (before s : string) :
  mentions "{" before = false -> object_span (before +:+ s) = object_span s.
Proof.
  intros Hno. induction before as [|c before IH]; [reflexivity|].
  simpl in Hno. apply orb_false_iff in Hno as [Hc Hrest].
  rewrite append_cons. simpl. rewrite Hc. apply IH, Hrest.
Qed.

Lemma object_span_none_open (s : string) : mentions "{" s = false -> object_span s = None.
Proof.
  intros Hno. rewrite <- (append_empty_r s), object_span_skip by exact Hno. reflexivity.
Qed.

Lemma object_span_none_close (s : string) : mentions "}" s = false -> object_span s = None.
Proof.
  induction s as [|c s IH]; [reflexivity|]. simpl. intros H.
  apply orb_false_iff in H as [_ Hs]. rewrite (upto_last_none "}" s Hs), (IH Hs).
  destruct (Ascii.eqb c "{"); reflexivity.
Qed.

(** Without a fence the braces decide.  For a trimmed reply without
    backticks the string handed to [JSON.parse] runs from the first
    opening brace to the last closing brace, whatever stands between
    them; a reply without an opening brace, or without a closing one, is
    handed over whole. *)
Theorem braces_delimit_the_json :
  forall (textResponse : string),
    mentions "`" textResponse = false ->
    (forall before inner after,
       textResponse = before +:+ "{" +:+ inner +:+ "}" +:+ after ->
       mentions "{" before = false -> mentions "}" after = false ->
       jsonString_of textResponse = "{" +:+ inner +:+ "}") /\
    (mentions "{" textResponse = false -> jsonString_of textResponse = textResponse) /\
    (mentions "}" textResponse = false -> jsonString_of textResponse = textResponse).
Proof.
  intros textResponse Hfence. unfold jsonString_of.
  rewrite (fenced_block_none _ Hfence). split; [|split].
  - intros before inner after -> Hbefore Hafter.
    rewrite (object_span_skip before _ Hbefore).
    change ("{" +:+ inner +:+ "}" +:+ after) with (String "{" (inner +:+ String "}" after)).
    simpl object_span. rewrite (upto_last_app "}" inner after Hafter). reflexivity.
  - intros Hno. rewrite (object_span_none_open _ Hno). reflexivity.
  - intros Hno. rewrite (object_span_none_close _ Hno). reflexivity.
Qed.

Lemma braces_delimit_the_json_witness :
  mentions "`" "Sure: {a: {b: 2}} and so on" = false /\
  "Sure: {a: {b: 2}} and so on" = "Sure: " +:+ "{" +:+ "a: {b: 2}" +:+ "}" +:+ " and so on" /\
  mentions "{" "Sure: " = false /\
  mentions "}" " and so on" = false /\
  jsonString_of "Sure: {a: {b: 2}} and so on" = "{" +:+ "a: {b: 2}" +:+ "}".
Proof.
  split; [reflexivity|]. split; [reflexivity|]. split; [reflexivity|]. split; [reflexivity|].
  exact (proj1 (braces_delimit_the_json "Sure: {a: {b: 2}} and so on" eq_refl)
           "Sure: " "a: {b: 2}" " and so on" eq_refl eq_refl eq_refl).
Defined.

Lemma contains_refl (s : string) : contains s s.
Proof. exists "", "". rewrite append_empty_r. reflexivity. Qed.

Lemma contains_trans (a b c : string) : contains a b -> contains b c -> contains a c.
Proof.
  intros (x & y & ->) (u & v & ->). exists (x +:+ u), (v +:+ y).
  rewrite !append_assoc. reflexivity.
Qed.

Lemma contains_suffix (p s : string) : contains (p +:+ s) s.
Proof. exists p, "". rewrite append_empty_r. reflexivity. Qed.

Lemma contains_prefix (p s : string) : contains (p +:+ s) p.
Proof. exists "", s. reflexivity. Qed.

Lemma contains_cons (c : ascii) (s sub : string) : contains s sub -> contains (String c s) sub.
Proof. intros (a & b & ->). exists (String c a), b. reflexivity. Qed.

(** An induction that follows [trimStart], which drops one, two or three
    bytes at a time. *)
Lemma string_ind_3 (P : string -> Prop) :
  P "" ->
  (forall a s, P s ->
     (forall b r, s = String b r -> P r) ->
     (forall b c r, s = String b (String c r) -> P r) ->
     P (String a s)) ->
  forall s, P s.
Proof.
  intros Hnil Hcons s.
  assert (H : P s /\
              (forall b r, s = String b r -> P r) /\
              (forall b c r, s = String b (String c r) -> P r)).
  { induction s as [|a s (IH1 & IH2 & IH3)].
    - split; [exact Hnil|]. split; intros; discriminate.
    - split; [apply Hcons; assumption|]. split.
      + intros b r [= _ <-]. exact IH1.
      + intros b c r [= _ Hs]. exact (IH2 _ _ Hs). }
  exact (proj1 H).
Qed.

Lemma trimStart_contains (s : string) : contains s (trimStart s).
Proof.
  induction s as [|a s IH1 IH2 IH3] using string_ind_3; [apply contains_refl|].
  simpl. destruct (is_white_space a); [apply contains_cons, IH1|].
  destruct s as [|b s]; [apply contains_refl|].
  destruct (is_white_space2 a b); [apply contains_cons, contains_cons, (IH2 _ _ eq_refl)|].
  destruct s as [|c s]; [apply contains_refl|].
  destruct (is_white_space3 a b c); [|apply contains_refl].
  apply contains_cons, contains_cons, contains_cons, (IH3 _ _ _ eq_refl).
Qed.

Lemma trimEnd_prefix (s : string) : exists rest, s = trimEnd s +:+ rest.
Proof.
  induction s as [|c s (rest & IH)]; [exists ""; reflexivity|]. cbn [trimEnd].
  destruct (white_space (String c (trimEnd s))).
  - exists (String c s). reflexivity.
  - exists rest. rewrite append_cons, <- IH. reflexivity.
Qed.

Lemma trim_contains (s : string) : contains s (trim s).
Proof.
  unfold trim. eapply contains_trans; [apply trimStart_contains|].
  destruct (trimEnd_prefix (trimStart s)) as [rest Hrest].
  rewrite Hrest at 1. apply contains_prefix.
Qed.

Lemma strip_prefix_Some (p s r : string) : strip_prefix p s = Some r -> s = p +:+ r.
Proof.
  revert s; induction p as [|a p IH]; intros s; simpl.
  - intros [= ->]. reflexivity.
  - destruct s as [|b s]; [discriminate|].
    destruct (Ascii.eqb_spec a b) as [->|]; [|discriminate].
    intros H. rewrite (IH _ H). reflexivity.
Qed.

Lemma strip_prefix_i_Some (p s r : string) :
  strip_prefix_i p s = Some r -> exists q, s = q +:+ r.
Proof.
  revert s; induction p as [|a p IH]; intros s; simpl.
  - intros [= ->]. exists "". reflexivity.
  - destruct s as [|b s]; [discriminate|].
    destruct (Ascii.eqb a (lower_char b)); [|discriminate].
    intros H. destruct (IH _ H) as [q ->]. exists (String b q). reflexivity.
Qed.

Lemma cut_at_Some (sub s before after : string) :
  cut_at sub s = Some (before, after) -> s = before +:+ sub +:+ after.
Proof.
  revert before; induction s as [|c s IH]; intros before.
  - simpl. destruct (strip_prefix sub "") as [r|] eqn:E; [|discriminate].
    intros [= <- <-]. rewrite append_nil_l. exact (strip_prefix_Some _ _ _ E).
  - simpl. destruct (strip_prefix sub (String c s)) as [r|] eqn:E.
    + intros [= <- <-]. rewrite append_nil_l. exact (strip_prefix_Some _ _ _ E).
    + destruct (cut_at sub s) as [[b a]|]; [|discriminate].
      intros [= <- <-]. rewrite (IH b eq_refl). reflexivity.
Qed.

Lemma after_opening_Some (s rest : string) :
  after_opening s = Some rest -> exists p, s = p +:+ rest.
Proof.
  unfold after_opening. destruct (strip_prefix fence s) as [r|] eqn:Hfence; [|discriminate].
  apply strip_prefix_Some in Hfence. subst s.
  destruct (strip_prefix_i "json" r) as [r'|] eqn:Hjson.
  - destruct (strip_prefix LF r') as [rest'|] eqn:Hlf.
    + intros [= <-]. apply strip_prefix_i_Some in Hjson as [q ->].
      apply strip_prefix_Some in Hlf. subst r'.
      exists (fence +:+ q +:+ LF). rewrite !append_assoc. reflexivity.
    + intros Hlf'. apply strip_prefix_Some in Hlf'. subst r.
      exists (fence +:+ LF). rewrite !append_assoc. reflexivity.
  - intros Hlf. apply strip_prefix_Some in Hlf. subst r.
    exists (fence +:+ LF). rewrite !append_assoc. reflexivity.
Qed.

Lemma fenced_here_contains (s content : string) :
  fenced_here s = Some content -> contains s content.
Proof.
  unfold fenced_here. destruct (after_opening s) as [rest|] eqn:Hopen; [|discriminate].
  destruct (cut_at fence rest) as [[c a]|] eqn:Hcut; [|discriminate].
  intros [= <-]. apply after_opening_Some in Hopen as [p ->].
  apply cut_at_Some in Hcut. subst rest. exists p, (fence +:+ a). reflexivity.
Qed.

Lemma fenced_block_contains (s content : string) :
  fenced_block s = Some content -> contains s content.
Proof.
  induction s as [|c s IH]; simpl.
  - discriminate.
  - destruct (fenced_here (String c s)) eqn:E.
    + intros [= <-]. apply fenced_here_contains, E.
    + intros H. apply contains_cons, IH, H.
Qed.

Lemma upto_last_Some (c : ascii) (s p : string) :
  upto_last c s = Some p -> exists q, s = p +:+ q.
Proof.
  revert p; induction s as [|d s IH]; intros p; simpl; [discriminate|].
  destruct (upto_last c s) as [p'|].
  - intros [= <-]. destruct (IH p' eq_refl) as [q ->]. exists q. reflexivity.
  - destruct (Ascii.eqb d c); [|discriminate]. intros [= <-]. exists s. reflexivity.
Qed.

Lemma object_span_contains (s span : string) :
  object_span s = Some span -> contains s span.
Proof.
  induction s as [|c s IH]; simpl; [discriminate|].
  destruct (Ascii.eqb c "{"); [|intros H; apply contains_cons, IH, H].
  destruct (upto_last "}" s) as [inner|] eqn:E; [|intros H; apply contains_cons, IH, H].
  intros [= <-]. apply upto_last_Some in E as [q ->].
  exists "", q. reflexivity.
Qed.

(** The extraction only cuts.  Whatever the reply of the model, the
    string handed to [JSON.parse] is a contiguous part of the reply. *)
Theorem extracted_json_is_part_of_the_reply :
  forall (text : string), contains text (extract_json_string text).
Proof.
  intros text. unfold extract_json_string.
  eapply contains_trans; [apply trim_contains|].
  generalize (trim text). intros textResponse. unfold jsonString_of.
  assert (Hbraces : contains textResponse
                      match object_span textResponse with
                      | Some span => span
                      | None => textResponse
                      end).
  { destruct (object_span textResponse) eqn:E;
      [apply object_span_contains, E | apply contains_refl]. }
  destruct (fenced_block textResponse) as [content|] eqn:Hblock; [|exact Hbraces].
  destruct (String.eqb content ""); [exact Hbraces|].
  eapply contains_trans; [apply fenced_block_contains, Hblock | apply trim_contains].
Qed.

(* ================================================================== *)
(** * The chat widget and the handler *)
(* ================================================================== *)

Lemma trimStart_fixed (s : string) : starts_with_white_space s = false -> trimStart s = s.
Proof.
  destruct s as [|a [|b [|c s]]]; simpl; try reflexivity.
  - intros H. apply orb_false_iff in H as [-> _]. reflexivity.
  - intros H. apply orb_false_iff in H as [-> H].
    apply orb_false_iff in H as [-> _]. reflexivity.
  - intros H. apply orb_false_iff in H as [-> H].
    apply orb_false_iff in H as [-> ->]. reflexivity.
Qed.

Lemma trimStart_head (s : string) : starts_with_white_space (trimStart s) = false.
Proof.
  induction s as [|a s IH1 IH2 IH3] using string_ind_3; [reflexivity|].
  simpl. destruct (is_white_space a) eqn:E1; [exact IH1|].
  destruct s as [|b s]; [simpl; rewrite E1; reflexivity|].
  destruct (is_white_space2 a b) eqn:E2; [exact (IH2 _ _ eq_refl)|].
  destruct s as [|c s]; [simpl; rewrite E1, E2; reflexivity|].
  destruct (is_white_space3 a b c) eqn:E3; [exact (IH3 _ _ _ eq_refl)|].
  simpl. rewrite E1, E2, E3. reflexivity.
Qed.

(** A string that starts with white space still does once extended. *)
Lemma starts_with_white_space_app (s rest : string) :
  starts_with_white_space s = true -> starts_with_white_space (s +:+ rest) = true.
Proof.
  destruct s as [|a [|b [|c s]]]; simpl; try discriminate.
  - rewrite orb_false_r. intros ->. reflexivity.
  - rewrite orb_false_r. intros H. apply orb_true_iff in H as [-> | ->];
      [reflexivity|]. destruct rest; rewrite ?orb_true_r; reflexivity.
  - intros H. exact H.
Qed.

Lemma trimEnd_head (s : string) :
  starts_with_white_space s = false -> starts_with_white_space (trimEnd s) = false.
Proof.
  intros Hs. destruct (starts_with_white_space (trimEnd s)) eqn:E; [|reflexivity].
  destruct (trimEnd_prefix s) as [rest Hrest].
  apply (starts_with_white_space_app _ rest) in E. rewrite <- Hrest in E. congruence.
Qed.

Lemma trimEnd_idempotent (s : string) : trimEnd (trimEnd s) = trimEnd s.
Proof.
  induction s as [|c s IH]; [reflexivity|]. cbn [trimEnd].
  destruct (white_space (String c (trimEnd s))) eqn:E; [reflexivity|].
  cbn [trimEnd]. rewrite IH, E. reflexivity.
Qed.

(** Trimming twice is trimming once. *)
Lemma trim_idempotent (s : string) : trim (trim s) = trim s.
Proof.
  unfold trim.
  rewrite (trimStart_fixed (trimEnd (trimStart s))).
  - apply trimEnd_idempotent.
  - apply trimEnd_head, trimStart_head.
Qed.

(** What the widget posts is a valid request. *)
Lemma request_body_valid messages messageText requestBody :
  request_body messages false messageText = Some requestBody ->
  requestBody = JObj [("query", JStr (trim messageText));
                      ("history", JArr (map JObj (historyToSend messages)))] /\
  trim messageText <> "" /\
  valid_request (Ok requestBody).
Proof.
  unfold request_body. destruct (String.eqb_spec (trim messageText) "") as [|Hne];
    [discriminate|]. simpl. intros [= <-]. split; [reflexivity|]. split; [exact Hne|].
  eexists _, (trim messageText). split; [reflexivity|]. split; [reflexivity|].
  unfold is_blank. rewrite trim_idempotent.
  destruct (String.eqb_spec (trim messageText) ""); [contradiction | reflexivity].
Qed.

Lemma shown_for_advice id response :
  has_advice response -> shown_for id response (reply_message id response).
Proof.
  intros (r & Hbody & _ & [Hstatus | [Hstatus _]]); unfold reply_message, shown_for;
    rewrite Hstatus, Hbody; simpl.
  - left. split; [reflexivity|]. exists r. split; reflexivity.
  - right. split; [reflexivity|]. split; reflexivity.
Qed.

(** What the user of the widget sees.  A message the widget sends is
    never rejected as an invalid query: either handler answers it with
    status 200 or 500.  With status 200 the widget shows the response.
    With status 500 it shows the fixed text 'Sorry, something went wrong.
    Please try again. (API request failed)': the apology and the
    reference the handler puts in its advice are not shown. *)
Theorem the_widget_shows_the_response_or_a_fixed_error :
  forall (env : Env) (messages : list Message) (messageText : string)
         (requestBody : json) (id : string),
    request_body messages false messageText = Some requestBody ->
    shown_for id (fst (Stateless.serve env (Ok requestBody)))
      (reply_message id (fst (Stateless.serve env (Ok requestBody)))) /\
    shown_for id (fst (WithHistory.serve env (Ok requestBody)))
      (reply_message id (fst (WithHistory.serve env (Ok requestBody)))).
Proof.
  intros env messages messageText requestBody id Hbody.
  destruct (request_body_valid _ _ _ Hbody) as (_ & _ & Hvalid). split.
  - apply shown_for_advice.
    exact (stateless_POST_returns env (Ok requestBody) Hvalid _ _ _
             (serve_stateless env (Ok requestBody))).
  - apply shown_for_advice.
    exact (history_POST_returns env (Ok requestBody) Hvalid _ _ _
             (serve_history env (Ok requestBody))).
Qed.

(** With every service failing the widget shows its fixed error, while
    with a working index it shows the response. *)
Lemma the_widget_shows_the_response_or_a_fixed_error_witness :
  request_body widget_conversation false " a gloss "
  = Some (JObj [("query", JStr "a gloss");
                ("history", JArr (map JObj (historyToSend widget_conversation)))]) /\
  status (fst (Stateless.serve (index_only sample_catalogue)
                 (Ok (JObj [("query", JStr "a gloss");
                            ("history",
                             JArr (map JObj (historyToSend widget_conversation)))]))))
  = 200%nat /\
  shown_for "m7"
    (fst (Stateless.serve (index_only sample_catalogue)
            (Ok (JObj [("query", JStr "a gloss");
                       ("history", JArr (map JObj (historyToSend widget_conversation)))]))))
    (reply_message "m7"
       (fst (Stateless.serve (index_only sample_catalogue)
               (Ok (JObj [("query", JStr "a gloss");
                          ("history",
                           JArr (map JObj (historyToSend widget_conversation)))]))))).
Proof.
  split; [reflexivity|]. split; [reflexivity|].
  exact (proj1 (the_widget_shows_the_response_or_a_fixed_error
                  (index_only sample_catalogue) widget_conversation " a gloss " _ "m7"
                  eq_refl)).
Defined.

Lemma assoc_set_prop_other (k k' : string) (v : json) (fields : list (string * json)) :
  k <> k' -> assoc k' (set_prop k v fields) = assoc k' fields.
Proof.
  intros Hne. induction fields as [|[k0 v0] fields IH]; simpl.
  - destruct (String.eqb_spec k' k); [congruence | reflexivity].
  - destruct (String.eqb_spec k k0) as [->|Hk]; simpl.
    + destruct (String.eqb_spec k' k0); [congruence | reflexivity].
    + destruct (String.eqb k' k0); [reflexivity | exact IH].
Qed.

Lemma json_of_response_no_text (r : ChatApiResponse) : assoc "text" (json_of_response r) = None.
Proof.
  unfold json_of_response.
  destruct (res_product_card r), (res_complementary_products r), (res_history r); reflexivity.
Qed.

(** Of the messages the widget sends, only those of the user have a
    text. *)
Lemma widget_message_text (m : Message) :
  widget_message m ->
  negb (truthy (assoc "isLoading" m)) && negb (truthy (assoc "isError" m)) = true ->
  exists b, has_text (JObj m) = Ok b /\
            (b = true -> role (to_gemini_turn (JObj m)) = "user").
Proof.
  intros [id text | id text | id | id r | id text] Hsent.
  - exists false. split; [reflexivity | discriminate].
  - unfold has_text. simpl. destruct (String.eqb text ""); simpl.
    + exists false. split; [reflexivity | discriminate].
    + eexists. split; reflexivity.
  - discriminate.
  - exists false. split; [|discriminate].
    assert (Htext : assoc "text" (bot_message id (json_of_response r)) = None).
    { unfold bot_message. rewrite !assoc_set_prop_other by discriminate.
      apply json_of_response_no_text. }
    unfold has_text.
    change (prop (JObj (bot_message id (json_of_response r))) "text")
      with (assoc "text" (bot_message id (json_of_response r))).
    rewrite Htext. reflexivity.
  - discriminate.
Qed.

Lemma widget_history_turns (messages : list Message) :
  Forall (fun m => widget_message m /\
                   negb (truthy (assoc "isLoading" m)) &&
                   negb (truthy (assoc "isError" m)) = true) messages ->
  exists kept,
    filterM has_text (map JObj messages) = Ok kept /\
    Forall (fun msg => role (to_gemini_turn msg) = "user") kept.
Proof.
  induction 1 as [|m messages [Hm Hsent] _ (kept & Hkept & Hall)]; cbn [map filterM].
  - exists []. split; [reflexivity | constructor].
  - destruct (widget_message_text m Hm Hsent) as (b & -> & Hb). rewrite Hkept.
    cbn [rbind].
    destruct b; eexists; (split; [reflexivity|]); [constructor; auto | exact Hall].
Qed.

Lemma slice_from_six {A} (l : list A) : slice_from (-6) l = drop (length l - 6) l.
Proof. unfold slice_from. simpl. f_equal. lia. Qed.

Lemma length_drop_last {A} (l : list A) (k : nat) : (length (drop (length l - k) l) <= k)%nat.
Proof. rewrite length_drop. lia. Qed.

Lemma historyToSend_sent (messages : list Message) :
  Forall widget_message messages ->
  Forall (fun m => widget_message m /\
                   negb (truthy (assoc "isLoading" m)) &&
                   negb (truthy (assoc "isError" m)) = true) (historyToSend messages) /\
  (length (historyToSend messages) <= 6)%nat.
Proof.
  intros Hall. unfold historyToSend. rewrite slice_from_six. split.
  - apply Forall_drop. apply Forall_forall. intros m Hm.
    apply list_elem_of_In, filter_In in Hm as [Hm Hsent]. split; [|exact Hsent].
    rewrite Forall_forall in Hall. apply Hall, list_elem_of_In, Hm.
  - apply length_drop_last.
Qed.

(** The history the widget sends, as the handler reads it. *)
Lemma widget_geminiHistory (messages : list Message) :
  Forall widget_message messages ->
  exists turns,
    geminiHistory_of (Some (JArr (map JObj (historyToSend messages)))) = Ok turns /\
    Forall (fun t => role t = "user") turns /\
    (length turns <= 6)%nat.
Proof.
  intros Hall. destruct (historyToSend_sent messages Hall) as [Hsent Hlen].
  destruct (widget_history_turns _ Hsent) as (kept & Hkept & Hroles).
  exists (map to_gemini_turn kept). unfold geminiHistory_of. simpl. rewrite Hkept. simpl.
  split; [reflexivity|]. split; [apply Forall_map, Hroles|].
  rewrite length_map. apply filterM_Ok in Hkept as [Hsub _].
  apply sublist_length_le in Hsub. rewrite length_map in Hsub.
  exact (Nat.le_trans _ _ _ Hsub Hlen).
Qed.

(** The replies never reach the model.  When the widget calls the
    stateless handler, the history it sends holds at most six messages,
    none of them a loading or an error message; the handler finds a text
    in the messages of the user only, since a reply is stored in the
    widget with its advice and without a text.  So whenever the model is
    called, every turn it is shown has the role 'user'. *)
Theorem the_model_sees_only_the_users_turns :
  forall (env : Env) (messages : list Message) (messageText : string)
         (requestBody : json),
    Forall widget_message messages ->
    request_body messages false messageText = Some requestBody ->
    (exists turns,
       geminiHistory_of (prop requestBody "history") = Ok turns /\
       Forall (fun t => role t = "user") turns /\ (length turns <= 6)%nat) /\
    forall q h,
      GenerateContent q h ∈ trace (snd (Stateless.serve env (Ok requestBody))) ->
      q = trim messageText /\ Forall (fun t => role t = "user") h.
Proof.
  intros env messages messageText requestBody Hall Hbody.
  destruct (request_body_valid _ _ _ Hbody) as (-> & Hne & _).
  destruct (widget_geminiHistory messages Hall) as (turns & Hturns & Hroles & Hlen).
  split; [exists turns; simpl; auto|].
  intros q h Hin. rewrite serve_stateless_snd in Hin.
  destruct (stateless_POST_trace env
              (Ok (JObj [("query", JStr (trim messageText));
                         ("history", JArr (map JObj (historyToSend messages)))]))
              initial_state)
    as [Heq | (body & query & history & turns' & g & queries & Hb & Hd & _ & Ht & Heq & Hq)];
    rewrite Heq in Hin; [inversion Hin|].
  injection Hb as <-. simpl in Hd. injection Hd as <- <-.
  rewrite Hturns in Ht. injection Ht as <-.
  destruct (model_call_found env (trim (string_of (Some (JStr (trim messageText)))))
              turns q h [] queries Hin) as [-> ->].
  { intros e He. inversion He. }
  { intros e He ->. rewrite Forall_forall in Hq.
    exact (index_query_not_model _ _ _ _ (Hq _ He)). }
  simpl string_of. rewrite trim_idempotent. split; [reflexivity|].
  rewrite slice_from_last. apply Forall_drop, Hroles.
Qed.

(** Of the seven messages of the conversation five are sent, and the
    model is shown the three questions of the user. *)
Lemma the_model_sees_only_the_users_turns_witness :
  Forall widget_message widget_conversation /\
  request_body widget_conversation false " a gloss "
  = Some (JObj [("query", JStr "a gloss");
                ("history", JArr (map JObj (historyToSend widget_conversation)))]) /\
  length (historyToSend widget_conversation) = 5%nat /\
  GenerateContent "a gloss"
    [mkGeminiTurn "user" "a lipstick"; mkGeminiTurn "user" "a cheaper one";
     mkGeminiTurn "user" "a balm"]
    ∈ trace (snd (Stateless.serve (failing_model [])
                    (Ok (JObj [("query", JStr "a gloss");
                               ("history",
                                JArr (map JObj (historyToSend widget_conversation)))])))) /\
  "a gloss" = trim " a gloss " /\
  Forall (fun t => role t = "user")
    [mkGeminiTurn "user" "a lipstick"; mkGeminiTurn "user" "a cheaper one";
     mkGeminiTurn "user" "a balm"].
Proof.
  assert (Hall : Forall widget_message widget_conversation).
  { unfold widget_conversation. repeat (constructor; [constructor|]). constructor. }
  assert (Hin : GenerateContent "a gloss"
                  [mkGeminiTurn "user" "a lipstick"; mkGeminiTurn "user" "a cheaper one";
                   mkGeminiTurn "user" "a balm"]
                ∈ trace (snd (Stateless.serve (failing_model [])
                    (Ok (JObj [("query", JStr "a gloss");
                               ("history",
                                JArr (map JObj (historyToSend widget_conversation)))]))))).
  { vm_compute. left. }
  split; [exact Hall|]. split; [reflexivity|]. split; [reflexivity|]. split; [exact Hin|].
  exact (proj2 (the_model_sees_only_the_users_turns (failing_model []) widget_conversation
                  " a gloss " _ Hall eq_refl) _ _ Hin).
Defined.
